(** * best-buy-sniper: the purchase workflow of [src/pages/bestbuy.ts] and
      [src/index.ts], embedded in Rocq.

    The TypeScript sources are asynchronous, effectful code driving a browser
    page.  They are embedded as functions of a small monad that threads a
    world (the trace of every external call made so far and the purchase
    marker file) through the calls, returns an outcome (a value, a thrown
    [Error], a [process.exit], or fuel exhausted for the unbounded loops) and
    reads the answers of the outside (the page, the notification services,
    [Math.random]) from an environment that sees the whole history.  The
    calls that are awaited one at a time are made in their order; the two
    sends of a [Promise.all] run together, and the environment tells which
    of them is answered first. *)

From Stdlib Require Import ZArith List Bool Ascii String DecimalString Lia.
From Stdlib Require Import SpecFloat.
From Stdlib Require DecimalPos.
Import ListNotations.

Local Open Scope string_scope.
Local Open Scope Z_scope.

(* ================================================================== *)
(** * JavaScript values *)

(** ** Strings *)
Module JsString.

(** JS truthiness of a string: every string but the empty one. *)
Definition truthy (s : string) : bool :=
  match s with EmptyString => false | String _ _ => true end.

(** White space of [String.prototype.trim] and of [parseFloat], on the
    one-byte characters: TAB, LF, VT, FF, CR, SPACE and NBSP. *)
Definition isWhiteSpace (c : ascii) : bool :=
  let n := nat_of_ascii c in
  (Nat.eqb n 9 || Nat.eqb n 10 || Nat.eqb n 11 || Nat.eqb n 12
   || Nat.eqb n 13 || Nat.eqb n 32 || Nat.eqb n 160)%bool.

Fixpoint trimStart (s : string) : string :=
  match s with
  | String c r => if isWhiteSpace c then trimStart r else s
  | EmptyString => EmptyString
  end.

Fixpoint rev_append (s acc : string) : string :=
  match s with
  | String c r => rev_append r (String c acc)
  | EmptyString => acc
  end.

Definition rev (s : string) : string := rev_append s EmptyString.

Definition trimEnd (s : string) : string := rev (trimStart (rev s)).

(** [s.trim()] *)
Definition trim (s : string) : string := trimEnd (trimStart s).

Definition lowerChar (c : ascii) : ascii :=
  let n := nat_of_ascii c in
  if (Nat.leb 65 n && Nat.leb n 90)%bool then ascii_of_nat (n + 32) else c.

(** [s.toLowerCase()] (and [toLocaleLowerCase]) on one-byte letters. *)
Fixpoint toLowerCase (s : string) : string :=
  match s with
  | String c r => String (lowerChar c) (toLowerCase r)
  | EmptyString => EmptyString
  end.

(** [s.replace(c, '')] with a one-character string pattern: only the first
    occurrence is removed. *)
Fixpoint removeFirst (c : ascii) (s : string) : string :=
  match s with
  | String d r => if Ascii.eqb c d then r else String d (removeFirst c r)
  | EmptyString => EmptyString
  end.

(** [/pat/.test(s)] for a pattern without metacharacters: [pat] occurs in
    [s]. *)
Definition includes (pat s : string) : bool :=
  match index 0 pat s with Some _ => true | None => false end.

End JsString.

(** ** Numbers: IEEE 754 binary64 *)
Module JsNumber.

Definition number := spec_float.

Definition prec : Z := 53.
Definition emax : Z := 1024.

Definition zero : number := S754_zero false.
Definition NaN : number := S754_nan.

(** An integer as a number (exact below 2^53, rounded to nearest above). *)
Definition ofZ (z : Z) : number := binary_normalize prec emax z 0 false.

(** [x === y] on numbers. *)
Definition strictEq (x y : number) : bool := SFeqb x y.

(** [x > y], [x < y], [x <= y]: false whenever an operand is NaN. *)
Definition gt (x y : number) : bool :=
  match SFcompare x y with Some Gt => true | _ => false end.
Definition lt (x y : number) : bool := SFltb x y.
Definition le (x y : number) : bool := SFleb x y.

Definition isNaN (x : number) : bool :=
  match x with S754_nan => true | _ => false end.

Definition one : number := ofZ 1.

(** What [Math.random()] may return: a binary64 number that is at least 0
    and less than 1. *)
Definition inUnitInterval (x : number) : bool :=
  (valid_binary prec emax x && le zero x && lt x one)%bool.

(** ** [parseFloat] *)

Definition digitOf (c : ascii) : option Z :=
  let n := nat_of_ascii c in
  if (Nat.leb 48 n && Nat.leb n 57)%bool then Some (Z.of_nat n - 48) else None.

(** The longest run of decimal digits at the head of [s]: its value when
    read after the digits already accumulated in [acc], how many digits it
    has, and the rest of the string. *)
Fixpoint digits (s : string) (acc : Z) (len : nat) : Z * nat * string :=
  match s with
  | String c r =>
      match digitOf c with
      | Some d => digits r (10 * acc + d) (S len)
      | None => (acc, len, s)
      end
  | EmptyString => (acc, len, s)
  end.

(** The decimal value [m * 10^e10] with sign [neg], rounded to the nearest
    binary64 (ties to even).  A negative power of ten is divided out with
    enough extra bits, the lowest of them sticky. *)
Definition ofDecimal (neg : bool) (m : Z) (e10 : Z) : number :=
  if m =? 0 then S754_zero neg
  else if 0 <=? e10 then
    binary_normalize prec emax ((if neg then - m else m) * 10 ^ e10) 0 neg
  else
    let d := 10 ^ (- e10) in
    let s := Z.max 0 (Z.log2 d + 57 - Z.log2 m) in
    let q := (m * 2 ^ s) / d in
    let sticky := if (m * 2 ^ s) mod d =? 0 then 0 else 1 in
    let mant := 2 * q + sticky in
    binary_normalize prec emax (if neg then - mant else mant) (- s - 1) neg.

(** The optional exponent part [e|E [+|-] digits]; without digits there is
    no exponent part and the text is left where it was. *)
Definition exponentPart (s : string) : Z :=
  match s with
  | String c r =>
      if (Ascii.eqb c "e" || Ascii.eqb c "E")%bool then
        match r with
        | String sg r' =>
            if Ascii.eqb sg "-" then
              let '(v, n, _) := digits r' 0 0%nat in
              match n with O => 0 | _ => - v end
            else if Ascii.eqb sg "+" then
              let '(v, n, _) := digits r' 0 0%nat in
              match n with O => 0 | _ => v end
            else
              let '(v, _, _) := digits r 0 0%nat in v
        | EmptyString => 0
        end
      else 0
  | EmptyString => 0
  end.

(** [StrUnsignedDecimalLiteral]: the longest prefix of [s] that is
    [Infinity], [digits . digits? exp?], [. digits exp?] or [digits exp?];
    NaN when there is none. *)
Definition unsignedLiteral (neg : bool) (s : string) : number :=
  if prefix "Infinity" s then S754_infinity neg
  else
    let '(ip, ni, r) := digits s 0 0%nat in
    match r with
    | String "." r1 =>
        let '(m, nf, r2) := digits r1 ip 0%nat in
        match ni, nf with
        | O, O => NaN
        | _, O => ofDecimal neg ip (exponentPart r2)
        | _, _ => ofDecimal neg m (exponentPart r2 - Z.of_nat nf)
        end
    | _ =>
        match ni with
        | O => NaN
        | _ => ofDecimal neg ip (exponentPart r)
        end
    end.

(** [parseFloat(s)]: leading white space is skipped, then the longest
    prefix that is a signed decimal literal is read; what follows it is
    ignored. *)
Definition parseFloat (s : string) : number :=
  match JsString.trimStart s with
  | String "-" r => unsignedLiteral true r
  | String "+" r => unsignedLiteral false r
  | t => unsignedLiteral false t
  end.

End JsNumber.
Import JsNumber.

(* ================================================================== *)
(** * The outside world *)

Inductive Level := Info | Warn | Error.

(** Every call the workflow makes on something outside itself: the
    Playwright page, browser and context, the two notification clients,
    timers, the file system, the logger, [Math.random], the process.
    [Later c] is no call of the workflow: it stands in the history for the
    call [c] that a function left running by a rejected [Promise.all] makes
    by itself afterwards, at a time that the history does not tell. *)
Inductive Call :=
  | Goto (url : string)
  | WaitForSelector (selector : string)
  | Query (selector : string)
  | EvalTextContent (selector : string)
  | TextContent (selector : string)
  | Focus (selector : string)
  | Click (selector : string)
  | TypeText (selector text : string)
  | Press (selector key : string)
  | SelectOption (selector value : string)
  | Check (selector : string)
  | Uncheck (selector : string)
  | Screenshot (name : string)
  | WaitForResponse (url : string)
  | WaitForFunction (argument : string)
  | Cookies
  | NewContext
  | NewPage
  | PageClose
  | ContextClose
  | FirefoxLaunch
  | BrowserClose
  | HookSend (message : string)
  | HookSendFile (image : string)
  | TelegramSendMessage (message : string)
  | Wait (ms : Z)
  | ExistsSync (path : string)
  | WriteFileSync (path content : string)
  | Log (level : Level) (message : string)
  | ConsoleLog (message : string)
  | MathRandom
  | ProcessExit (code : Z)
  | Pm2Connect
  | Pm2Delete (name : string)
  | Later (c : Call).

(** A call that was made, with the message of the error it threw or was
    rejected with, if it was. *)
Record Event := { call : Call; failure : option string }.

Record Cookie := { name : string; value : string }.

(** The world the workflow changes: the history of its calls, oldest first,
    and whether the marker file [purchase.json] exists. *)
Record World := { trace : list Event; purchaseJson : bool }.

(** The outside: what it answers to a call, given all that happened before;
    and, when the two functions of a [Promise.all] each wait for the answer
    to a call, whether the second one gets its answer first. *)
Record Env := {
  rejects : list Event -> Call -> option string;
  element : list Event -> string -> bool;
  textOf : list Event -> string -> option string;
  cookiesOf : list Event -> list Cookie;
  randomOf : list Event -> number;
  secondFirst : list Event -> bool
}.

(** How a computation ends: with a value, with a thrown [Error] (its
    message), with [process.exit(code)], or not within the fuel given. *)
Inductive Outcome (A : Type) :=
  | Ok (a : A)
  | Throw (message : string)
  | Exit (code : Z)
  | Diverge.
Arguments Ok {A} a.
Arguments Throw {A} message.
Arguments Exit {A} code.
Arguments Diverge {A}.

Definition M (A : Type) : Type := Env -> World -> Outcome A * World.

Definition ret {A} (a : A) : M A := fun _ w => (Ok a, w).

Definition bind {A B} (m : M A) (k : A -> M B) : M B :=
  fun env w =>
    match m env w with
    | (Ok a, w') => k a env w'
    | (Throw e, w') => (Throw e, w')
    | (Exit c, w') => (Exit c, w')
    | (Diverge, w') => (Diverge, w')
    end.

Declare Scope js_scope.
Delimit Scope js_scope with js.
Notation "x <- m ;; k" := (bind m (fun x => k))
  (at level 100, m at next level, right associativity) : js_scope.
Notation "m ;; k" := (bind m (fun _ => k))
  (at level 100, right associativity) : js_scope.
Local Open Scope js_scope.

Definition throw {A} (message : string) : M A := fun _ w => (Throw message, w).

Definition diverge {A} : M A := fun _ w => (Diverge, w).

(** [try { body } catch (error) { handler error }]: only a thrown error is
    caught. *)
Definition tryCatch {A} (body : M A) (handler : string -> M A) : M A :=
  fun env w =>
    match body env w with
    | (Throw e, w') => handler e env w'
    | r => r
    end.

Definition record (c : Call) (f : option string) (w : World) : World :=
  {| trace := trace w ++ [{| call := c; failure := f |}];
     purchaseJson := purchaseJson w |}.

(** A call that can fail: it is recorded, and throws when the outside
    rejects it. *)
Definition perform (c : Call) : M unit :=
  fun env w =>
    match rejects env (trace w) c with
    | Some e => (Throw e, record c (Some e) w)
    | None => (Ok tt, record c None w)
    end.

(** A call that cannot fail. *)
Definition quiet (c : Call) : M unit := fun _ w => (Ok tt, record c None w).

(** ** The primitives of the sources *)

Definition wait (ms : Z) : M unit := quiet (Wait ms).

Definition logger (l : Level) (message : string) : M unit := quiet (Log l message).

(** [page.$(selector)]: whether an element was found. *)
Definition query (selector : string) : M bool :=
  fun env w =>
    match rejects env (trace w) (Query selector) with
    | Some e => (Throw e, record (Query selector) (Some e) w)
    | None => (Ok (element env (trace w) selector), record (Query selector) None w)
    end.

(** [element.textContent()], [null] being [None]. *)
Definition textContent (selector : string) : M (option string) :=
  fun env w =>
    match rejects env (trace w) (TextContent selector) with
    | Some e => (Throw e, record (TextContent selector) (Some e) w)
    | None => (Ok (textOf env (trace w) selector), record (TextContent selector) None w)
    end.

(** [page.$eval(selector, (element) => element.textContent)] *)
Definition evalTextContent (selector : string) : M (option string) :=
  fun env w =>
    match rejects env (trace w) (EvalTextContent selector) with
    | Some e => (Throw e, record (EvalTextContent selector) (Some e) w)
    | None => (Ok (textOf env (trace w) selector), record (EvalTextContent selector) None w)
    end.

(** [const [context] = this.browser.contexts(); await context.cookies()] *)
Definition contextCookies : M (list Cookie) :=
  fun env w =>
    match rejects env (trace w) Cookies with
    | Some e => (Throw e, record Cookies (Some e) w)
    | None => (Ok (cookiesOf env (trace w)), record Cookies None w)
    end.

Definition mathRandom : M number :=
  fun env w => (Ok (randomOf env (trace w)), record MathRandom None w).

Definition purchaseFile : string := "purchase.json".

(** [existsSync('purchase.json')] *)
Definition existsSync : M bool :=
  fun _ w => (Ok (purchaseJson w), record (ExistsSync purchaseFile) None w).

(** [writeFileSync('purchase.json', '{}')] *)
Definition writeFileSync : M unit :=
  fun env w =>
    match rejects env (trace w) (WriteFileSync purchaseFile "{}") with
    | Some e => (Throw e, record (WriteFileSync purchaseFile "{}") (Some e) w)
    | None =>
        (Ok tt, {| trace := trace w ++ [{| call := WriteFileSync purchaseFile "{}";
                                            failure := None |}];
                   purchaseJson := true |})
    end.

(** [process.exit(code)] *)
Definition processExit {A} (code : Z) : M A :=
  fun _ w => (Exit code, record (ProcessExit code) None w).

(** ** Notifications: [src/core/notifications/discord.ts] and [telegram.ts] *)

(** The two [sendMessage] functions await calls of their client one after
    the other and do nothing else: each is the list of the calls it makes,
    in their order. *)
Definition sendDiscordMessage (message : string) (image : option string) : list Call :=
  HookSend message ::
  match image with
  | Some i => if JsString.truthy i then [HookSendFile i] else []
  | None => []
  end.

Definition sendTelegramMessage (message : string) : list Call :=
  [TelegramSendMessage message].

(** [await f(...)], for a function [f] that makes the calls [calls]: they
    are made one after the other, up to the first that is rejected. *)
Fixpoint await (calls : list Call) : M unit :=
  match calls with
  | [] => ret tt
  | c :: rest => perform c ;; await rest
  end.

(** ** [Promise.all] *)

(** A function that was called and is not awaited alone goes on by itself
    each time the call it waits for is answered: [answer] is the answer to
    that call, [rest] the calls it makes after it.  Here it is the only one
    still running. *)
Fixpoint resume (answer : option string) (rest : list Call) : M unit :=
  fun env w =>
    match answer with
    | Some e => (Throw e, w)
    | None =>
        match rest with
        | [] => (Ok tt, w)
        | c :: rest' =>
            let f := rejects env (trace w) c in
            resume f rest' env (record c f w)
        end
    end.

(** The function is left running when the [Promise.all] is rejected by the
    other one.  The call it waits for has been made; if it goes well, the
    calls after it are made later, while the workflow goes on. *)
Fixpoint postpone (rest : list Call) (w : World) : World :=
  match rest with
  | [] => w
  | c :: rest' => postpone rest' (record (Later c) None w)
  end.

Definition abandon (answer : option string) (rest : list Call) (w : World) : World :=
  match answer with
  | Some _ => w
  | None => postpone rest w
  end.

(** Two functions run together, each waiting for the answer to a call
    already made: [fa] and [fb] are the answers, [ra] and [rb] the calls
    that each makes afterwards.  The outside tells which answer comes
    first.  A rejection rejects the [Promise.all] at once, with its error,
    and the other function is left running; an answer that is no rejection
    lets its function go on, with its next call or to its end. *)
Fixpoint race (fa : option string) (ra : list Call) :
    option string -> list Call -> M unit :=
  fix race_second (fb : option string) (rb : list Call) : M unit :=
    fun env w =>
      if secondFirst env (trace w) then
        match fb with
        | Some e => (Throw e, abandon fa ra w)
        | None =>
            match rb with
            | [] => resume fa ra env w
            | c :: rb' =>
                let f := rejects env (trace w) c in
                race_second f rb' env (record c f w)
            end
        end
      else
        match fa with
        | Some e => (Throw e, abandon fb rb w)
        | None =>
            match ra with
            | [] => resume fb rb env w
            | c :: ra' =>
                let f := rejects env (trace w) c in
                race f ra' fb rb env (record c f w)
            end
        end.

(** [await Promise.all([f(...), g(...)])], [f] making the calls [a] and [g]
    the calls [b].  Both functions are called, [f] first, and each runs up
    to its first [await]: the first call of [a] is made, then the first call
    of [b], before any answer is looked at.  The [Promise.all] is fulfilled
    when both functions have returned, and rejected as soon as a call of
    one of them is. *)
Definition promiseAll2 (a b : list Call) : M unit :=
  match a, b with
  | ca :: ra, cb :: rb =>
      fun env w =>
        let fa := rejects env (trace w) ca in
        let w1 := record ca fa w in
        let fb := rejects env (trace w1) cb in
        race fa ra fb rb env (record cb fb w1)
  | _, _ => await a ;; await b
  end.

(* ================================================================== *)
(** * lodash *)

(** [find(cookies, { name: n })]: the first cookie of that name. *)
Fixpoint find (cookies : list Cookie) (n : string) : option Cookie :=
  match cookies with
  | [] => None
  | c :: rest => if String.eqb (name c) n then Some c else find rest n
  end.

(** [Math.floor] of a finite number, as an integer (0 for the others, which
    [random] never meets). *)
Definition floor (x : number) : Z :=
  match x with
  | S754_finite s m e =>
      if 0 <=? e then cond_Zopp s (Zpos m) * 2 ^ e
      else cond_Zopp s (Zpos m) / 2 ^ (- e)
  | _ => 0
  end.

(** [random(lower, upper)] on two integers with [lower <= upper] is
    [baseRandom]: [lower + nativeFloor(nativeRandom() * (upper - lower + 1))],
    [rand] being what [Math.random()] returned. *)
Definition random (lower upper : Z) (rand : number) : Z :=
  lower + floor (SFmul prec emax rand (ofZ (upper - lower + 1))).

(* ================================================================== *)
(** * Configuration: [src/core/configs] *)

Record ProductInformation := {
  searchText : option string;
  sku : string;
  model : string;
  productName : string;
  productPage : string
}.

Record CustomerInformation := {
  address : string;
  addressSecondLine : option string;
  budget : number;
  city : string;
  email : string;
  firstName : string;
  lastName : string;
  phone : string;
  state : string;
  zipcode : string
}.

Record PaymentInformation := {
  creditCardNumber : string;
  expirationMonth : string;
  expirationYear : string;
  cvv : string;
  paymentAddress : string;
  paymentCity : string;
  paymentFirstName : string;
  paymentLastName : string;
  paymentState : string;
  paymentZipcode : string
}.

(* ================================================================== *)
(** * The messages and selectors of [src/pages/bestbuy.ts] *)

Definition quote : string := String (ascii_of_nat 34) EmptyString.

(** [[attribute="v"]] *)
Definition attributeSelector (attribute v : string) : string :=
  "[" ++ attribute ++ "=" ++ quote ++ v ++ quote ++ "]".

Definition bestBuyUrl : string := "https://bestbuy.com".
Definition cartUrl : string := "https://www.bestbuy.com/cart".

Definition botMessage : string := "Browser is considered a bot, aborting attempt".
Definition notInStockMessage : string := "Product not in stock, aborting attempt".
Definition cartEmptyMessage : string := "Cart is empty, aborting attempt".
Definition shippingMessage : string := "Can't select shipping, aborting attempt".
Definition totalMessage : string := "Total amount does not seems right, aborting".
Definition nullTrimMessage : string := "Cannot read properties of null (reading 'trim')".

Definition retryLogMessage : string := "Refreshing and trying to checkout again".
Definition retryNotification : string := "Checkout did not went through, trying again".

Definition addToCartButton : string := ".add-to-cart-button:not([disabled])".
Definition shippingOption : string := "[name=availability-selection][id*=shipping]".
Definition guestButton : string := ".cia-guest-content .js-cia-guest-button".
Definition cartTitle : string := ".fluid-large-view__title".
Definition placeOrderButton : string := ".button--place-order button.btn-primary".
Definition totalSelector : string := ".order-summary__price > span".
Definition zipLink : string := ".change-zipcode-link".
Definition zipInput : string := ".update-zip__zip-input".

(** The bot-detection test of [addToCart]:
    [sensorCookie && !sensorValidationRegex.test(sensorCookie)], with
    [sensorCookie = find(cookies, { name: '_abck' })?.value] and the
    pattern [/~0~/g], made anew at each call. *)
Definition sensorCookie (cookies : list Cookie) : option string :=
  match find cookies "_abck" with
  | Some c => Some (value c)
  | None => None
  end.

Definition isFlagged (cookies : list Cookie) : bool :=
  match sensorCookie cookies with
  | Some v => (JsString.truthy v && negb (JsString.includes "~0~" v))%bool
  | None => false
  end.

(** The reading of the displayed total in [submitGuestOrder]:
    [text ? parseFloat(text.replace('$', '')) : 0]. *)
Definition parsedTotal (totalContainerTextContent : option string) : number :=
  match totalContainerTextContent with
  | Some t =>
      if JsString.truthy t then parseFloat (JsString.removeFirst "$" t) else zero
  | None => zero
  end.

(** The condition under which [submitGuestOrder] throws:
    [parsedTotal === 0 || parsedTotal > customerInformation.budget]. *)
Definition totalRejected (total budget : number) : bool :=
  (strictEq total zero || gt total budget)%bool.

(** The answer of [isCartEmpty] on the text of the cart title. *)
Definition cartEmptyText (elementTextContent : option string) : bool :=
  match elementTextContent with
  | Some t =>
      if JsString.truthy t
      then String.eqb (JsString.toLowerCase (JsString.trim t)) "your cart is empty"
      else false
  | None => false
  end.

(* ================================================================== *)
(** * [class BestBuy]: [src/pages/bestbuy.ts] *)

Section BestBuy.

(** [getCustomerInformation()] and [getPaymentInformation()]: the JSON
    files of [config/prod]. *)
Variable customerInformation : CustomerInformation.
Variable paymentInformation : PaymentInformation.

(** Whether the section of [submitGuestOrder] under
    [UNCOMMENT THIS SECTION TO ENABLE AUTO-CHECKOUT] is uncommented.  The
    source as it stands is [autoCheckout = false]. *)
Variable autoCheckout : bool.

Definition open : M unit :=
  perform NewContext ;;
  perform NewPage.

Definition close : M unit :=
  perform PageClose ;;
  perform ContextClose.

Definition goToProductPage (product : ProductInformation) : M unit :=
  logger Info ("Navigating to " ++ bestBuyUrl ++ productPage product) ;;
  perform (Goto (bestBuyUrl ++ productPage product)) ;;
  perform (WaitForSelector ".sku.product-data") ;;
  logger Info "Navigation completed".

Definition validateProductMatch (product : ProductInformation) : M unit :=
  let expectedSKU := sku product in
  logger Info ("Validating that page corresponds to sku " ++ expectedSKU) ;;
  skuValue <- evalTextContent ".sku.product-data .product-data-value" ;;
  match skuValue with
  | None => throw nullTrimMessage
  | Some v =>
      if negb (String.eqb expectedSKU (JsString.trim v))
      then throw ("Product page does not belong to product with sku " ++ expectedSKU)
      else logger Info ("Page corresponds to sku " ++ expectedSKU)
  end.

Definition isInStock : M bool :=
  enabledButton <- query addToCartButton ;;
  if enabledButton then ret true else ret false.

(** [page.waitForResponse] resolves to a response object, which is truthy,
    or is rejected. *)
Definition hasItemBeenAddedToCart : M bool :=
  perform (WaitForResponse "https://www.bestbuy.com/cart/api/v1/addToCart") ;;
  ret true.

Definition inStockMessage (product : ProductInformation) : string :=
  "Product " ++ quote ++ productName product ++ quote ++ " in stock!".

Definition addedMessage (product : ProductInformation) : string :=
  "Product " ++ quote ++ productName product ++ quote ++ " added to cart!".

(** Screenshots are named [screenshots/${Date.now()}_<name>.png]; the name
    is kept, the time stamp is not. *)
Definition addToCart (product : ProductInformation) : M unit :=
  cookies <- contextCookies ;;
  (if isFlagged cookies then
     promiseAll2 (sendDiscordMessage botMessage None)
                 (sendTelegramMessage botMessage) ;;
     throw botMessage
   else ret tt) ;;
  logger Info ("Checking stock of product " ++ quote ++ productName product ++ quote) ;;
  inStock <- isInStock ;;
  (if negb inStock then throw notInStockMessage else ret tt) ;;
  perform (Focus addToCartButton) ;;
  perform (Screenshot "product-in-stock") ;;
  promiseAll2 (sendDiscordMessage (inStockMessage product) (Some "product-in-stock"))
              (sendTelegramMessage (inStockMessage product)) ;;
  logger Info (quote ++ productName product ++ quote ++ " in stock, adding to cart...") ;;
  perform (Click addToCartButton) ;;
  result <- hasItemBeenAddedToCart ;;
  (if negb result
   then throw ("Product " ++ quote ++ productName product ++ quote
               ++ " was not able to be added to the cart")
   else ret tt) ;;
  logger Info (addedMessage product) ;;
  perform (Screenshot "product-added") ;;
  promiseAll2 (sendDiscordMessage (addedMessage product) (Some "product-added"))
              (sendTelegramMessage (addedMessage product)).

Definition isCartEmpty : M bool :=
  found <- query cartTitle ;;
  elementTextContent <- (if found then textContent cartTitle else ret None) ;;
  ret (cartEmptyText elementTextContent).

Definition changeZipCode (zipCode : string) : M unit :=
  logger Info "Waiting for zip code change button to become available" ;;
  perform (WaitForSelector zipLink) ;;
  logger Info "Changing zip code..." ;;
  perform (Click zipLink) ;;
  perform (Focus zipInput) ;;
  perform (TypeText zipInput zipCode) ;;
  perform (Press zipInput "Enter") ;;
  logger Info "Waiting for zip code to be updated" ;;
  perform (WaitForFunction zipCode).

Definition clickCheckoutButton : M unit :=
  logger Info "Trying to checkout..." ;;
  perform (Click ".checkout-buttons__checkout button:not(disabled)").

(** One selection attempt: the body of the [try] of the shipping loop. *)
Definition selectShipping : M unit :=
  perform (WaitForSelector shippingOption) ;;
  perform (Click shippingOption) ;;
  wait 500.

(** The [do ... while (!shippingSelected)] loop of [checkout], entered with
    [attempt] and [shippingSelected = false]. *)
Fixpoint shippingLoop (fuel : nat) (attempt : Z) : M unit :=
  match fuel with
  | O => diverge
  | S fuel' =>
      r <- tryCatch (selectShipping ;; ret (true, attempt))
             (fun _ =>
                let attempt := attempt + 1 in
                if attempt >? 3 then throw shippingMessage
                else ret (false, attempt)) ;;
      let '(shippingSelected, attempt) := r in
      if negb shippingSelected then shippingLoop fuel' attempt else ret tt
  end.

(** [checkout] up to the click on the checkout button. *)
Definition checkoutPass (fuel : nat) (retrying : bool) : M unit :=
  logger Info "Navigating to cart" ;;
  perform (Goto cartUrl) ;;
  (if retrying then
     empty <- isCartEmpty ;;
     if empty then throw cartEmptyMessage else ret tt
   else ret tt) ;;
  (if negb retrying then
     changeZipCode (zipcode customerInformation) ;;
     shippingLoop fuel 1
   else ret tt) ;;
  perform (Screenshot "starting-checkout") ;;
  promiseAll2 (sendDiscordMessage "Attempting checkout" (Some "starting-checkout"))
              (sendTelegramMessage "Attempting checkout") ;;
  clickCheckoutButton.

(** [checkout(retrying)].  [fuel] bounds the depth of the calls of
    [checkout] by itself and the iterations of the shipping loop. *)
Fixpoint checkout (fuel : nat) (retrying : bool) : M unit :=
  match fuel with
  | O => diverge
  | S fuel' =>
      checkoutPass fuel retrying ;;
      tryCatch
        (perform (WaitForSelector guestButton) ;;
         logger Info "Checkout successful, starting order placement")
        (fun error =>
           logger Warn error ;;
           logger Info retryLogMessage ;;
           promiseAll2 (sendDiscordMessage retryNotification (Some "starting-checkout"))
                       (sendTelegramMessage retryNotification) ;;
           checkout fuel' true)
  end.

Definition continueAsGuest : M unit :=
  logger Info "Continuing as guest" ;;
  perform (Click guestButton) ;;
  perform (WaitForSelector ".checkout__container .fulfillment").

Definition shippingField (field : string) : string :=
  attributeSelector "id" ("consolidatedAddresses.ui_address_2." ++ field).

Definition completeShippingInformation : M unit :=
  logger Info "Filling shipping information..." ;;
  perform (TypeText (shippingField "firstName") (firstName customerInformation)) ;;
  perform (TypeText (shippingField "lastName") (lastName customerInformation)) ;;
  hideSuggestionsButton <- query ".address-form__cell .autocomplete__toggle" ;;
  hideSuggestionsButtonTextContent <-
    (if hideSuggestionsButton
     then textContent ".address-form__cell .autocomplete__toggle"
     else ret None) ;;
  match hideSuggestionsButtonTextContent with
  | Some t =>
      if String.eqb (JsString.toLowerCase (JsString.trim t)) "hide suggestions"
      then perform (Click ".address-form__cell .autocomplete__toggle")
      else ret tt
  | None => ret tt
  end ;;
  perform (TypeText (shippingField "street") (address customerInformation)) ;;
  match addressSecondLine customerInformation with
  | Some line =>
      if JsString.truthy line then
        perform (Click ".address-form__showAddress2Link") ;;
        perform (TypeText (shippingField "street2") line)
      else ret tt
  | None => ret tt
  end ;;
  perform (TypeText (shippingField "city") (city customerInformation)) ;;
  perform (SelectOption (shippingField "state") (state customerInformation)) ;;
  perform (TypeText (shippingField "zipcode") (zipcode customerInformation)) ;;
  perform (Uncheck (attributeSelector "id" "save-for-billing-address-ui_address_2")) ;;
  logger Info "Shipping information completed".

Definition completeContactInformation : M unit :=
  logger Info "Filling contact information..." ;;
  perform (TypeText (attributeSelector "id" "user.emailAddress") (email customerInformation)) ;;
  perform (TypeText (attributeSelector "id" "user.phone") (phone customerInformation)) ;;
  perform (Check "#text-updates") ;;
  logger Info "Contact information completed".

Definition billingField (field : string) : string :=
  attributeSelector "id" ("payment.billingAddress." ++ field).

Definition completePaymentInformation : M unit :=
  logger Info "Filling payment information..." ;;
  perform (WaitForSelector ".payment") ;;
  perform (TypeText "#optimized-cc-card-number" (creditCardNumber paymentInformation)) ;;
  perform (SelectOption (attributeSelector "name" "expiration-month")
             (expirationMonth paymentInformation)) ;;
  perform (SelectOption (attributeSelector "name" "expiration-year")
             (expirationYear paymentInformation)) ;;
  perform (TypeText "#credit-card-cvv" (cvv paymentInformation)) ;;
  perform (TypeText (billingField "firstName") (paymentFirstName paymentInformation)) ;;
  perform (TypeText (billingField "lastName") (paymentLastName paymentInformation)) ;;
  perform (TypeText (billingField "street") (paymentAddress paymentInformation)) ;;
  perform (TypeText (billingField "city") (paymentCity paymentInformation)) ;;
  perform (TypeText (billingField "state") (paymentState paymentInformation)) ;;
  perform (TypeText (billingField "zipcode") (paymentZipcode paymentInformation)) ;;
  logger Info "Payment information completed".

(** [submitGuestOrder], first part: the forms, up to the second
    screenshot. *)
Definition completeOrderInformation : M unit :=
  logger Info "Started order information completion" ;;
  completeShippingInformation ;;
  completeContactInformation ;;
  perform (Screenshot "first-information-page-completed") ;;
  logger Info "Continuing to payment screen..." ;;
  perform (Click ".button--continue button") ;;
  completePaymentInformation ;;
  perform (Screenshot "second-information-page-completed").

(** [submitGuestOrder], second part: the last validation.  It returns
    whether the place-order button was found, and the total it read. *)
Definition readTotal : M (bool * number) :=
  logger Info "Performing last validation before placing order..." ;;
  placeOrder <- query placeOrderButton ;;
  totalContainer <- query totalSelector ;;
  totalContainerTextContent <-
    (if totalContainer then textContent totalSelector else ret None) ;;
  ret (placeOrder, parsedTotal totalContainerTextContent).

Definition validateTotal (total : number) : M unit :=
  if totalRejected total (budget customerInformation)
  then throw totalMessage
  else ret tt.

(** [submitGuestOrder], third part: from [Placing order...] to the end. *)
Definition placeOrder (placeOrderFound : bool) : M unit :=
  logger Info "Placing order..." ;;
  perform (Screenshot "placing-order") ;;
  promiseAll2 (sendDiscordMessage "Placing order..." (Some "placing-order"))
              (sendTelegramMessage "Placing order...") ;;
  alreadyPurchased <- existsSync ;;
  (if alreadyPurchased then
     logger Warn "Purchase already completed, ending process" ;;
     processExit 2
   else ret tt) ;;
  (if (autoCheckout && placeOrderFound)%bool
   then perform (Click placeOrderButton)
   else ret tt) ;;
  wait 3000 ;;
  logger Info "Order placed!" ;;
  purchased <- existsSync ;;
  (if negb purchased then writeFileSync else ret tt) ;;
  perform (Screenshot "order-placed-1") ;;
  promiseAll2 (sendDiscordMessage "Order placed!" (Some "order-placed-1"))
              (sendTelegramMessage "Order placed!") ;;
  wait 3000 ;;
  perform (Screenshot "order-placed-2") ;;
  wait 14000.

Definition submitGuestOrder : M unit :=
  completeOrderInformation ;;
  r <- readTotal ;;
  validateTotal (snd r) ;;
  placeOrder (fst r).

(** The body of the [try] of [purchaseProduct] for one product. *)
Definition purchaseFlow (fuel : nat) (product : ProductInformation) : M unit :=
  goToProductPage product ;;
  validateProductMatch product ;;
  addToCart product ;;
  checkout fuel false ;;
  continueAsGuest ;;
  submitGuestOrder.

(** The [for (const product of this.products)] loop of [purchaseProduct]:
    [Some true] is its [return true], [None] the end of an iteration. *)
Fixpoint purchaseLoop (fuel : nat) (products : list ProductInformation) : M bool :=
  match products with
  | [] => ret false
  | product :: rest =>
      r <- tryCatch (purchaseFlow fuel product ;; ret (Some true))
             (fun error =>
                logger Error error ;;
                if String.eqb error botMessage then throw error else ret None) ;;
      match r with
      | Some b => ret b
      | None => purchaseLoop fuel rest
      end
  end.

Definition purchaseProduct (fuel : nat) (products : list ProductInformation) : M bool :=
  perform (Goto "https://bestbuy.com") ;;
  purchaseLoop fuel products.

End BestBuy.

(* ================================================================== *)
(** * The process: [src/index.ts] *)

Section Index.

Variable customerInformation : CustomerInformation.
Variable paymentInformation : PaymentInformation.
Variable autoCheckout : bool.

(** [getTasks()[0].stores.bestbuy.products] *)
Variable products : list ProductInformation.

Definition showZ (z : Z) : string := NilZero.string_of_int (Z.to_int z).

(** The body of [if (!purchaseCompleted)] in the loop of [main]. *)
Definition backoff : M unit :=
  rand <- mathRandom ;;
  let waitTime := random 10000 30000 rand in
  logger Warn ("Purchase not completed, waiting " ++ showZ waitTime
               ++ " ms before retrying") ;;
  wait waitTime.

(** The [do ... while (!purchaseCompleted)] loop of [main]. *)
Fixpoint pollLoop (fuel : nat) : M unit :=
  match fuel with
  | O => diverge
  | S fuel' =>
      purchaseCompleted <-
        purchaseProduct customerInformation paymentInformation autoCheckout
          fuel products ;;
      (if negb purchaseCompleted then backoff else ret tt) ;;
      if negb purchaseCompleted then pollLoop fuel' else ret tt
  end.

(** What [main] does once the loop has ended.  In
    [await Promise.all([await sendDiscordMessage(...)])] the send is awaited
    alone, and the [Promise.all] of its value is fulfilled at once. *)
Definition shutdown : M bool :=
  logger Info "Shutting down in 1 minute" ;;
  await (sendDiscordMessage "Shutting down in 1 minute" None) ;;
  wait 60000 ;;
  close ;;
  ret true.

Definition main (fuel : nat) : M bool :=
  purchased <- existsSync ;;
  (if purchased then
     logger Warn "Purchase completed, sleeping for 2 days" ;;
     wait (60000 * 60 * 48) ;;
     processExit 2
   else ret tt) ;;
  open ;;
  logger Info "Starting purchase attempts" ;;
  tryCatch
    (pollLoop fuel ;;
     shutdown)
    (fun error =>
       quiet (ConsoleLog error) ;;
       close ;;
       throw error).

(** The [do ... while (!finished)] loop of the [pm2.connect] callback. *)
Fixpoint superviseLoop (fuel : nat) : M unit :=
  match fuel with
  | O => diverge
  | S fuel' =>
      finished <-
        tryCatch (main fuel)
          (fun error =>
             logger Error error ;;
             (if String.eqb error botMessage then
                logger Warn "Waiting 3 minutes to refresh bot status" ;;
                wait (60 * 10)
              else ret tt) ;;
             ret false) ;;
      if negb finished then superviseLoop fuel' else ret tt
  end.

(** The callback of [pm2.connect], [Pm2Connect] being rejected when the
    callback is given an error. *)
Definition supervisor (fuel : nat) : M unit :=
  tryCatch (perform Pm2Connect)
    (fun error => logger Error error ;; processExit 2) ;;
  perform FirefoxLaunch ;;
  superviseLoop fuel ;;
  perform BrowserClose ;;
  quiet (Pm2Delete "main") ;;
  logger Info "Process closed".

End Index.

(* ================================================================== *)
(** * Runs, and what is said about them *)

(** How many events of [evs] are calls that [p] holds of. *)
Fixpoint count (p : Call -> bool) (evs : list Event) : nat :=
  match evs with
  | [] => O
  | e :: rest => if p (call e) then S (count p rest) else count p rest
  end.

(** The calls of a run, without their outcomes. *)
Definition calls (evs : list Event) : list Call := map call evs.

(** ** Bounds on the calls of a computation *)

(** [m] only adds events to the trace, and at most [n] of them are calls
    that [p] holds of, whatever the outside answers. *)
Definition Counts (p : Call -> bool) (n : nat) {A} (m : M A) : Prop :=
  forall env w, exists evs,
    trace (snd (m env w)) = (trace w ++ evs)%list /\ (count p evs <= n)%nat.

(** [m] makes exactly the call [c], once, and nothing else. *)
Definition Single (c : Call) {A} (m : M A) : Prop :=
  forall env w, exists f,
    trace (snd (m env w)) = (trace w ++ [{| call := c; failure := f |}])%list.

(** ** The calls the claims are about *)

(** A selection attempt of the shipping loop starts with this call. *)
Definition isShippingAttempt (c : Call) : bool :=
  match c with
  | WaitForSelector s => String.eqb s shippingOption
  | _ => false
  end.

(** The number of selection attempts among [evs]. *)
Definition attempts (evs : list Event) : nat := count isShippingAttempt evs.

(** A first pass of [checkout] up to its shipping loop: the visit of the
    cart and the change of the zip code. *)
Definition beforeShipping (customerInformation : CustomerInformation) : M unit :=
  logger Info "Navigating to cart" ;;
  perform (Goto cartUrl) ;;
  changeZipCode (zipcode customerInformation).

(** [n] selection attempts in a row, each of them failing, lead from the
    first world to the second. *)
Inductive Failing (env : Env) : nat -> World -> World -> Prop :=
  | Failing_O w : Failing env 0 w w
  | Failing_S n w e w1 w2 :
      selectShipping env w = (Throw e, w1) ->
      Failing env n w1 w2 ->
      Failing env (S n) w w2.

(** The query of the cart title, by which [isCartEmpty] starts. *)
Definition isCartCheck (c : Call) : bool :=
  match c with
  | Query s => String.eqb s cartTitle
  | _ => false
  end.

(** The announcement of a retry pass of [checkout]. *)
Definition isRetryLog (c : Call) : bool :=
  match c with
  | Log Info s => String.eqb s retryLogMessage
  | _ => false
  end.

(** The navigation to the cart, by which every pass of [checkout] starts. *)
Definition isCartVisit (c : Call) : bool :=
  match c with
  | Goto u => String.eqb u cartUrl
  | _ => false
  end.

(** The number of passes of [checkout] among [evs]. *)
Definition passes (evs : list Event) : nat := count isCartVisit evs.

(** No call of [target] is made before the first call of [mark]. *)
Fixpoint notBefore (mark target : Call -> bool) (evs : list Event) : bool :=
  match evs with
  | [] => true
  | e :: rest =>
      if mark (call e) then true
      else if target (call e) then false
      else notBefore mark target rest
  end.

(** The amount that a total shows when it is displayed as the store does,
    with a dollar sign and with commas between the groups of three digits:
    [$1,299.99] shows 1299.99. *)
Fixpoint withoutCommas (s : string) : string :=
  match s with
  | String c r => if Ascii.eqb c "," then withoutCommas r else String c (withoutCommas r)
  | EmptyString => EmptyString
  end.

Definition shownAmount (text : string) : number :=
  parseFloat (withoutCommas (JsString.removeFirst "$" text)).

(** The click that puts the product in the cart. *)
Definition isCartMutation (c : Call) : bool :=
  match c with
  | Click s => String.eqb s addToCartButton
  | _ => false
  end.

(** The sends of the two notification clients. *)
Definition isNotification (c : Call) : bool :=
  match c with
  | HookSend _ | HookSendFile _ | TelegramSendMessage _ => true
  | _ => false
  end.

(** All the events went well. *)
Definition allDelivered (evs : list Event) : Prop :=
  Forall (fun e => failure e = None) evs.

(** The errors of the notification sends of [evs] that were rejected, in the
    order of the calls. *)
Fixpoint rejections (evs : list Event) : list string :=
  match evs with
  | [] => []
  | e :: rest =>
      if isNotification (call e) then
        match failure e with
        | Some message => message :: rejections rest
        | None => rejections rest
        end
      else rejections rest
  end.

(** A rejected notification send is not survived: when one of the sends
    that [m] makes is rejected, [m] throws, and what it throws is the error
    of a send that was rejected. *)
Definition Strict {A} (m : M A) : Prop :=
  forall env w, exists evs,
    trace (snd (m env w)) = (trace w ++ evs)%list /\
    (rejections evs <> [] ->
     exists message, In message (rejections evs) /\ fst (m env w) = Throw message).

(** The calls that a [Promise.all] of two functions may put in the history:
    those of the two functions, as made by them or as left for later. *)
Definition promised (a b : list Call) : list Call :=
  (a ++ b ++ map Later (a ++ b))%list.

(** [w'] is [w] with more events, each of them a call of [P]. *)
Inductive Extends (P : Call -> Prop) (w : World) : World -> Prop :=
  | Extends_refl : Extends P w w
  | Extends_record w' c f : Extends P w w' -> P c -> Extends P w (record c f w').

(** The look at the marker file, the click that submits the order, and the
    writing of the marker file. *)
Definition isGuardCheck (c : Call) : bool :=
  match c with
  | ExistsSync path => String.eqb path purchaseFile
  | _ => false
  end.

Definition isOrderClick (c : Call) : bool :=
  match c with
  | Click s => String.eqb s placeOrderButton
  | _ => false
  end.

Definition isGuardWrite (c : Call) : bool :=
  match c with
  | WriteFileSync path _ => String.eqb path purchaseFile
  | _ => false
  end.

(** How many times [evs] wrote the marker file, the rejected writes left
    out. *)
Fixpoint written (evs : list Event) : nat :=
  match evs with
  | [] => O
  | e :: rest =>
      if isGuardWrite (call e) then
        match failure e with
        | None => S (written rest)
        | Some _ => written rest
        end
      else written rest
  end.

(** Every call of [target] comes right after a call of [guard], [previous]
    telling whether the call before [evs] was one. *)
Fixpoint follows (guard target : Call -> bool) (previous : bool)
    (evs : list Event) : bool :=
  match evs with
  | [] => true
  | e :: rest =>
      ((if target (call e) then previous else true)
       && follows guard target (guard (call e)) rest)%bool
  end.

(** [m] makes the call [c], once, and changes nothing else. *)
Definition Records (c : Call) {A} (m : M A) : Prop :=
  forall env w, exists f, snd (m env w) = record c f w.

(** [I] holds after [m] when it held before, whatever the outside answers. *)
Definition Invariant (I : World -> Prop) {A} (m : M A) : Prop :=
  forall env w, I w -> I (snd (m env w)).

(** The marker file was written at most once, and is there if it was
    written. *)
Definition WrittenOnce (w : World) : Prop :=
  (written (trace w) <= 1)%nat /\ (written (trace w) = 1%nat -> purchaseJson w = true).

(** The marker file is there. *)
Definition MarkerSet (w : World) : Prop := purchaseJson w = true.

(** [submitGuestOrder] up to its look at the marker file, and from there. *)
Definition beforeGuard (customerInformation : CustomerInformation)
    (paymentInformation : PaymentInformation) : M bool :=
  completeOrderInformation customerInformation paymentInformation ;;
  r <- readTotal ;;
  validateTotal customerInformation (snd r) ;;
  logger Info "Placing order..." ;;
  perform (Screenshot "placing-order") ;;
  promiseAll2 (sendDiscordMessage "Placing order..." (Some "placing-order"))
              (sendTelegramMessage "Placing order...") ;;
  ret (fst r).

Definition afterOrder : M unit :=
  wait 3000 ;;
  logger Info "Order placed!" ;;
  purchased <- existsSync ;;
  (if negb purchased then writeFileSync else ret tt) ;;
  perform (Screenshot "order-placed-1") ;;
  promiseAll2 (sendDiscordMessage "Order placed!" (Some "order-placed-1"))
              (sendTelegramMessage "Order placed!") ;;
  wait 3000 ;;
  perform (Screenshot "order-placed-2") ;;
  wait 14000.

Definition atGuard (autoCheckout placeOrderFound : bool) : M unit :=
  alreadyPurchased <- existsSync ;;
  (if alreadyPurchased then
     logger Warn "Purchase already completed, ending process" ;;
     processExit 2
   else ret tt) ;;
  (if (autoCheckout && placeOrderFound)%bool
   then perform (Click placeOrderButton)
   else ret tt) ;;
  afterOrder.

(** ** The candidates that were tried and given up *)

(** Each product of the list, in turn, made [flow] throw an error that is
    not the bot-detection one, which was logged; the world went from the
    first to the second. *)
Inductive Skipped (flow : ProductInformation -> M unit) (env : Env) :
    list ProductInformation -> World -> World -> Prop :=
  | Skipped_nil w : Skipped flow env [] w w
  | Skipped_cons product rest e w w1 w2 :
      flow product env w = (Throw e, w1) ->
      String.eqb e botMessage = false ->
      Skipped flow env rest (record (Log Error e) None w1) w2 ->
      Skipped flow env (product :: rest) w w2.

(** ** A configuration and a page on which everything goes well *)
Module Scenario.

Definition customer : CustomerInformation :=
  {| address := "1 Main St"; addressSecondLine := None; budget := ofZ 800;
     city := "Springfield"; email := "a@example.org"; firstName := "Ada";
     lastName := "Byron"; phone := "5550100"; state := "CA";
     zipcode := "90210" |}.

Definition payment : PaymentInformation :=
  {| creditCardNumber := "4111111111111111"; expirationMonth := "01";
     expirationYear := "2030"; cvv := "123"; paymentAddress := "1 Main St";
     paymentCity := "Springfield"; paymentFirstName := "Ada";
     paymentLastName := "Byron"; paymentState := "CA";
     paymentZipcode := "90210" |}.

Definition gpu : ProductInformation :=
  {| searchText := None; sku := "6429440"; model := "RTX 3080";
     productName := "RTX 3080"; productPage := "/site/6429440.p" |}.

Definition other : ProductInformation :=
  {| searchText := None; sku := "6429442"; model := "RTX 3070";
     productName := "RTX 3070"; productPage := "/site/6429442.p" |}.

(** Nothing is rejected, every element is there, the SKU is the one of
    [gpu], the total is below the budget, the session is clean. *)
Definition calm : Env :=
  {| rejects := fun _ _ => None;
     element := fun _ _ => true;
     textOf := fun _ selector =>
       if String.eqb selector totalSelector then Some "$699.99"
       else if String.eqb selector ".sku.product-data .product-data-value"
            then Some " 6429440 "
            else None;
     cookiesOf := fun _ => [{| name := "_abck"; value := "0A1B~0~YAAQ" |}];
     randomOf := fun _ => parseFloat "0.5";
     secondFirst := fun _ => false |}.

(** The calm page, but for the calls of [p]: the first [k] of them are
    rejected with [message]. *)
Definition rejecting (p : Call -> bool) (k : nat) (message : string) : Env :=
  {| rejects := fun tr c =>
       if (p c && Nat.ltb (count p tr) k)%bool then Some message else None;
     element := element calm;
     textOf := textOf calm;
     cookiesOf := cookiesOf calm;
     randomOf := randomOf calm;
     secondFirst := secondFirst calm |}.

(** The page [env], with the notification services out of reach. *)
Definition offline (env : Env) : Env :=
  {| rejects := fun tr c =>
       if isNotification c then Some "ECONNRESET" else rejects env tr c;
     element := element env;
     textOf := textOf env;
     cookiesOf := cookiesOf env;
     randomOf := randomOf env;
     secondFirst := secondFirst env |}.

(** The calm page, with this text as the title of the cart page. *)
Definition withCartTitle (title : string) : Env :=
  {| rejects := rejects calm;
     element := element calm;
     textOf := fun tr selector =>
       if String.eqb selector cartTitle then Some title else textOf calm tr selector;
     cookiesOf := cookiesOf calm;
     randomOf := randomOf calm;
     secondFirst := secondFirst calm |}.

(** The calm page, in a session whose sensor cookie has this value. *)
Definition withSensor (v : string) : Env :=
  {| rejects := rejects calm;
     element := element calm;
     textOf := textOf calm;
     cookiesOf := fun _ => [{| name := "bm_sz"; value := "7F2A" |};
                            {| name := "_abck"; value := v |}];
     randomOf := randomOf calm;
     secondFirst := secondFirst calm |}.

(** The calm page, with this text as the displayed order total. *)
Definition withTotal (text : string) : Env :=
  {| rejects := rejects calm;
     element := element calm;
     textOf := fun tr selector =>
       if String.eqb selector totalSelector then Some text else textOf calm tr selector;
     cookiesOf := cookiesOf calm;
     randomOf := randomOf calm;
     secondFirst := secondFirst calm |}.

(** The calm page, [Math.random()] returning [r]. *)
Definition withRandom (r : number) : Env :=
  {| rejects := rejects calm;
     element := element calm;
     textOf := textOf calm;
     cookiesOf := cookiesOf calm;
     randomOf := fun _ => r;
     secondFirst := secondFirst calm |}.

(** The sending of a screenshot by [hook.sendFile]. *)
Definition isUpload (c : Call) : bool :=
  match c with
  | HookSendFile _ => true
  | _ => false
  end.

(** The calm page, with two of the sends rejected: [hook.sendFile], by a
    Discord that finds the file too large, and [client.sendMessage], by a
    Telegram that does not know the token.  In a [Promise.all], Telegram
    answers after [hook.send] and before [hook.sendFile]. *)
Definition unnotified : Env :=
  {| rejects := fun _ c =>
       match c with
       | HookSendFile _ => Some "413 Request Entity Too Large"
       | TelegramSendMessage _ => Some "401 Unauthorized"
       | _ => None
       end;
     element := element calm;
     textOf := textOf calm;
     cookiesOf := cookiesOf calm;
     randomOf := randomOf calm;
     secondFirst := fun tr => Nat.ltb 0 (count isUpload tr) |}.

(** The calm page, with a Telegram that does not know the token, and that
    says so before Discord answers anything. *)
Definition hastyTelegram : Env :=
  {| rejects := fun _ c =>
       match c with
       | TelegramSendMessage _ => Some "401 Unauthorized"
       | _ => None
       end;
     element := element calm;
     textOf := textOf calm;
     cookiesOf := cookiesOf calm;
     randomOf := randomOf calm;
     secondFirst := fun _ => true |}.

(** The calm page, with a Discord that is out of service and the same
    Telegram, which answers first. *)
Definition bothDown : Env :=
  {| rejects := fun _ c =>
       match c with
       | HookSend _ | HookSendFile _ => Some "503 Service Unavailable"
       | TelegramSendMessage _ => Some "401 Unauthorized"
       | _ => None
       end;
     element := element calm;
     textOf := textOf calm;
     cookiesOf := cookiesOf calm;
     randomOf := randomOf calm;
     secondFirst := fun _ => true |}.

Definition start : World := {| trace := []; purchaseJson := false |}.

Definition purchased : World := {| trace := []; purchaseJson := true |}.

End Scenario.


(** The wait for the guest-checkout prompt, after the click on the checkout
    button. *)
Definition isGuestWait (c : Call) : bool :=
  match c with
  | WaitForSelector s => String.eqb s guestButton
  | _ => false
  end.

(** The page on which the guest prompt times out [n] times before it is
    rendered, all else going well. *)
Definition slowPrompt (n : nat) : Env :=
  Scenario.rejecting isGuestWait n "Timeout 10000ms exceeded.".

(* ================================================================== *)
(** * [paths.js]: the path aliases, redirected to the build directory *)

Module Paths.

(** [s.replace(pattern, replacement)] with a string pattern: the first
    occurrence of [pattern] in [s], from the left, is replaced.  The
    replacement is taken as it is written, which is what JavaScript does of
    one without a dollar sign. *)
Fixpoint replace (pattern replacement s : string) : string :=
  if prefix pattern s then
    replacement
    ++ substring (String.length pattern) (String.length s - String.length pattern) s
  else
    match s with
    | String c r => String c (replace pattern replacement r)
    | EmptyString => EmptyString
    end.

(** Whether [key] is an array index: the decimal numeral, written as
    JavaScript writes numbers, of an integer from 0 to 2^32 - 2. *)
Definition arrayIndex (key : string) : option Z :=
  let '(v, n, r) := JsNumber.digits key 0 0%nat in
  if (negb (Nat.eqb n 0%nat) && String.eqb r "" && String.eqb (showZ v) key
      && (v <? 2 ^ 32 - 1))%bool
  then Some v else None.

(** The order of [Object.keys]: the array indices first, in ascending
    order, then the other keys, in the order in which they were created.
    [comesBefore key k] tells whether a new property [key] comes before the
    property [k]. *)
Definition comesBefore (key k : string) : bool :=
  match arrayIndex key, arrayIndex k with
  | Some n, Some m => n <? m
  | Some _, None => true
  | None, _ => false
  end.

(** A JavaScript object whose values are of one type: its own properties,
    in the order of [Object.keys], and the prototype that it was given
    through [__proto__], if it was given one. *)
Record object (V : Type) : Type := {
  properties : list (string * V);
  prototype : option V
}.
Arguments properties {V}.
Arguments prototype {V}.

(** [{}] *)
Definition empty {V} : object V := {| properties := []; prototype := None |}.

Fixpoint getOwn {V} (l : list (string * V)) (key : string) : option V :=
  match l with
  | [] => None
  | (k, v) :: rest => if String.eqb k key then Some v else getOwn rest key
  end.

(** [o[key]] for an own property of [o]; [None] when [o] has no own
    property [key]. *)
Definition lookup {V} (o : object V) (key : string) : option V :=
  getOwn (properties o) key.

(** The own property [key] is given the value [v]: it is changed where it
    is, or created at its place in the order of the keys. *)
Fixpoint define {V} (l : list (string * V)) (key : string) (v : V) : list (string * V) :=
  match l with
  | [] => [(key, v)]
  | (k, x) :: rest =>
      if String.eqb k key then (k, v) :: rest
      else if comesBefore key k then (key, v) :: (k, x) :: rest
      else (k, x) :: define rest key v
  end.

(** [o[key] = v], for a value [v] that is an object, as the arrays of
    [paths.js] are.  On an object without an own property [__proto__], the
    assignment to [__proto__] reaches the setter of [Object.prototype]: it
    makes [v] the prototype of [o] and creates no property. *)
Definition assign {V} (o : object V) (key : string) (v : V) : object V :=
  match String.eqb key "__proto__", lookup o key with
  | true, None => {| properties := properties o; prototype := Some v |}
  | _, _ => {| properties := define (properties o) key v; prototype := prototype o |}
  end.

(** [Object.keys(o)] *)
Definition keys {V} (o : object V) : list string := map fst (properties o).

(** The keys are those of an object, in the order of [Object.keys]: no key
    comes twice, and none comes before a key that precedes it in the
    list. *)
Fixpoint inKeyOrder (ks : list string) : bool :=
  match ks with
  | [] => true
  | k :: rest =>
      (negb (existsb (String.eqb k) rest)
       && forallb (fun k' => negb (comesBefore k' k)) rest
       && inKeyOrder rest)%bool
  end.

(** [(destination) => destination.replace('src', 'dist/src')] *)
Definition redirect (destination : string) : string :=
  replace "src" "dist/src" destination.

(** [keys.forEach((key) => { parsedPaths[key] = paths[key].map(...) })],
    from the keys still to visit and the object built so far; [None] is the
    [TypeError] of a [paths[key]] that has no [map]. *)
Fixpoint forEach (paths : object (list string)) (ks : list string)
    (parsed : object (list string)) : option (object (list string)) :=
  match ks with
  | [] => Some parsed
  | key :: rest =>
      match lookup paths key with
      | Some destinations =>
          forEach paths rest (assign parsed key (map redirect destinations))
      | None => None
      end
  end.

(** The object given to [tsConfigPaths.register] as [paths]. *)
Definition parsedPaths (paths : object (list string)) : option (object (list string)) :=
  forEach paths (keys paths) empty.

(** The aliases that the imports of the sources need. *)
Definition aliases : object (list string) :=
  {| properties :=
       [("@core/*", ["src/core/*"]); ("@pages/*", ["src/pages/*"]);
        ("@driver/*", ["src/driver/*"]); ("@config/*", ["config/*"])];
     prototype := None |}.

(** Is [key] another key than [__proto__]? *)
Definition isOwnable (key : string) : bool := negb (String.eqb key "__proto__").

End Paths.

(* ================================================================== *)
(** * More of what is said about runs *)

(** The event is a call that went well. *)
Definition delivered (e : Event) : bool :=
  match failure e with None => true | Some _ => false end.

(** How many events of [evs] are calls of [p] that went well. *)
Fixpoint countDelivered (p : Call -> bool) (evs : list Event) : nat :=
  match evs with
  | [] => O
  | e :: rest =>
      if (p (call e) && delivered e)%bool
      then S (countDelivered p rest)
      else countDelivered p rest
  end.

(** The orders placed: the clicks on the place-order button that went
    through. *)
Definition ordered (evs : list Event) : nat := countDelivered isOrderClick evs.

Definition isContextOpen (c : Call) : bool :=
  match c with NewContext => true | _ => false end.

Definition isContextClose (c : Call) : bool :=
  match c with ContextClose => true | _ => false end.

(** The browser contexts that [evs] opened and did not close. *)
Definition live (evs : list Event) : Z :=
  Z.of_nat (countDelivered isContextOpen evs)
  - Z.of_nat (countDelivered isContextClose evs).

Definition isNone {A} (o : option A) : bool :=
  match o with None => true | Some _ => false end.

(** How a run may leave the browser contexts, [n] of them being open at its
    start: as many when it returns or throws, one more at most when the
    process is ended or the run is not over. *)
Definition Balanced {A} (n : Z) (r : Outcome A * World) : Prop :=
  match fst r with
  | Ok _ | Throw _ => live (trace (snd r)) = n
  | _ => n <= live (trace (snd r)) <= n + 1
  end.

(** [I] holds after [m] when it held before, on every outside in [E]. *)
Definition Keeps (E : Env -> Prop) (I : World -> Prop) {A} (m : M A) : Prop :=
  forall env w, E env -> I w -> I (snd (m env w)).

(** The calls of the purchase flow on the page, the notification clients,
    the timers, the logger and [Math.random]: all the calls of
    [purchaseProduct] and of the poll loop but those on the marker file and
    the click that places the order; and the sends left for later. *)
Definition isFlowCall (c : Call) : bool :=
  match c with
  | Goto _ | WaitForSelector _ | Query _ | EvalTextContent _ | TextContent _
  | Focus _ | TypeText _ _ | Press _ _ | SelectOption _ _ | Check _ | Uncheck _
  | Screenshot _ | WaitForResponse _ | WaitForFunction _ | Cookies
  | HookSend _ | HookSendFile _ | TelegramSendMessage _ | Wait _ | Log _ _
  | MathRandom => true
  | Click s => negb (String.eqb s placeOrderButton)
  | Later (HookSend _ | HookSendFile _ | TelegramSendMessage _) => true
  | _ => false
  end.

(** The outside never rejects the writing of the marker file. *)
Definition MarkerWritable (env : Env) : Prop :=
  forall tr, rejects env tr (WriteFileSync purchaseFile "{}") = None.

(** At most one order was placed, and the marker file is there if one was. *)
Definition OrderedOnce (w : World) : Prop :=
  (ordered (trace w) <= 1)%nat /\ (ordered (trace w) = 1%nat -> purchaseJson w = true).

(** The outside rejects neither the opening of a page in a context nor the
    closing of a page or of a context. *)
Definition SessionGoesWell (env : Env) : Prop :=
  forall tr,
    rejects env tr NewPage = None /\
    rejects env tr PageClose = None /\
    rejects env tr ContextClose = None.

(** When [m] ends the process, it is with status 2 and the marker file is
    there. *)
Definition ExitsMarked {A} (m : M A) : Prop :=
  forall env w c,
    fst (m env w) = Exit c -> c = 2 /\ purchaseJson (snd (m env w)) = true.

(** When [m] returns [a], [Q a] holds of the world it leaves. *)
Definition Returns {A} (Q : A -> World -> Prop) (m : M A) : Prop :=
  forall env w a, fst (m env w) = Ok a -> Q a (snd (m env w)).

(** [m] never throws. *)
Definition NeverThrows {A} (m : M A) : Prop :=
  forall env w e, fst (m env w) <> Throw e.

(** Every call of [target] in [evs] comes after a call of [mark] that went
    well, [seen] telling whether there was one before [evs]. *)
Fixpoint precededBy (mark target : Call -> bool) (seen : bool)
    (evs : list Event) : bool :=
  match evs with
  | [] => true
  | e :: rest =>
      ((if target (call e) then seen else true)
       && precededBy mark target (seen || (mark (call e) && delivered e)) rest)%bool
  end.

(** When [m] returns, one of its calls was a call of [mark] that went
    well. *)
Definition Delivers (mark : Call -> bool) {A} (m : M A) : Prop :=
  forall env w a w',
    m env w = (Ok a, w') ->
    exists evs,
      trace w' = (trace w ++ evs)%list /\ (0 < countDelivered mark evs)%nat.

(** In every run of [m], a call of [target] comes after a call of [mark]
    that went well. *)
Definition Announced (mark target : Call -> bool) {A} (m : M A) : Prop :=
  forall env w seen, exists evs,
    trace (snd (m env w)) = (trace w ++ evs)%list /\
    precededBy mark target seen evs = true.

(** The two sends that tell that [product] is in stock: the screenshot sent
    after the text on Discord, and the text on Telegram. *)
Definition isInStockUpload (c : Call) : bool :=
  match c with
  | HookSendFile image => String.eqb image "product-in-stock"
  | _ => false
  end.

Definition isInStockTelegram (product : ProductInformation) (c : Call) : bool :=
  match c with
  | TelegramSendMessage message => String.eqb message (inStockMessage product)
  | _ => false
  end.

(** The typing of the zip code in the cart. *)
Definition isZipEntry (c : Call) : bool :=
  match c with
  | TypeText selector _ => String.eqb selector zipInput
  | _ => false
  end.

(** The sentences of the notifications, and the names of the screenshots
    sent with them. *)
Definition fixedTexts : list string :=
  [botMessage; "Attempting checkout"; retryNotification; "Placing order...";
   "Order placed!"; "Shutting down in 1 minute"].

Definition sentScreenshots : list string :=
  ["product-in-stock"; "product-added"; "starting-checkout"; "placing-order";
   "order-placed-1"].

(** The text is one of the fixed sentences, or one of the two sentences
    about a product of the list. *)
Definition isAnnouncement (products : list ProductInformation) (message : string) : bool :=
  (existsb (String.eqb message) fixedTexts
   || existsb (fun product =>
                 String.eqb message (inStockMessage product)
                 || String.eqb message (addedMessage product)) products)%bool.

(** A send of something else, made or left for later. *)
Fixpoint isOtherSend (products : list ProductInformation) (c : Call) : bool :=
  match c with
  | HookSend message | TelegramSendMessage message =>
      negb (isAnnouncement products message)
  | HookSendFile image => negb (existsb (String.eqb image) sentScreenshots)
  | Later c' => isOtherSend products c'
  | _ => false
  end.

(** ** White space around a text *)

Fixpoint allWhite (s : string) : bool :=
  match s with
  | String c r => (JsString.isWhiteSpace c && allWhite r)%bool
  | EmptyString => true
  end.

Definition startsWhite (s : string) : bool :=
  match s with
  | String c _ => JsString.isWhiteSpace c
  | EmptyString => false
  end.

Definition endsWhite (s : string) : bool := startsWhite (JsString.rev s).

(** The page on which every element is there and nothing is rejected but
    the writing of the marker file, the first time. *)
Definition readOnlyDisk : Env :=
  Scenario.rejecting isGuardWrite 1 "EROFS: read-only file system, open 'purchase.json'".

(** The calm page, but for the opening of a page in the context, which is
    rejected. *)
Definition noPage : Env :=
  {| rejects := fun _ c => match c with NewPage => Some "Target closed" | _ => None end;
     element := element Scenario.calm;
     textOf := textOf Scenario.calm;
     cookiesOf := cookiesOf Scenario.calm;
     randomOf := randomOf Scenario.calm;
     secondFirst := secondFirst Scenario.calm |}.

(** The calm page, the store out of reach. *)
Definition unreachable : Env :=
  {| rejects := fun _ c =>
       match c with Goto _ => Some "net::ERR_CONNECTION_REFUSED" | _ => None end;
     element := element Scenario.calm;
     textOf := textOf Scenario.calm;
     cookiesOf := cookiesOf Scenario.calm;
     randomOf := randomOf Scenario.calm;
     secondFirst := secondFirst Scenario.calm |}.

(** The calm page, on a machine where the browser cannot be launched. *)
Definition noBrowser : Env :=
  {| rejects := fun _ c =>
       match c with FirefoxLaunch => Some "Executable doesn't exist" | _ => None end;
     element := element Scenario.calm;
     textOf := textOf Scenario.calm;
     cookiesOf := cookiesOf Scenario.calm;
     randomOf := randomOf Scenario.calm;
     secondFirst := secondFirst Scenario.calm |}.

(** The calm page, the add-to-cart button of which is disabled. *)
Definition soldOut : Env :=
  {| rejects := rejects Scenario.calm;
     element := fun _ selector => negb (String.eqb selector addToCartButton);
     textOf := textOf Scenario.calm;
     cookiesOf := cookiesOf Scenario.calm;
     randomOf := randomOf Scenario.calm;
     secondFirst := secondFirst Scenario.calm |}.

(** The calls of a round of the poll loop that finds nothing to buy: the
    visit of the store page, the draw of the waiting time, its log line and
    the wait. *)
Definition isPollCall (c : Call) : bool :=
  match c with
  | Goto url => String.eqb url "https://bestbuy.com"
  | MathRandom | Log Warn _ | Wait _ => true
  | _ => false
  end.

Definition isOtherThanPoll (c : Call) : bool := negb (isPollCall c).

(** A navigation to somewhere else than the store page, the cart and the
    pages of the products of the list. *)
Definition isOtherVisit (products : list ProductInformation) (c : Call) : bool :=
  match c with
  | Goto url =>
      negb (String.eqb url "https://bestbuy.com"
            || String.eqb url cartUrl
            || existsb (fun product =>
                          String.eqb url (bestBuyUrl ++ productPage product))
                 products)
  | _ => false
  end.

(** The click on the guest-checkout button. *)
Definition isGuestClick (c : Call) : bool :=
  match c with
  | Click s => String.eqb s guestButton
  | _ => false
  end.

(** No call at all: [Counts noCall 0 m] says that [m] only adds events to
    the trace. *)
Definition noCall (c : Call) : bool := false.

(** The calm page, without a title on the cart page. *)
Definition untitled : Env :=
  {| rejects := rejects Scenario.calm;
     element := fun _ selector => negb (String.eqb selector cartTitle);
     textOf := textOf Scenario.calm;
     cookiesOf := cookiesOf Scenario.calm;
     randomOf := randomOf Scenario.calm;
     secondFirst := secondFirst Scenario.calm |}.

(** The launch of the browser by [createBrowser], and its closing. *)
Definition isLaunch (c : Call) : bool :=
  match c with FirefoxLaunch => true | _ => false end.

Definition isBrowserClose (c : Call) : bool :=
  match c with BrowserClose => true | _ => false end.

(** The calls that the callback of [pm2.connect] leaves to its loop: all but
    those on pm2 and on the browser itself. *)
Definition isLoopCall (c : Call) : bool :=
  match c with
  | FirefoxLaunch | BrowserClose | Pm2Connect | Pm2Delete _ => false
  | _ => true
  end.

(** The two calls on the second line of the address: the click that shows
    its field, and the typing in it. *)
Definition isSecondLineCall (c : Call) : bool :=
  match c with
  | Click s => String.eqb s ".address-form__showAddress2Link"
  | TypeText s _ => String.eqb s (shippingField "street2")
  | _ => false
  end.

(** The typing of [line] in the field of the second line. *)
Definition isSecondLineEntry (line : string) (c : Call) : bool :=
  match c with
  | TypeText s text => (String.eqb s (shippingField "street2") && String.eqb text line)%bool
  | _ => false
  end.

(** The response of the store to the add-to-cart request, and the sends
    that tell that [product] was added to the cart. *)
Definition isAddResponse (c : Call) : bool :=
  match c with
  | WaitForResponse url => String.eqb url "https://www.bestbuy.com/cart/api/v1/addToCart"
  | _ => false
  end.

Definition isAddedSend (product : ProductInformation) (c : Call) : bool :=
  match c with
  | HookSend message | TelegramSendMessage message =>
      String.eqb message (addedMessage product)
  | HookSendFile image => String.eqb image "product-added"
  | _ => false
  end.

(** The customer of [Scenario], in an apartment. *)
Definition apartment : CustomerInformation :=
  {| address := "1 Main St"; addressSecondLine := Some "Apt 4"; budget := ofZ 800;
     city := "Springfield"; email := "a@example.org"; firstName := "Ada";
     lastName := "Byron"; phone := "5550100"; state := "CA";
     zipcode := "90210" |}.

(* ================================================================== *)
(** * Verification *)

(** ** [parseFloat] *)

(** [parseFloat] on a few texts, against the values of a JavaScript engine. *)
Example parseFloat_tenth :
  parseFloat "0.1" = S754_finite false 7205759403792794 (-56).
Proof. vm_compute. reflexivity. Qed.

Example parseFloat_stops_at_comma : parseFloat "  1,299.99" = ofZ 1.
Proof. vm_compute. reflexivity. Qed.

Example parseFloat_price :
  parseFloat "1299.99" = S754_finite false 5717416483970089 (-42).
Proof. vm_compute. reflexivity. Qed.

Example parseFloat_negative : parseFloat "-5.00" = SFopp (ofZ 5).
Proof. vm_compute. reflexivity. Qed.

Example parseFloat_no_number : parseFloat "Total" = NaN.
Proof. vm_compute. reflexivity. Qed.

Example parseFloat_exponent : parseFloat "1e3x" = ofZ 1000.
Proof. vm_compute. reflexivity. Qed.

Example parseFloat_ties_to_even :
  parseFloat "9007199254740993" = S754_finite false 4503599627370496 1.
Proof. vm_compute. reflexivity. Qed.

Example parseFloat_smallest :
  parseFloat "4.9406564584124654e-324" = S754_finite false 1 (-1074).
Proof. vm_compute. reflexivity. Qed.


(** ** How [bind] runs *)

Lemma bind_ok {A B} (m : M A) (k : A -> M B) env w a w' :
  m env w = (Ok a, w') -> bind m k env w = k a env w'.
Proof. unfold bind. intros ->. reflexivity. Qed.

Lemma bind_throw {A B} (m : M A) (k : A -> M B) env w e w' :
  m env w = (Throw e, w') -> bind m k env w = (Throw e, w').
Proof. unfold bind. intros ->. reflexivity. Qed.

Lemma bind_exit {A B} (m : M A) (k : A -> M B) env w c w' :
  m env w = (Exit c, w') -> bind m k env w = (Exit c, w').
Proof. unfold bind. intros ->. reflexivity. Qed.

Lemma bind_diverge {A B} (m : M A) (k : A -> M B) env w w' :
  m env w = (Diverge, w') -> bind m k env w = (Diverge, w').
Proof. unfold bind. intros ->. reflexivity. Qed.

Lemma bind_assoc {A B C} (m : M A) (k : A -> M B) (h : B -> M C) env w :
  bind (bind m k) h env w = bind m (fun a => bind (k a) h) env w.
Proof.
  unfold bind. destruct (m env w) as [[a | e | c | ] w']; reflexivity.
Qed.

Lemma bind_ext {A B} (m : M A) (k k' : A -> M B) env w :
  (forall a w', k a env w' = k' a env w') -> bind m k env w = bind m k' env w.
Proof.
  intros H. unfold bind. destruct (m env w) as [[a | e | c | ] w']; auto.
Qed.

(** ** What a [Promise.all] adds to the history *)

Lemma extends_weaken (P Q : Call -> Prop) w w' :
  (forall c, P c -> Q c) -> Extends P w w' -> Extends Q w w'.
Proof.
  intros HPQ H. induction H as [| w' c f H IH Hc]; [constructor|].
  constructor; [exact IH | apply HPQ, Hc].
Qed.

Lemma extends_trans P w1 w2 w3 :
  Extends P w1 w2 -> Extends P w2 w3 -> Extends P w1 w3.
Proof.
  intros H12 H23. induction H23 as [| w3 c f H IH Hc]; [exact H12|].
  constructor; assumption.
Qed.

Lemma extends_trace P w w' :
  Extends P w w' ->
  exists evs,
    w' = {| trace := trace w ++ evs; purchaseJson := purchaseJson w |} /\
    Forall (fun e => P (call e)) evs.
Proof.
  intros H. induction H as [| w' c f H (evs & -> & Hall) Hc].
  - exists []. rewrite app_nil_r. destruct w; split; [reflexivity | constructor].
  - exists (evs ++ [{| call := c; failure := f |}])%list. unfold record.
    cbn [trace purchaseJson]. rewrite app_assoc. split; [reflexivity|].
    apply Forall_app. split; [exact Hall | repeat constructor; exact Hc].
Qed.

(** What every added event keeps is kept. *)
Lemma extends_keeps (P : Call -> Prop) (I : World -> Prop) w w' :
  (forall c, P c -> forall w1 f, I w1 -> I (record c f w1)) ->
  Extends P w w' -> I w -> I w'.
Proof.
  intros HP H Hw. induction H as [| w' c f H IH Hc]; [exact Hw|].
  apply HP; [exact Hc | exact IH].
Qed.

Lemma extends_perform P c env w : P c -> Extends P w (snd (perform c env w)).
Proof.
  intros Hc. unfold perform.
  destruct (rejects env (trace w) c); cbn [snd]; repeat constructor; exact Hc.
Qed.

Lemma await_extends calls : forall env w,
  Extends (fun c => In c calls) w (snd (await calls env w)).
Proof.
  induction calls as [| c rest IH]; intros env w; cbn [await]; [constructor|].
  unfold bind. pose proof (extends_perform (fun x => In x (c :: rest)) c env w
                             (or_introl eq_refl)) as Hc.
  destruct (perform c env w) as [[[] | e | x | ] w1]; cbn [snd] in *; try exact Hc.
  eapply extends_trans; [exact Hc|].
  eapply extends_weaken; [|apply IH]. intros x Hx. right. exact Hx.
Qed.

Lemma resume_extends rest : forall answer env w,
  Extends (fun c => In c rest) w (snd (resume answer rest env w)).
Proof.
  induction rest as [| c rest IH]; intros answer env w; cbn [resume].
  - destruct answer; constructor.
  - destruct answer; [constructor|].
    eapply extends_trans;
      [ apply (Extends_record _ w w c (rejects env (trace w) c));
        [constructor | left; reflexivity]
      | eapply extends_weaken; [|apply IH]; intros x Hx; right; exact Hx ].
Qed.

Lemma postpone_extends rest : forall w,
  Extends (fun c => In c (map Later rest)) w (postpone rest w).
Proof.
  induction rest as [| c rest IH]; intros w; cbn [postpone]; [constructor|].
  eapply extends_trans;
    [ apply (Extends_record _ w w (Later c) None); [constructor | left; reflexivity]
    | eapply extends_weaken; [|apply IH]; intros x Hx; right; exact Hx ].
Qed.

Lemma abandon_extends answer rest w :
  Extends (fun c => In c (map Later rest)) w (abandon answer rest w).
Proof. destruct answer; [constructor | apply postpone_extends]. Qed.

Lemma in_promised a b c :
  In c (promised a b) <->
  In c a \/ In c b \/ In c (map Later a) \/ In c (map Later b).
Proof.
  unfold promised. rewrite map_app, !in_app_iff. tauto.
Qed.

(** How [race] runs: one answer at a time. *)
Lemma race_eq fa ra fb rb env w :
  race fa ra fb rb env w =
    if secondFirst env (trace w) then
      match fb with
      | Some e => (Throw e, abandon fa ra w)
      | None =>
          match rb with
          | [] => resume fa ra env w
          | c :: rb' =>
              let f := rejects env (trace w) c in
              race fa ra f rb' env (record c f w)
          end
      end
    else
      match fa with
      | Some e => (Throw e, abandon fb rb w)
      | None =>
          match ra with
          | [] => resume fb rb env w
          | c :: ra' =>
              let f := rejects env (trace w) c in
              race f ra' fb rb env (record c f w)
          end
      end.
Proof. destruct ra, rb; reflexivity. Qed.

Lemma race_extends ra : forall rb fa fb env w,
  Extends (fun c => In c (promised ra rb)) w (snd (race fa ra fb rb env w)).
Proof.
  induction ra as [| ca ra IHa]; induction rb as [| cb rb IHb]; intros fa fb env w;
    rewrite race_eq; destruct (secondFirst env (trace w)), fa, fb; cbn [snd];
    try solve
      [ constructor
      | eapply extends_weaken; [|apply abandon_extends];
        intros x Hx; apply in_promised; tauto
      | eapply extends_weaken; [|apply resume_extends];
        intros x Hx; apply in_promised; tauto
      | eapply extends_trans;
          [ apply (Extends_record _ w w cb (rejects env (trace w) cb));
            [constructor | apply in_promised; cbn; tauto]
          | eapply extends_weaken; [|apply IHb];
            intros x Hx; apply in_promised; apply in_promised in Hx; cbn in *; tauto ]
      | eapply extends_trans;
          [ apply (Extends_record _ w w ca (rejects env (trace w) ca));
            [constructor | apply in_promised; cbn; tauto]
          | eapply extends_weaken; [|apply IHa];
            intros x Hx; apply in_promised; apply in_promised in Hx; cbn in *; tauto ] ].
Qed.

(** A [Promise.all] only adds the calls of its two functions. *)
Lemma promiseAll2_extends a b env w :
  Extends (fun c => In c (promised a b)) w (snd (promiseAll2 a b env w)).
Proof.
  assert (Hseq : Extends (fun c => In c (promised a b)) w
                   (snd (bind (await a) (fun _ => await b) env w))).
  { unfold bind. pose proof (await_extends a env w) as Ha.
    destruct (await a env w) as [[[] | e | x | ] w1]; cbn [snd] in *;
      try (eapply extends_weaken; [|exact Ha]; intros y Hy; apply in_promised; tauto).
    eapply extends_trans.
    - eapply extends_weaken; [|exact Ha]. intros y Hy. apply in_promised. tauto.
    - eapply extends_weaken; [|apply await_extends].
      intros y Hy. apply in_promised. tauto. }
  destruct a as [| ca ra]; [exact Hseq|]. destruct b as [| cb rb]; [exact Hseq|].
  cbn [promiseAll2].
  eapply extends_trans.
  - apply Extends_record with (c := cb);
      [ apply Extends_record with (c := ca); [constructor | apply in_promised; cbn; tauto]
      | apply in_promised; cbn; tauto ].
  - eapply extends_weaken; [|apply race_extends].
    intros x Hx. apply in_promised. apply in_promised in Hx. cbn. tauto.
Qed.

(** What [Promise.all] adds to the trace, and what else it leaves as it
    was. *)
Lemma promiseAll2_trace a b env w :
  exists evs,
    snd (promiseAll2 a b env w)
      = {| trace := trace w ++ evs; purchaseJson := purchaseJson w |} /\
    Forall (fun e => In (call e) (promised a b)) evs.
Proof.
  exact (extends_trace (fun c => In c (promised a b)) _ _
           (promiseAll2_extends a b env w)).
Qed.

Lemma resume_settles rest : forall answer env w,
  fst (resume answer rest env w) = Ok tt \/
  exists e, fst (resume answer rest env w) = Throw e.
Proof.
  induction rest as [| c rest IH]; intros answer env w; cbn [resume];
    destruct answer; cbn [fst]; eauto.
Qed.

Lemma await_settles calls : forall env w,
  fst (await calls env w) = Ok tt \/ exists e, fst (await calls env w) = Throw e.
Proof.
  induction calls as [| c rest IH]; intros env w; cbn [await]; [left; reflexivity|].
  unfold bind, perform. destruct (rejects env (trace w) c); cbn [fst]; eauto.
Qed.

Lemma race_settles ra : forall rb fa fb env w,
  fst (race fa ra fb rb env w) = Ok tt \/
  exists e, fst (race fa ra fb rb env w) = Throw e.
Proof.
  induction ra as [| ca ra IHa]; induction rb as [| cb rb IHb]; intros fa fb env w;
    rewrite race_eq; destruct (secondFirst env (trace w)), fa, fb; cbn [fst];
    eauto using resume_settles.
Qed.

(** A [Promise.all] is fulfilled or rejected: it neither ends the process
    nor runs for ever. *)
Lemma promiseAll2_settles a b env w :
  fst (promiseAll2 a b env w) = Ok tt \/
  exists e, fst (promiseAll2 a b env w) = Throw e.
Proof.
  assert (Hseq : fst (bind (await a) (fun _ => await b) env w) = Ok tt \/
                 exists e, fst (bind (await a) (fun _ => await b) env w) = Throw e).
  { unfold bind. destruct (await_settles a env w) as [Ha | [e Ha]];
      destruct (await a env w) as [[[] | e' | x | ] w1]; cbn [fst] in *;
      try discriminate; eauto using await_settles. }
  destruct a as [| ca ra]; [exact Hseq|]. destruct b as [| cb rb]; [exact Hseq|].
  apply race_settles.
Qed.

(** ** Counting calls *)

Lemma count_app p (a b : list Event) : count p (a ++ b)%list = (count p a + count p b)%nat.
Proof.
  induction a as [| e a IH]; simpl; [reflexivity|].
  destruct (p (call e)); rewrite IH; reflexivity.
Qed.

Section CountsRules.

Variable p : Call -> bool.

Lemma counts_weaken {A} (m : M A) n n' :
  (n <= n')%nat -> Counts p n m -> Counts p n' m.
Proof.
  intros Hle H env w. destruct (H env w) as (evs & Ht & Hc).
  exists evs. split; [exact Ht | lia].
Qed.

Lemma counts_ret {A} (a : A) : Counts p 0 (ret a).
Proof. intros env w. exists []. simpl. rewrite app_nil_r. auto. Qed.

Lemma counts_throw {A} e : Counts p 0 (@throw A e).
Proof. intros env w. exists []. simpl. rewrite app_nil_r. auto. Qed.

Lemma counts_diverge {A} : Counts p 0 (@diverge A).
Proof. intros env w. exists []. simpl. rewrite app_nil_r. auto. Qed.

Lemma counts_bind {A B} n1 n2 (m : M A) (k : A -> M B) :
  Counts p n1 m -> (forall a, Counts p n2 (k a)) -> Counts p (n1 + n2) (bind m k).
Proof.
  intros Hm Hk env w. destruct (Hm env w) as (evs1 & Ht1 & Hc1).
  unfold bind. destruct (m env w) as [[a | e | c | ] w1]; simpl in *.
  - destruct (Hk a env w1) as (evs2 & Ht2 & Hc2).
    exists (evs1 ++ evs2)%list. rewrite Ht2, Ht1, app_assoc, count_app.
    split; [reflexivity | lia].
  - exists evs1. split; [exact Ht1 | lia].
  - exists evs1. split; [exact Ht1 | lia].
  - exists evs1. split; [exact Ht1 | lia].
Qed.

Lemma counts_tryCatch {A} n1 n2 (body : M A) (handler : string -> M A) :
  Counts p n1 body -> (forall e, Counts p n2 (handler e)) ->
  Counts p (n1 + n2) (tryCatch body handler).
Proof.
  intros Hm Hk env w. destruct (Hm env w) as (evs1 & Ht1 & Hc1).
  unfold tryCatch. destruct (body env w) as [[a | e | c | ] w1]; simpl in *.
  - exists evs1. split; [exact Ht1 | lia].
  - destruct (Hk e env w1) as (evs2 & Ht2 & Hc2).
    exists (evs1 ++ evs2)%list. rewrite Ht2, Ht1, app_assoc, count_app.
    split; [reflexivity | lia].
  - exists evs1. split; [exact Ht1 | lia].
  - exists evs1. split; [exact Ht1 | lia].
Qed.

Lemma count_forall (evs : list Event) :
  Forall (fun e => p (call e) = false) evs -> count p evs = O.
Proof.
  induction 1 as [| e evs He Hall IH]; simpl; [reflexivity|]. rewrite He. exact IH.
Qed.

Lemma counts_extends {A} (P : Call -> Prop) (m : M A) :
  (forall env w, Extends P w (snd (m env w))) ->
  (forall c, P c -> p c = false) -> Counts p 0 m.
Proof.
  intros Hm HP env w. destruct (extends_trace _ _ _ (Hm env w)) as (evs & Hw & Hall).
  exists evs. rewrite Hw. split; [reflexivity|].
  rewrite count_forall; [lia|].
  eapply Forall_impl; [|exact Hall]. intros e He. apply HP, He.
Qed.

Lemma counts_promiseAll2 (a b : list Call) :
  Forall (fun c => p c = false) (promised a b) -> Counts p 0 (promiseAll2 a b).
Proof.
  intros Hall. apply (counts_extends (fun c => In c (promised a b))).
  - intros env w. apply promiseAll2_extends.
  - intros c Hc. rewrite Forall_forall in Hall. apply Hall, Hc.
Qed.

Lemma counts_single {A} c (m : M A) :
  Single c m -> p c = false -> Counts p 0 m.
Proof.
  intros H Hp env w. destruct (H env w) as (f & Ht).
  exists [{| call := c; failure := f |}]. split; [exact Ht|].
  simpl. rewrite Hp. lia.
Qed.

End CountsRules.

(** The primitives make one call each. *)

Lemma records_perform c : Records c (perform c).
Proof.
  intros env w. unfold perform. destruct (rejects env (trace w) c); eexists; reflexivity.
Qed.

Lemma records_quiet c : Records c (quiet c).
Proof. intros env w. eexists; reflexivity. Qed.

Lemma records_query s : Records (Query s) (query s).
Proof.
  intros env w. unfold query. destruct (rejects env (trace w) _); eexists; reflexivity.
Qed.

Lemma records_textContent s : Records (TextContent s) (textContent s).
Proof.
  intros env w. unfold textContent. destruct (rejects env (trace w) _); eexists; reflexivity.
Qed.

Lemma records_evalTextContent s : Records (EvalTextContent s) (evalTextContent s).
Proof.
  intros env w. unfold evalTextContent.
  destruct (rejects env (trace w) _); eexists; reflexivity.
Qed.

Lemma records_contextCookies : Records Cookies contextCookies.
Proof.
  intros env w. unfold contextCookies.
  destruct (rejects env (trace w) _); eexists; reflexivity.
Qed.

Lemma records_mathRandom : Records MathRandom mathRandom.
Proof. intros env w. eexists; reflexivity. Qed.

Lemma records_existsSync : Records (ExistsSync purchaseFile) existsSync.
Proof. intros env w. eexists; reflexivity. Qed.

Lemma records_processExit {A} c : Records (ProcessExit c) (@processExit A c).
Proof. intros env w. eexists; reflexivity. Qed.

Lemma records_single {A} c (m : M A) : Records c m -> Single c m.
Proof.
  intros H env w. destruct (H env w) as (f & ->). exists f. reflexivity.
Qed.

Lemma single_writeFileSync : Single (WriteFileSync purchaseFile "{}") writeFileSync.
Proof.
  intros env w. unfold writeFileSync. destruct (rejects env (trace w) _); eexists; reflexivity.
Qed.

(** A property of each call of a list that is given: [side] is run on each. *)
Ltac each_call side :=
  lazymatch goal with
  | |- Forall _ [] => apply Forall_nil
  | |- Forall _ (_ :: _) => apply Forall_cons; [ side | each_call side ]
  end.

(** The calls that a [Promise.all] of two sends may add. *)
Ltac promised_calls side :=
  cbn [promised sendDiscordMessage sendTelegramMessage JsString.truthy app map];
  each_call side.

(** One step of the walk through a computation that makes no call of [p]:
    the side conditions [p c = false] are left to computation. *)
Ltac counts_prim :=
  first
    [ apply counts_ret
    | apply counts_throw
    | apply counts_diverge
    | eapply counts_single; [apply records_single, records_perform | ]
    | eapply counts_single; [apply records_single, records_quiet | ]
    | eapply counts_single; [apply records_single, records_query | ]
    | eapply counts_single; [apply records_single, records_textContent | ]
    | eapply counts_single; [apply records_single, records_evalTextContent | ]
    | eapply counts_single; [apply records_single, records_contextCookies | ]
    | eapply counts_single; [apply records_single, records_mathRandom | ]
    | eapply counts_single; [apply records_single, records_existsSync | ]
    | eapply counts_single; [apply single_writeFileSync | ]
    | eapply counts_single; [apply records_single, records_processExit | ] ].

Ltac counts_step :=
  match goal with
  | |- Counts _ 0 (bind _ _) => apply (counts_bind _ 0 0); [ | intros ]
  | |- Counts _ 0 (tryCatch _ _) => apply (counts_tryCatch _ 0 0); [ | intros ]
  | |- Counts _ 0 (promiseAll2 _ _) =>
      apply counts_promiseAll2; promised_calls ltac:(try reflexivity)
  | |- Counts _ 0 (await _) => cbn [await sendDiscordMessage sendTelegramMessage]
  | |- Counts _ 0 (if ?b then _ else _) => destruct b
  | |- Counts _ 0 (match ?x with _ => _ end) => destruct x
  | |- Counts _ 0 (wait _) => unfold wait
  | |- Counts _ 0 (logger _ _) => unfold logger
  | |- Counts _ 0 _ => counts_prim; try reflexivity
  | |- Counts _ 0 _ => solve [auto]
  end.

Ltac counts_walk := repeat counts_step.

Lemma counts_bind_l p {A B} n (m : M A) (k : A -> M B) :
  Counts p 0 m -> (forall a, Counts p n (k a)) -> Counts p n (bind m k).
Proof. intros Hm Hk. apply (counts_bind p 0 n); assumption. Qed.

Lemma counts_bind_r p {A B} n (m : M A) (k : A -> M B) :
  Counts p n m -> (forall a, Counts p 0 (k a)) -> Counts p n (bind m k).
Proof.
  intros Hm Hk. apply (counts_weaken p _ (n + 0)); [lia|].
  apply counts_bind; assumption.
Qed.

Lemma notBefore_app mark target (a b : list Event) :
  count target a = O -> notBefore mark target b = true ->
  notBefore mark target (a ++ b)%list = true.
Proof.
  induction a as [| e a IH]; simpl; intros Hc Hb; [exact Hb|].
  destruct (mark (call e)); [reflexivity|].
  destruct (target (call e)); [discriminate|]. apply IH; assumption.
Qed.

Lemma notBefore_none mark target (a : list Event) :
  count target a = O -> notBefore mark target a = true.
Proof.
  intros H. rewrite <- (app_nil_r a). apply notBefore_app; [exact H | reflexivity].
Qed.

(* ================================================================== *)
(** ** The total validation of [submitGuestOrder] *)

Section Comparisons.

Lemma gt_irrefl_of_lt (x y : number) : lt y x = true -> strictEq x y = false.
Proof.
  unfold lt, strictEq, SFltb, SFeqb.
  destruct x as [sx | sx | | sx mx ex], y as [sy | sy | | sy my ey];
    simpl; try discriminate; try reflexivity;
    repeat match goal with
      | b : bool |- _ => destruct b
      end; simpl; try discriminate; try reflexivity.
  - destruct (Z.compare ey ex) eqn:E; try discriminate.
    + apply Z.compare_eq in E; subst. rewrite Z.compare_refl.
      intros H. rewrite Pos.compare_cont_spec in *. simpl in *.
      destruct (Pos.compare my mx) eqn:F; try discriminate.
      rewrite (Pos.compare_antisym my mx), F. reflexivity.
    + rewrite (Z.compare_antisym ey ex), E. reflexivity.
  - destruct (Z.compare ey ex) eqn:E; try discriminate.
    + apply Z.compare_eq in E; subst. rewrite Z.compare_refl.
      intros H. rewrite Pos.compare_cont_spec in *. simpl in *.
      destruct (Pos.compare my mx) eqn:F; try discriminate.
      rewrite (Pos.compare_antisym my mx), F. reflexivity.
    + rewrite (Z.compare_antisym ey ex), E. reflexivity.
Qed.

Lemma positive_not_zero (t : number) : lt zero t = true -> strictEq t zero = false.
Proof. apply gt_irrefl_of_lt. Qed.

Lemma le_not_gt (t b : number) : le t b = true -> gt t b = false.
Proof.
  unfold le, gt, SFleb. destruct (SFcompare t b) as [[ | | ] | ];
    intros; try discriminate; reflexivity.
Qed.

Lemma nan_passes (t b : number) : isNaN t = true -> totalRejected t b = false.
Proof. destruct t; try discriminate. reflexivity. Qed.

Lemma negative_lt_nonnegative (t b : number) :
  lt t zero = true -> le zero b = true -> gt t b = false.
Proof.
  unfold lt, le, gt, SFltb, SFleb, zero.
  destruct t as [st | st | | st mt et], b as [sb | sb | | sb mb eb];
    simpl; try discriminate; try reflexivity;
    repeat match goal with
      | b : bool |- _ => destruct b
      end; simpl; try discriminate; try reflexivity.
Qed.

Lemma negative_not_zero (t : number) : lt t zero = true -> strictEq t zero = false.
Proof.
  unfold lt, strictEq, SFltb, SFeqb, zero.
  destruct t as [st | st | | st mt et]; simpl; try discriminate;
    destruct st; simpl; try discriminate; reflexivity.
Qed.

Lemma totalRejected_iff (t b : number) :
  totalRejected t b = true <-> strictEq t zero = true \/ gt t b = true.
Proof. unfold totalRejected. apply orb_true_iff. Qed.

End Comparisons.

Lemma validateTotal_rejects customerInformation total env w :
  totalRejected total (budget customerInformation) = true ->
  validateTotal customerInformation total env w = (Throw totalMessage, w).
Proof. unfold validateTotal. intros ->. reflexivity. Qed.

Lemma validateTotal_accepts customerInformation total env w :
  totalRejected total (budget customerInformation) = false ->
  validateTotal customerInformation total env w = (Ok tt, w).
Proof. unfold validateTotal. intros ->. reflexivity. Qed.

Lemma submitGuestOrder_at_total
    customerInformation paymentInformation autoCheckout env w w1 w2 found total :
  completeOrderInformation customerInformation paymentInformation env w = (Ok tt, w1) ->
  readTotal env w1 = (Ok (found, total), w2) ->
  submitGuestOrder customerInformation paymentInformation autoCheckout env w =
    bind (validateTotal customerInformation total)
         (fun _ => placeOrder autoCheckout found) env w2.
Proof.
  intros Hforms Hread. unfold submitGuestOrder.
  rewrite (bind_ok _ _ _ _ _ _ Hforms).
  rewrite (bind_ok _ _ _ _ _ _ Hread). reflexivity.
Qed.

(** The gate on the number it was given.  Once the forms are filled and the
    total is read as the number [total], a total equal to 0 or strictly
    greater than the budget makes the step throw the total-mismatch error
    with nothing done after the reading (no order is placed); a total with
    [0 < total <= budget] passes, and the step goes on with the placing of
    the order. *)
Lemma total_validation_on_parsed_total
    customerInformation paymentInformation autoCheckout env w w1 w2 found total :
  completeOrderInformation customerInformation paymentInformation env w = (Ok tt, w1) ->
  readTotal env w1 = (Ok (found, total), w2) ->
  (strictEq total zero = true \/ gt total (budget customerInformation) = true ->
     totalRejected total (budget customerInformation) = true /\
     submitGuestOrder customerInformation paymentInformation autoCheckout env w
       = (Throw totalMessage, w2))
  /\
  (lt zero total = true -> le total (budget customerInformation) = true ->
     totalRejected total (budget customerInformation) = false /\
     submitGuestOrder customerInformation paymentInformation autoCheckout env w
       = placeOrder autoCheckout found env w2).
Proof.
  intros Hforms Hread.
  rewrite (submitGuestOrder_at_total _ _ _ _ _ _ _ _ _ Hforms Hread).
  split.
  - intros Hbad. apply totalRejected_iff in Hbad. split; [exact Hbad|].
    apply bind_throw. apply validateTotal_rejects. exact Hbad.
  - intros Hpos Hle.
    assert (Hgood : totalRejected total (budget customerInformation) = false).
    { unfold totalRejected. rewrite (positive_not_zero _ Hpos), (le_not_gt _ _ Hle).
      reflexivity. }
    split; [exact Hgood|].
    rewrite (bind_ok _ _ _ _ _ _ (validateTotal_accepts _ _ _ _ Hgood)).
    reflexivity.
Qed.

(** On the calm page the total read is 699.99, the budget 800, and the
    order is placed; with a displayed total of $0.00, or of $801.00, the
    step throws. *)
Example total_validation_on_the_calm_page :
  fst (submitGuestOrder Scenario.customer Scenario.payment false
         Scenario.calm Scenario.start) = Ok tt /\
  fst (submitGuestOrder Scenario.customer Scenario.payment false
         (Scenario.withTotal "$0.00") Scenario.start) = Throw totalMessage /\
  fst (submitGuestOrder Scenario.customer Scenario.payment false
         (Scenario.withTotal "$801.00") Scenario.start) = Throw totalMessage /\
  fst (submitGuestOrder Scenario.customer Scenario.payment false
         (Scenario.withTotal "$800.00") Scenario.start) = Ok tt.
Proof. vm_compute. repeat split; reflexivity. Qed.

(** C1.  The claim has the step fail for every displayed order total that
    is strictly greater than the budget.  The total $1,299.99, displayed
    with the comma of the thousands, shows an amount above the budget of
    800; [parseFloat] stops at the comma and reads it as 1, so that the gate
    does not reject it: [submitGuestOrder] goes on, the order is placed by
    the click on the place-order button and the purchase marker is
    written. *)
Theorem C1_total_with_thousands_passes_the_gate :
  let text := "$1,299.99" in
  let r := submitGuestOrder Scenario.customer Scenario.payment true
             (Scenario.withTotal text) Scenario.start in
  shownAmount text = parseFloat "1299.99" /\
  gt (shownAmount text) (budget Scenario.customer) = true /\
  parsedTotal (Some text) = ofZ 1 /\
  totalRejected (parsedTotal (Some text)) (budget Scenario.customer) = false /\
  fst r = Ok tt /\
  count isOrderClick (trace (snd r)) = 1%nat /\
  purchaseJson (snd r) = true.
Proof. vm_compute. repeat split; reflexivity. Qed.

(** C10, counterexample.  The claim has every negative total pass the gate.
    Under a budget of -10, the displayed total -$5.00 parses to -5, which
    is greater than the budget: the gate rejects it. *)
Lemma C10_counterexample :
  lt (parsedTotal (Some "-$5.00")) zero = true /\
  totalRejected (parsedTotal (Some "-$5.00")) (ofZ (-10)) = true.
Proof. split; vm_compute; reflexivity. Qed.

(** What [submitGuestOrder] does with the total it read: the gate, then the
    placing of the order. *)
Lemma submitGuestOrder_gate
    customerInformation paymentInformation autoCheckout env w w1 w2 found total :
  completeOrderInformation customerInformation paymentInformation env w = (Ok tt, w1) ->
  readTotal env w1 = (Ok (found, total), w2) ->
  submitGuestOrder customerInformation paymentInformation autoCheckout env w =
    if totalRejected total (budget customerInformation)
    then (Throw totalMessage, w2)
    else placeOrder autoCheckout found env w2.
Proof.
  intros Hforms Hread.
  rewrite (submitGuestOrder_at_total _ _ _ _ _ _ _ _ _ Hforms Hread).
  destruct (totalRejected total (budget customerInformation)) eqn:Hgate.
  - apply bind_throw, validateTotal_rejects, Hgate.
  - rewrite (bind_ok _ _ _ _ _ _ (validateTotal_accepts _ _ _ _ Hgate)). reflexivity.
Qed.

(** The placing of the order starts with its log line. *)
Lemma placeOrder_starts autoCheckout found env w :
  exists evs,
    trace (snd (placeOrder autoCheckout found env w)) =
      (trace w ++ {| call := Log Info "Placing order..."; failure := None |} :: evs)%list.
Proof.
  unfold placeOrder.
  rewrite (bind_ok _ _ _ _ tt (record (Log Info "Placing order...") None w) eq_refl).
  match goal with
  | |- context [snd (?m env ?w1)] =>
      assert (Hk : Counts isCartCheck 0 m) by counts_walk;
      destruct (Hk env w1) as (evs & Ht & _)
  end.
  exists evs. rewrite Ht. cbn [record trace]. rewrite <- app_assoc. reflexivity.
Qed.

(** C10, amended.  The gate of [submitGuestOrder] rejects exactly the parsed
    totals equal to 0 or strictly greater than the budget: once the forms
    are filled and the total is read from the displayed text, the step
    throws the total-mismatch error when the parsed total is rejected and
    goes on with the placing of the order otherwise.  A displayed total
    whose parse is NaN is never rejected; one whose parse is negative is
    rejected only when it is strictly greater than the budget, hence never
    under a budget that is not negative.  With such a total
    [submitGuestOrder] places the order: what it does next is the log line
    of the placing of the order, and the rest of that part. *)
Theorem C10_gate_passes_nan_and_negative
    (text : option string) (customerInformation : CustomerInformation)
    (paymentInformation : PaymentInformation) (autoCheckout : bool) :
  let total := parsedTotal text in
  let b := budget customerInformation in
  (totalRejected total b = true <-> strictEq total zero = true \/ gt total b = true)
  /\ (isNaN total = true -> totalRejected total b = false)
  /\ (lt total zero = true -> gt total b = false -> totalRejected total b = false)
  /\ (lt total zero = true -> le zero b = true -> totalRejected total b = false)
  /\ (forall env w w1 w2 found,
        completeOrderInformation customerInformation paymentInformation env w
          = (Ok tt, w1) ->
        readTotal env w1 = (Ok (found, total), w2) ->
        submitGuestOrder customerInformation paymentInformation autoCheckout env w =
          if totalRejected total b
          then (Throw totalMessage, w2)
          else placeOrder autoCheckout found env w2)
  /\ (forall env w w1 w2 found,
        completeOrderInformation customerInformation paymentInformation env w
          = (Ok tt, w1) ->
        readTotal env w1 = (Ok (found, total), w2) ->
        isNaN total = true \/ (lt total zero = true /\ gt total b = false) ->
        submitGuestOrder customerInformation paymentInformation autoCheckout env w
          = placeOrder autoCheckout found env w2
        /\ exists evs,
             trace (snd (submitGuestOrder customerInformation paymentInformation
                           autoCheckout env w)) =
               (trace w2 ++ {| call := Log Info "Placing order..."; failure := None |}
                            :: evs)%list).
Proof.
  intros total b.
  assert (Hnegative : lt total zero = true -> gt total b = false ->
                      totalRejected total b = false).
  { intros Hneg Hgt. unfold totalRejected.
    rewrite (negative_not_zero _ Hneg), Hgt. reflexivity. }
  split; [apply totalRejected_iff|].
  split; [apply nan_passes|].
  split; [exact Hnegative|].
  split.
  { intros Hneg Hb. apply Hnegative; [exact Hneg|].
    apply negative_lt_nonnegative; assumption. }
  split.
  - intros env w w1 w2 found Hforms Hread.
    apply (submitGuestOrder_gate _ _ _ _ _ _ _ _ _ Hforms Hread).
  - intros env w w1 w2 found Hforms Hread Htotal.
    assert (Hgate : totalRejected total b = false).
    { destruct Htotal as [Hnan | [Hneg Hgt]];
        [apply nan_passes, Hnan | apply Hnegative; assumption]. }
    rewrite (submitGuestOrder_gate _ _ _ _ _ _ _ _ _ Hforms Hread).
    fold b. rewrite Hgate. split; [reflexivity | apply placeOrder_starts].
Qed.

(** C10 on two displayed totals and the budget of 800, with the
    auto-checkout section enabled: a text without a number at its head,
    and a negative amount.  In both cases the order is placed: the
    place-order button is clicked and the purchase marker is written. *)
Lemma C10_gate_passes_nan_and_negative_witness :
  (let env := Scenario.withTotal "Total: $699.99" in
   let w1 := snd (completeOrderInformation Scenario.customer Scenario.payment env
                    Scenario.start) in
   let w2 := snd (readTotal env w1) in
   let r := submitGuestOrder Scenario.customer Scenario.payment true env
              Scenario.start in
   isNaN (parsedTotal (Some "Total: $699.99")) = true /\
   completeOrderInformation Scenario.customer Scenario.payment env Scenario.start
     = (Ok tt, w1) /\
   readTotal env w1 = (Ok (true, parsedTotal (Some "Total: $699.99")), w2) /\
   r = placeOrder true true env w2 /\
   fst r = Ok tt /\ count isOrderClick (trace (snd r)) = 1%nat /\
   purchaseJson (snd r) = true)
  /\
  (let env := Scenario.withTotal "-$5.00" in
   let w1 := snd (completeOrderInformation Scenario.customer Scenario.payment env
                    Scenario.start) in
   let w2 := snd (readTotal env w1) in
   let r := submitGuestOrder Scenario.customer Scenario.payment true env
              Scenario.start in
   lt (parsedTotal (Some "-$5.00")) zero = true /\
   gt (parsedTotal (Some "-$5.00")) (budget Scenario.customer) = false /\
   completeOrderInformation Scenario.customer Scenario.payment env Scenario.start
     = (Ok tt, w1) /\
   readTotal env w1 = (Ok (true, parsedTotal (Some "-$5.00")), w2) /\
   r = placeOrder true true env w2 /\
   fst r = Ok tt /\ count isOrderClick (trace (snd r)) = 1%nat /\
   purchaseJson (snd r) = true).
Proof.
  split.
  - intros env w1 w2 r.
    assert (H1 : isNaN (parsedTotal (Some "Total: $699.99")) = true)
      by (vm_compute; reflexivity).
    assert (H2 : completeOrderInformation Scenario.customer Scenario.payment env
                   Scenario.start = (Ok tt, w1)) by (vm_compute; reflexivity).
    assert (H3 : readTotal env w1 = (Ok (true, parsedTotal (Some "Total: $699.99")), w2))
      by (vm_compute; reflexivity).
    pose proof (C10_gate_passes_nan_and_negative (Some "Total: $699.99")
                  Scenario.customer Scenario.payment true) as Hgate.
    cbv zeta in Hgate. destruct Hgate as (_ & _ & _ & _ & _ & Hplaces).
    destruct (Hplaces env Scenario.start w1 w2 true H2 H3 (or_introl H1)) as [Hgo _].
    refine (conj H1 (conj H2 (conj H3 (conj Hgo _)))).
    vm_compute. repeat split; reflexivity.
  - intros env w1 w2 r.
    assert (H1 : lt (parsedTotal (Some "-$5.00")) zero = true)
      by (vm_compute; reflexivity).
    assert (H1' : gt (parsedTotal (Some "-$5.00")) (budget Scenario.customer) = false)
      by (vm_compute; reflexivity).
    assert (H2 : completeOrderInformation Scenario.customer Scenario.payment env
                   Scenario.start = (Ok tt, w1)) by (vm_compute; reflexivity).
    assert (H3 : readTotal env w1 = (Ok (true, parsedTotal (Some "-$5.00")), w2))
      by (vm_compute; reflexivity).
    pose proof (C10_gate_passes_nan_and_negative (Some "-$5.00")
                  Scenario.customer Scenario.payment true) as Hgate.
    cbv zeta in Hgate. destruct Hgate as (_ & _ & _ & _ & _ & Hplaces).
    destruct (Hplaces env Scenario.start w1 w2 true H2 H3 (or_intror (conj H1 H1')))
      as [Hgo _].
    refine (conj H1 (conj H1' (conj H2 (conj H3 (conj Hgo _))))).
    vm_compute. repeat split; reflexivity.
Defined.
(* ================================================================== *)
(** ** The shipping loop of [checkout] *)

Section Shipping.

(** One attempt is one wait for the shipping option, and ends well or
    throws. *)
Lemma selectShipping_attempt env w :
  exists evs,
    trace (snd (selectShipping env w)) = (trace w ++ evs)%list /\
    attempts evs = 1%nat /\
    (fst (selectShipping env w) = Ok tt \/
     exists e, fst (selectShipping env w) = Throw e).
Proof.
  unfold selectShipping, bind, perform, wait, quiet.
  destruct (rejects env (trace w) (WaitForSelector shippingOption)) as [e1 | ] eqn:E1.
  - eexists [_]. cbn [fst snd record trace].
    split; [reflexivity|]. split; [reflexivity|]. right. eauto.
  - cbn [record trace].
    destruct (rejects env _ (Click shippingOption)) as [e2 | ] eqn:E2.
    + eexists [_; _]. cbn [fst snd record trace]. rewrite <- app_assoc.
      split; [reflexivity|]. split; [reflexivity|]. right. eauto.
    + eexists [_; _; _]. cbn [fst snd record trace]. rewrite <- !app_assoc.
      split; [reflexivity|]. split; [reflexivity|]. left. reflexivity.
Qed.

Lemma shippingLoop_step fuel attempt env w :
  shippingLoop (S fuel) attempt env w =
    match selectShipping env w with
    | (Ok _, w1) => (Ok tt, w1)
    | (Throw _, w1) =>
        if attempt + 1 >? 3 then (Throw shippingMessage, w1)
        else shippingLoop fuel (attempt + 1) env w1
    | (Exit c, w1) => (Exit c, w1)
    | (Diverge, w1) => (Diverge, w1)
    end.
Proof.
  cbn [shippingLoop]. unfold bind at 1, tryCatch, bind at 1.
  destruct (selectShipping env w) as [[[] | e | c | ] w1]; cbn; try reflexivity.
  destruct (attempt + 1 >? 3); reflexivity.
Qed.

(** Entered at attempt [4 - n] with fuel for [n] iterations, the loop makes
    at most [n] attempts and ends: well, or with the shipping error after
    exactly [n] failed attempts. *)
Lemma shippingLoop_bounded (n : nat) :
  forall fuel attempt env w,
    attempt = 4 - Z.of_nat n -> (1 <= n)%nat -> (n <= fuel)%nat ->
    exists evs,
      trace (snd (shippingLoop fuel attempt env w)) = (trace w ++ evs)%list /\
      ((fst (shippingLoop fuel attempt env w) = Ok tt /\
        (1 <= attempts evs <= n)%nat) \/
       (fst (shippingLoop fuel attempt env w) = Throw shippingMessage /\
        attempts evs = n)).
Proof.
  induction n as [| n IH]; intros fuel attempt env w Hat Hn Hfuel; [lia|].
  destruct fuel as [| fuel]; [lia|].
  rewrite shippingLoop_step.
  destruct (selectShipping_attempt env w) as (evs1 & Ht1 & Hc1 & Hres1).
  destruct (selectShipping env w) as [r1 w1]. cbn [fst snd] in Ht1, Hres1.
  destruct Hres1 as [Hok | [e Hthrow]]; subst r1.
  - exists evs1. cbn [fst snd]. split; [exact Ht1|]. left. split; [reflexivity | lia].
  - destruct (attempt + 1 >? 3) eqn:Hlast.
    + exists evs1. cbn [fst snd]. split; [exact Ht1|]. right. split; [reflexivity|].
      apply Z.gtb_lt in Hlast. lia.
    + assert (Hmore : (1 <= n)%nat).
      { destruct n; [|lia]. exfalso. simpl in Hat. subst attempt. discriminate. }
      destruct (IH fuel (attempt + 1) env w1) as (evs2 & Ht2 & Hres); try lia.
      exists (evs1 ++ evs2)%list. rewrite Ht2, Ht1, app_assoc.
      split; [reflexivity|]. unfold attempts in *. rewrite count_app.
      destruct Hres as [[Hr Hc] | [Hr Hc]]; [left | right]; split; try exact Hr; lia.
Qed.

End Shipping.

(** Whatever the fuel, the loop entered at [attempt <= 3] makes at most
    [4 - attempt] attempts. *)
Lemma shippingLoop_counts fuel :
  forall attempt, 1 <= attempt <= 3 ->
    Counts isShippingAttempt (Z.to_nat (4 - attempt)) (shippingLoop fuel attempt).
Proof.
  induction fuel as [| fuel IH]; intros attempt Hat env w.
  - exists []. simpl. rewrite app_nil_r. split; [reflexivity | lia].
  - rewrite shippingLoop_step.
    destruct (selectShipping_attempt env w) as (evs1 & Ht1 & Hc1 & Hres1).
    unfold attempts in Hc1.
    destruct (selectShipping env w) as [r1 w1]. cbn [fst snd] in Ht1, Hres1.
    destruct Hres1 as [Hok | [e Hthrow]]; subst r1.
    + exists evs1. split; [exact Ht1 | lia].
    + destruct (attempt + 1 >? 3) eqn:Hlast.
      * exists evs1. split; [exact Ht1 | lia].
      * assert (attempt + 1 <= 3).
        { destruct (Z.gtb_spec (attempt + 1) 3); [discriminate | lia]. }
        destruct (IH (attempt + 1) ltac:(lia) env w1) as (evs2 & Ht2 & Hc2).
        exists (evs1 ++ evs2)%list. rewrite Ht2, Ht1, app_assoc, count_app.
        split; [reflexivity | lia].
Qed.

Section ShippingInCheckout.

Variable customerInformation : CustomerInformation.

Lemma isCartEmpty_no_shipping : Counts isShippingAttempt 0 isCartEmpty.
Proof. unfold isCartEmpty. counts_walk. Qed.

Lemma changeZipCode_no_shipping z : Counts isShippingAttempt 0 (changeZipCode z).
Proof. unfold changeZipCode. counts_walk. Qed.

Lemma checkoutPass_shipping fuel retrying :
  Counts isShippingAttempt 3 (checkoutPass customerInformation fuel retrying).
Proof.
  unfold checkoutPass.
  apply counts_bind_l; [counts_walk | intros _].
  apply counts_bind_l; [counts_walk | intros _].
  apply counts_bind_l.
  { destruct retrying; [|counts_walk].
    apply (counts_bind _ 0 0); [apply isCartEmpty_no_shipping | intros; counts_walk]. }
  intros _. apply counts_bind_r.
  - destruct retrying; simpl.
    + apply (counts_weaken _ _ 0 3); [lia | counts_walk].
    + apply counts_bind_l; [apply changeZipCode_no_shipping | intros _].
      apply (shippingLoop_counts fuel 1). lia.
  - intros _. unfold clickCheckoutButton. counts_walk.
Qed.

Lemma checkoutPass_retry_no_shipping fuel :
  Counts isShippingAttempt 0 (checkoutPass customerInformation fuel true).
Proof.
  unfold checkoutPass, clickCheckoutButton, isCartEmpty. cbn [negb]. counts_walk.
Qed.

Lemma checkout_retry_no_shipping fuel :
  Counts isShippingAttempt 0 (checkout customerInformation fuel true).
Proof.
  induction fuel as [| fuel IH]; cbn [checkout]; [counts_walk|].
  apply (counts_bind _ 0 0); [apply checkoutPass_retry_no_shipping | intros _].
  counts_walk.
Qed.

Lemma checkout_shipping fuel retrying :
  Counts isShippingAttempt 3 (checkout customerInformation fuel retrying).
Proof.
  destruct fuel as [| fuel]; cbn [checkout].
  - apply (counts_weaken _ _ 0 3); [lia | counts_walk].
  - apply counts_bind_r; [apply checkoutPass_shipping | intros _].
    pose proof (checkout_retry_no_shipping fuel). counts_walk.
Qed.

End ShippingInCheckout.

(** ** The shipping loop within [checkout] *)

Lemma bind_ok_inv {A B} (m : M A) (k : A -> M B) env w b w' :
  bind m k env w = (Ok b, w') ->
  exists a w1, m env w = (Ok a, w1) /\ k a env w1 = (Ok b, w').
Proof.
  unfold bind. destruct (m env w) as [[a | e | c | ] w1]; try discriminate.
  intros H. exists a, w1. split; [reflexivity | exact H].
Qed.

(** A failing attempt is one attempt. *)
Lemma failing_trace env n w w' :
  Failing env n w w' ->
  exists evs, trace w' = (trace w ++ evs)%list /\ attempts evs = n.
Proof.
  induction 1 as [w | n w e w1 w2 Hstep Hrest (evs2 & Ht2 & Hc2)].
  - exists []. rewrite app_nil_r. split; reflexivity.
  - destruct (selectShipping_attempt env w) as (evs1 & Ht1 & Hc1 & _).
    rewrite Hstep in Ht1. cbn [snd] in Ht1.
    exists (evs1 ++ evs2)%list. rewrite Ht2, Ht1, app_assoc. split; [reflexivity|].
    unfold attempts in *. rewrite count_app. lia.
Qed.

(** After [n] failed attempts that leave the attempt number at 3 or below,
    an attempt that succeeds ends the loop well. *)
Lemma shippingLoop_succeeds env n w w1 :
  Failing env n w w1 ->
  forall fuel attempt w2,
    selectShipping env w1 = (Ok tt, w2) ->
    attempt + Z.of_nat n <= 3 -> (n < fuel)%nat ->
    shippingLoop fuel attempt env w = (Ok tt, w2).
Proof.
  induction 1 as [w | n w e w1 w' Hstep Hrest IH]; intros fuel attempt w2 Hok Hat Hfuel;
    (destruct fuel as [| fuel]; [lia|]); rewrite shippingLoop_step.
  - rewrite Hok. reflexivity.
  - rewrite Hstep.
    destruct (Z.gtb_spec (attempt + 1) 3); [lia|].
    apply IH; [exact Hok | lia | lia].
Qed.

(** The failed attempt that takes the attempt number above 3 ends the loop
    with the shipping error. *)
Lemma shippingLoop_gives_up env n w w' :
  Failing env n w w' ->
  forall fuel attempt,
    (1 <= n)%nat -> attempt + Z.of_nat n = 4 -> (n <= fuel)%nat ->
    shippingLoop fuel attempt env w = (Throw shippingMessage, w').
Proof.
  induction 1 as [w | n w e w1 w' Hstep Hrest IH]; intros fuel attempt Hn Hat Hfuel;
    [lia|].
  destruct fuel as [| fuel]; [lia|]. rewrite shippingLoop_step, Hstep.
  destruct (Z.gtb_spec (attempt + 1) 3) as [Hlast | Hmore].
  - assert (n = O) by lia. subst n. inversion Hrest; subst. reflexivity.
  - apply IH; lia.
Qed.

(** The attempts of the loop fail up to one that succeeds, or three of them
    fail. *)
Lemma failing_or_not env : forall (n : nat) w,
  (exists k w1 w2,
     (k < n)%nat /\ Failing env k w w1 /\ selectShipping env w1 = (Ok tt, w2))
  \/ (exists w', Failing env n w w').
Proof.
  induction n as [| n IH]; intros w.
  - right. exists w. constructor.
  - destruct (selectShipping_attempt env w) as (_ & _ & _ & Hres).
    destruct (selectShipping env w) as [r w1] eqn:Hstep. cbn [fst] in Hres.
    destruct Hres as [-> | [e ->]].
    + left. exists O, w, w1. split; [lia|]. split; [constructor | exact Hstep].
    + destruct (IH w1) as [(k & wa & wb & Hk & Hfail & Hok) | (w' & Hfail)].
      * left. exists (S k), wa, wb. split; [lia|].
        split; [econstructor; eassumption | exact Hok].
      * right. exists w'. econstructor; eassumption.
Qed.

Section ShippingOfCheckout.

Variable customerInformation : CustomerInformation.

(** A first pass, once the cart is visited and the zip code changed, is
    its shipping loop, entered at attempt 1, and what follows it. *)
Lemma checkout_at_shipping fuel env w w0 :
  beforeShipping customerInformation env w = (Ok tt, w0) ->
  exists after : M unit,
    checkout customerInformation (S fuel) false env w
      = (shippingLoop (S fuel) 1 ;; after) env w0
    /\ (forall w2, exists f evs,
          trace (snd (after env w2)) =
            (trace w2 ++ {| call := Screenshot "starting-checkout"; failure := f |}
                         :: evs)%list
          /\ attempts evs = O).
Proof.
  intros Hbefore. unfold beforeShipping in Hbefore.
  apply bind_ok_inv in Hbefore. destruct Hbefore as ([] & wl & Hlog & Hbefore).
  apply bind_ok_inv in Hbefore. destruct Hbefore as ([] & wg & Hgoto & Hzip).
  eexists. split.
  - cbn [checkout]. unfold checkoutPass. cbn [negb].
    rewrite bind_assoc, (bind_ok _ _ _ _ _ _ Hlog). cbn beta.
    rewrite bind_assoc, (bind_ok _ _ _ _ _ _ Hgoto). cbn beta.
    rewrite bind_assoc, (bind_ok _ _ _ _ tt wg eq_refl). cbn beta.
    rewrite bind_assoc. rewrite bind_assoc. rewrite (bind_ok _ _ _ _ _ _ Hzip). cbn beta.
    reflexivity.
  - intros w2. cbn beta. rewrite bind_assoc.
    unfold bind at 1. unfold perform at 1.
    destruct (rejects env (trace w2) (Screenshot "starting-checkout")) as [e | ].
    + exists (Some e), []. split; reflexivity.
    + match goal with
      | |- context [snd (?m env ?w3)] =>
          assert (Hk : Counts isShippingAttempt 0 m)
      end.
      { pose proof (checkout_retry_no_shipping customerInformation fuel).
        unfold clickCheckoutButton. counts_walk. }
      match goal with
      | |- context [snd (?m env ?w3)] => destruct (Hk env w3) as (evs & Ht & Hc)
      end.
      exists None, evs. rewrite Ht. cbn [record trace]. rewrite <- app_assoc.
      split; [reflexivity | unfold attempts; lia].
Qed.

End ShippingOfCheckout.

(** C6.  In a first pass of [checkout], once the cart is visited and the zip
    code changed, the shipping option is selected in at most three
    attempts.  When the first, second or third attempt is the first to
    succeed, [checkout] goes on from there with the screenshot that starts
    the checkout, without another attempt; when three attempts fail,
    [checkout] throws the shipping error at the third failure.  One of the
    two happens, and no run of [checkout], retries included, makes a fourth
    attempt. *)
Theorem C6_shipping_at_most_three customerInformation fuel env w w0 :
  beforeShipping customerInformation env w = (Ok tt, w0) ->
  (3 <= fuel)%nat ->
  (forall n w1 w2,
     (n < 3)%nat -> Failing env n w0 w1 -> selectShipping env w1 = (Ok tt, w2) ->
     exists f evs shipping,
       trace (snd (checkout customerInformation fuel false env w)) =
         (trace w2 ++ {| call := Screenshot "starting-checkout"; failure := f |}
                      :: evs)%list
       /\ attempts evs = O
       /\ trace w2 = (trace w0 ++ shipping)%list /\ attempts shipping = S n)
  /\ (forall w3,
        Failing env 3 w0 w3 ->
        checkout customerInformation fuel false env w = (Throw shippingMessage, w3)
        /\ exists shipping,
             trace w3 = (trace w0 ++ shipping)%list /\ attempts shipping = 3%nat)
  /\ ((exists n w1 w2,
         (n < 3)%nat /\ Failing env n w0 w1 /\ selectShipping env w1 = (Ok tt, w2))
      \/ (exists w3, Failing env 3 w0 w3))
  /\ Counts isShippingAttempt 3 (checkout customerInformation fuel false).
Proof.
  intros Hbefore Hfuel. destruct fuel as [| fuel]; [lia|].
  destruct (checkout_at_shipping customerInformation fuel env w w0 Hbefore)
    as (after & Hrun & Hafter).
  split; [|split; [|split]].
  - intros n w1 w2 Hn Hfail Hok.
    rewrite Hrun.
    rewrite (bind_ok _ _ _ _ _ _
               (shippingLoop_succeeds env n w0 w1 Hfail (S fuel) 1 w2 Hok
                  ltac:(lia) ltac:(lia))).
    destruct (Hafter w2) as (f & evs & Ht & Hc).
    destruct (failing_trace env n w0 w1 Hfail) as (evs1 & Ht1 & Hc1).
    destruct (selectShipping_attempt env w1) as (evs2 & Ht2 & Hc2 & _).
    rewrite Hok in Ht2. cbn [snd] in Ht2.
    exists f, evs, (evs1 ++ evs2)%list.
    split; [exact Ht|]. split; [exact Hc|].
    split; [rewrite Ht2, Ht1, app_assoc; reflexivity|].
    unfold attempts in *. rewrite count_app. lia.
  - intros w3 Hfail. split.
    + rewrite Hrun. apply bind_throw.
      apply (shippingLoop_gives_up env 3 w0 w3 Hfail); lia.
    + apply (failing_trace env 3 w0 w3 Hfail).
  - apply failing_or_not.
  - apply checkout_shipping.
Qed.

(** C6 on the page where the shipping option is there at the third attempt
    only: [checkout] goes on, after three attempts. *)
Lemma C6_shipping_at_most_three_witness :
  let env := Scenario.rejecting isShippingAttempt 2 "Timeout 3500ms exceeded." in
  let w0 := snd (beforeShipping Scenario.customer env Scenario.start) in
  let w1 := snd (selectShipping env w0) in
  let w2 := snd (selectShipping env w1) in
  let w3 := snd (selectShipping env w2) in
  beforeShipping Scenario.customer env Scenario.start = (Ok tt, w0) /\
  (3 <= 3)%nat /\
  Failing env 2 w0 w2 /\
  selectShipping env w2 = (Ok tt, w3) /\
  exists f evs shipping,
    trace (snd (checkout Scenario.customer 3 false env Scenario.start)) =
      (trace w3 ++ {| call := Screenshot "starting-checkout"; failure := f |}
                   :: evs)%list
    /\ attempts evs = O
    /\ trace w3 = (trace w0 ++ shipping)%list /\ attempts shipping = 3%nat.
Proof.
  intros env w0 w1 w2 w3.
  assert (H0 : beforeShipping Scenario.customer env Scenario.start = (Ok tt, w0))
    by (vm_compute; reflexivity).
  assert (H1 : selectShipping env w0 = (Throw "Timeout 3500ms exceeded.", w1))
    by (vm_compute; reflexivity).
  assert (H2 : selectShipping env w1 = (Throw "Timeout 3500ms exceeded.", w2))
    by (vm_compute; reflexivity).
  assert (H3 : selectShipping env w2 = (Ok tt, w3)) by (vm_compute; reflexivity).
  assert (Hfail : Failing env 2 w0 w2)
    by exact (Failing_S env _ _ _ _ _ H1 (Failing_S env _ _ _ _ _ H2 (Failing_O env w2))).
  assert (Hfuel : (3 <= 3)%nat) by lia.
  exact (conj H0 (conj Hfuel (conj Hfail (conj H3
           (proj1 (C6_shipping_at_most_three Scenario.customer 3 env Scenario.start w0
                     H0 Hfuel) 2%nat w2 w3 ltac:(lia) Hfail H3))))).
Defined.

(** The four ways of [checkout] through its shipping loop, on pages where
    the shipping option appears at once, at the second or third attempt, or
    never. *)
Example shipping_first_attempt :
  let r := checkout Scenario.customer 3 false
             (Scenario.rejecting isShippingAttempt 0 "Timeout 3500ms exceeded.")
             Scenario.start in
  fst r = Ok tt /\ attempts (trace (snd r)) = 1%nat.
Proof. vm_compute. split; reflexivity. Qed.

Example shipping_second_attempt :
  let r := checkout Scenario.customer 3 false
             (Scenario.rejecting isShippingAttempt 1 "Timeout 3500ms exceeded.")
             Scenario.start in
  fst r = Ok tt /\ attempts (trace (snd r)) = 2%nat.
Proof. vm_compute. split; reflexivity. Qed.

Example shipping_third_attempt :
  let r := checkout Scenario.customer 3 false
             (Scenario.rejecting isShippingAttempt 2 "Timeout 3500ms exceeded.")
             Scenario.start in
  fst r = Ok tt /\ attempts (trace (snd r)) = 3%nat.
Proof. vm_compute. split; reflexivity. Qed.

Example shipping_unavailable :
  let r := checkout Scenario.customer 3 false
             (Scenario.rejecting isShippingAttempt 7 "Timeout 3500ms exceeded.")
             Scenario.start in
  fst r = Throw shippingMessage /\ attempts (trace (snd r)) = 3%nat.
Proof. vm_compute. split; reflexivity. Qed.

(* ================================================================== *)
(** ** The empty cart and the passes of [checkout] *)

Lemma shippingLoop_no_cart_check fuel :
  forall attempt, Counts isCartCheck 0 (shippingLoop fuel attempt).
Proof.
  induction fuel as [| fuel IH]; intros attempt; cbn [shippingLoop]; [counts_walk|].
  unfold selectShipping. counts_walk.
Qed.

Section Cart.

Variable customerInformation : CustomerInformation.

(** A first pass never looks at the title of the cart page. *)
Lemma checkoutPass_first_no_cart_check fuel :
  Counts isCartCheck 0 (checkoutPass customerInformation fuel false).
Proof.
  pose proof (shippingLoop_no_cart_check fuel 1).
  unfold checkoutPass, clickCheckoutButton, changeZipCode. cbn [negb]. counts_walk.
Qed.

(** What follows the click on the checkout button: the wait for the guest
    prompt and, when it fails, the retry. *)
Lemma after_click_retry_announced fuel env w :
  let rest :=
    tryCatch
      (perform (WaitForSelector guestButton) ;;
       logger Info "Checkout successful, starting order placement")
      (fun error =>
         logger Warn error ;;
         logger Info retryLogMessage ;;
         promiseAll2 (sendDiscordMessage retryNotification (Some "starting-checkout"))
                     (sendTelegramMessage retryNotification) ;;
         checkout customerInformation fuel true) in
  exists evs,
    trace (snd (rest env w)) = (trace w ++ evs)%list /\
    notBefore isRetryLog isCartCheck evs = true.
Proof.
  intros rest. subst rest. unfold tryCatch, bind at 1, perform.
  destruct (rejects env (trace w) (WaitForSelector guestButton)) as [e | ].
  - unfold bind at 1, logger at 1, quiet at 1.
    unfold bind at 1, logger at 1, quiet at 1.
    match goal with
    | |- context [bind ?m ?k env ?w3] =>
        assert (Hrest : Counts isShippingAttempt 3 (bind m k))
    end.
    { apply counts_bind_l; [counts_walk | intros _; apply checkout_shipping]. }
    match goal with
    | |- context [bind ?m ?k env ?w3] => destruct (Hrest env w3) as (evs & Ht & _)
    end.
    eexists (_ :: _ :: _ :: evs). rewrite Ht. cbn [record trace].
    rewrite <- !app_assoc. split; reflexivity.
  - eexists [_; _]. cbn. rewrite <- !app_assoc. split; reflexivity.
Qed.

End Cart.

(** C8.  A retry pass of [checkout] that finds the cart empty, once the cart
    page is loaded, throws the cart-empty error at once: nothing is done
    after the check, and no other pass is made.  A first pass does not look
    at the cart title at all: in a run of [checkout(false)] no cart check is
    made before a retry has been announced. *)
Theorem C8_cart_empty_only_on_retry customerInformation fuel env w :
  (forall w1 w2,
     perform (Goto cartUrl) env (snd (logger Info "Navigating to cart" env w)) = (Ok tt, w1) ->
     isCartEmpty env w1 = (Ok true, w2) ->
     checkout customerInformation (S fuel) true env w = (Throw cartEmptyMessage, w2))
  /\ Counts isCartCheck 0 (checkoutPass customerInformation fuel false)
  /\ (exists evs,
        trace (snd (checkout customerInformation fuel false env w)) = (trace w ++ evs)%list /\
        notBefore isRetryLog isCartCheck evs = true).
Proof.
  split; [|split].
  - intros w1 w2 Hgoto Hempty. cbn [checkout]. unfold checkoutPass.
    apply bind_throw.
    rewrite (bind_ok _ _ _ _ tt (snd (logger Info "Navigating to cart" env w)) eq_refl).
    rewrite (bind_ok _ _ _ _ _ _ Hgoto).
    apply bind_throw. rewrite (bind_ok _ _ _ _ _ _ Hempty). reflexivity.
  - apply checkoutPass_first_no_cart_check.
  - destruct fuel as [| fuel]; cbn [checkout].
    + exists []. simpl. rewrite app_nil_r. split; reflexivity.
    + destruct (checkoutPass_first_no_cart_check customerInformation (S fuel) env w)
        as (evs1 & Ht1 & Hc1).
      unfold bind at 1.
      destruct (checkoutPass customerInformation (S fuel) false env w)
        as [[[] | e | c | ] w1]; cbn [fst snd] in *;
        try (exists evs1; split; [exact Ht1 | apply notBefore_none; lia]).
      destruct (after_click_retry_announced customerInformation fuel env w1)
        as (evs2 & Ht2 & Hn2).
      exists (evs1 ++ evs2)%list. rewrite Ht2, Ht1, app_assoc. split; [reflexivity|].
      apply notBefore_app; [lia | exact Hn2].
Qed.

(** C8 on a page whose cart title reads that the cart is empty. *)
Lemma C8_cart_empty_only_on_retry_witness :
  let env := Scenario.withCartTitle "  Your cart is empty " in
  let w1 := snd (perform (Goto cartUrl) env
                   (snd (logger Info "Navigating to cart" env Scenario.start))) in
  let w2 := snd (isCartEmpty env w1) in
  perform (Goto cartUrl) env (snd (logger Info "Navigating to cart" env Scenario.start))
    = (Ok tt, w1) /\
  isCartEmpty env w1 = (Ok true, w2) /\
  checkout Scenario.customer 1 true env Scenario.start = (Throw cartEmptyMessage, w2).
Proof.
  intros env w1 w2.
  assert (H1 : perform (Goto cartUrl) env
                 (snd (logger Info "Navigating to cart" env Scenario.start)) = (Ok tt, w1))
    by (vm_compute; reflexivity).
  assert (H2 : isCartEmpty env w1 = (Ok true, w2)) by (vm_compute; reflexivity).
  exact (conj H1 (conj H2
           (proj1 (C8_cart_empty_only_on_retry Scenario.customer 0 env Scenario.start)
              w1 w2 H1 H2))).
Defined.

(* ================================================================== *)
(** ** The retry of [checkout] *)

Section Retry.

Variable customerInformation : CustomerInformation.
Variable n : nat.

(** A retry pass on the slow page goes through: it visits the cart once
    and does not wait for the prompt. *)
Lemma retry_pass_slowPrompt fuel w :
  exists evs,
    checkoutPass customerInformation fuel true (slowPrompt n) w
      = (Ok tt, {| trace := trace w ++ evs; purchaseJson := purchaseJson w |})
    /\ count isGuestWait evs = O /\ passes evs = 1%nat /\ count isRetryLog evs = O.
Proof.
  unfold checkoutPass, clickCheckoutButton, isCartEmpty, sendDiscordMessage,
    sendTelegramMessage, promiseAll2, bind, logger, quiet, perform, query,
    textContent, record.
  cbn. rewrite <- !app_assoc. eexists. split; [reflexivity|]. repeat split; reflexivity.
Qed.

(** So does a first pass, its first shipping attempt succeeding. *)
Lemma first_pass_slowPrompt fuel w :
  exists evs,
    checkoutPass customerInformation (S fuel) false (slowPrompt n) w
      = (Ok tt, {| trace := trace w ++ evs; purchaseJson := purchaseJson w |})
    /\ count isGuestWait evs = O /\ passes evs = 1%nat /\ count isRetryLog evs = O.
Proof.
  unfold checkoutPass, clickCheckoutButton, changeZipCode, sendDiscordMessage,
    sendTelegramMessage, promiseAll2, bind, logger, quiet, perform, record.
  cbn. rewrite <- !app_assoc. eexists. split; [reflexivity|]. repeat split; reflexivity.
Qed.

Lemma slowPrompt_guest tr :
  rejects (slowPrompt n) tr (WaitForSelector guestButton) =
    if Nat.ltb (count isGuestWait tr) n then Some "Timeout 10000ms exceeded." else None.
Proof. reflexivity. Qed.

(** What [checkout] does after the click, on the slow page, when the
    prompt has already timed out [n] times: the prompt is there. *)
Lemma prompt_rendered w :
  count isGuestWait (trace w) = n ->
  exists evs,
    (perform (WaitForSelector guestButton) ;;
     logger Info "Checkout successful, starting order placement") (slowPrompt n) w
      = (Ok tt, {| trace := trace w ++ evs; purchaseJson := purchaseJson w |})
    /\ passes evs = O.
Proof.
  intros Hn. unfold bind, perform.
  rewrite slowPrompt_guest, Hn, Nat.ltb_irrefl.
  unfold logger, quiet, record. cbn [trace purchaseJson]. rewrite <- !app_assoc.
  eexists. split; reflexivity.
Qed.

(** ... and when it has timed out less than [n] times: it times out. *)
Lemma prompt_times_out w :
  (count isGuestWait (trace w) < n)%nat ->
  exists e,
    (perform (WaitForSelector guestButton) ;;
     logger Info "Checkout successful, starting order placement") (slowPrompt n) w
      = (Throw e, {| trace := trace w ++ [{| call := WaitForSelector guestButton;
                                             failure := Some e |}];
                     purchaseJson := purchaseJson w |}).
Proof.
  intros Hn. unfold bind, perform.
  apply Nat.ltb_lt in Hn. rewrite slowPrompt_guest, Hn. eexists. reflexivity.
Qed.

(** The announcement of a retry goes through, whatever follows it. *)
Lemma announce_slowPrompt e w :
  exists evs,
    (forall k : M unit,
       (logger Warn e ;;
        logger Info retryLogMessage ;;
        promiseAll2 (sendDiscordMessage retryNotification (Some "starting-checkout"))
                    (sendTelegramMessage retryNotification) ;;
        k) (slowPrompt n) w
       = k (slowPrompt n) {| trace := trace w ++ evs; purchaseJson := purchaseJson w |})
    /\ count isGuestWait evs = O /\ passes evs = O /\ count isRetryLog evs = 1%nat.
Proof.
  eexists. split; [intros k|].
  - unfold sendDiscordMessage, sendTelegramMessage, promiseAll2, bind, logger,
      quiet, perform.
    cbn. unfold record. cbn [trace purchaseJson]. rewrite <- !app_assoc. reflexivity.
  - repeat split; reflexivity.
Qed.

Lemma checkout_S fuel retrying env w :
  checkout customerInformation (S fuel) retrying env w =
    (checkoutPass customerInformation (S fuel) retrying ;;
     tryCatch
       (perform (WaitForSelector guestButton) ;;
        logger Info "Checkout successful, starting order placement")
       (fun error =>
          logger Warn error ;;
          logger Info retryLogMessage ;;
          promiseAll2 (sendDiscordMessage retryNotification (Some "starting-checkout"))
                      (sendTelegramMessage retryNotification) ;;
          checkout customerInformation fuel true)) env w.
Proof. reflexivity. Qed.

(** After the click, on the slow page, when [k] timeouts are still to
    come, given what a retry entered with one timeout less does. *)
Lemma after_click_slowPrompt fuel w :
  exists evs,
    tryCatch
      (perform (WaitForSelector guestButton) ;;
       logger Info "Checkout successful, starting order placement")
      (fun error =>
         logger Warn error ;;
         logger Info retryLogMessage ;;
         promiseAll2 (sendDiscordMessage retryNotification (Some "starting-checkout"))
                     (sendTelegramMessage retryNotification) ;;
         checkout customerInformation fuel true) (slowPrompt n) w
    = (if Nat.ltb (count isGuestWait (trace w)) n
       then checkout customerInformation fuel true (slowPrompt n)
              {| trace := trace w ++ evs; purchaseJson := purchaseJson w |}
       else (Ok tt, {| trace := trace w ++ evs; purchaseJson := purchaseJson w |}))
    /\ count isGuestWait evs = 1%nat /\ passes evs = O
    /\ count isRetryLog evs = (if Nat.ltb (count isGuestWait (trace w)) n then 1 else 0)%nat.
Proof.
  unfold tryCatch.
  destruct (Nat.ltb (count isGuestWait (trace w)) n) eqn:Hlt.
  - apply Nat.ltb_lt in Hlt. destruct (prompt_times_out w Hlt) as (e & H2).
    rewrite H2.
    destruct (announce_slowPrompt e
                {| trace := trace w ++ [{| call := WaitForSelector guestButton;
                                           failure := Some e |}];
                   purchaseJson := purchaseJson w |}) as (evs3 & H3 & Hg3 & Hp3 & Hr3).
    rewrite H3. cbn [trace purchaseJson]. rewrite <- app_assoc.
    eexists. split; [reflexivity|].
    rewrite !count_app, Hg3, Hr3. unfold passes in *. rewrite count_app, Hp3.
    repeat split; reflexivity.
  - apply Nat.ltb_ge in Hlt.
    assert (Hup : (count isGuestWait (trace w) <= n)%nat \/
                  (n < count isGuestWait (trace w))%nat) by lia.
    unfold bind, perform. rewrite slowPrompt_guest.
    replace (Nat.ltb (count isGuestWait (trace w)) n) with false
      by (symmetry; apply Nat.ltb_ge; exact Hlt).
    unfold logger, quiet, record. cbn [trace purchaseJson]. rewrite <- !app_assoc.
    eexists. split; [reflexivity|]. repeat split; reflexivity.
Qed.

(** On the slow page, a retry entered when [k] timeouts are still to come
    makes [k + 1] passes, [k] of them announced from within, and then
    [checkout] returns. *)
Lemma retries_slowPrompt k :
  forall fuel w,
    (count isGuestWait (trace w) + k = n)%nat -> (k < fuel)%nat ->
    exists evs,
      checkout customerInformation fuel true (slowPrompt n) w
        = (Ok tt, {| trace := trace w ++ evs; purchaseJson := purchaseJson w |})
      /\ passes evs = S k /\ count isRetryLog evs = k.
Proof.
  induction k as [| k IH]; intros fuel w Hk Hfuel;
    (destruct fuel as [| fuel]; [lia|]); rewrite checkout_S;
    destruct (retry_pass_slowPrompt (S fuel) w) as (evs1 & H1 & Hg1 & Hp1 & Hr1);
    rewrite (bind_ok _ _ _ _ _ _ H1);
    destruct (after_click_slowPrompt fuel
                {| trace := trace w ++ evs1; purchaseJson := purchaseJson w |})
      as (evs2 & H2 & Hg2 & Hp2 & Hr2);
    rewrite H2; cbn [trace purchaseJson] in *; rewrite count_app, Hg1 in *.
  - replace (Nat.ltb (count isGuestWait (trace w) + 0) n) with false in *
      by (symmetry; apply Nat.ltb_ge; lia).
    exists (evs1 ++ evs2)%list. rewrite app_assoc. split; [reflexivity|].
    unfold passes in *. rewrite !count_app. lia.
  - replace (Nat.ltb (count isGuestWait (trace w) + 0) n) with true in *
      by (symmetry; apply Nat.ltb_lt; lia).
    destruct (IH fuel {| trace := (trace w ++ evs1) ++ evs2;
                         purchaseJson := purchaseJson w |}) as (evs4 & H4 & Hp4 & Hr4).
    { cbn [trace]. rewrite !count_app, Hg1, Hg2. lia. }
    { lia. }
    rewrite H4. cbn [trace purchaseJson].
    eexists. rewrite <- !app_assoc. split; [reflexivity|].
    unfold passes in *. rewrite !count_app, Hp1, Hp2, Hp4, Hr1, Hr2, Hr4. lia.
Qed.

End Retry.

(** C3, counterexample.  The claim bounds the retry passes by one.  On the
    page where the prompt times out twice, [checkout] makes three passes,
    two of them retries, and returns. *)
Lemma C3_counterexample :
  let r := checkout Scenario.customer 3 false (slowPrompt 2) Scenario.start in
  fst r = Ok tt /\ passes (trace (snd r)) = 3%nat /\
  ~ (passes (trace (snd r)) <= 1 + 1)%nat.
Proof. vm_compute. repeat split; try reflexivity. lia. Qed.

(** C3, amended.  A pass of [checkout] whose wait for the guest prompt times
    out is followed by a retry pass, and a retry pass that times out by
    another: the number of retry passes is not bounded by the code.  For
    every [n], on the page where the prompt times out [n] times, [checkout]
    makes [n + 1] passes, [n] of them retries, and returns. *)
Theorem C3_retry_passes_unbounded customerInformation (n : nat) w :
  count isGuestWait (trace w) = O ->
  exists evs,
    checkout customerInformation (S n) false (slowPrompt n) w
      = (Ok tt, {| trace := trace w ++ evs; purchaseJson := purchaseJson w |})
    /\ passes evs = S n /\ count isRetryLog evs = n.
Proof.
  intros Hw. rewrite checkout_S.
  destruct (first_pass_slowPrompt customerInformation n n w) as (evs1 & H1 & Hg1 & Hp1 & Hr1).
  rewrite (bind_ok _ _ _ _ _ _ H1).
  destruct (after_click_slowPrompt customerInformation n n
              {| trace := trace w ++ evs1; purchaseJson := purchaseJson w |})
    as (evs2 & H2 & Hg2 & Hp2 & Hr2).
  rewrite H2. cbn [trace purchaseJson] in *. rewrite count_app, Hg1, Hw in *.
  destruct n as [| k].
  - cbn [Nat.ltb Nat.leb Nat.add] in *. exists (evs1 ++ evs2)%list. rewrite app_assoc.
    split; [reflexivity|]. unfold passes in *. rewrite !count_app. lia.
  - replace (Nat.ltb (0 + 0) (S k)) with true in * by (symmetry; apply Nat.ltb_lt; lia).
    destruct (retries_slowPrompt customerInformation (S k) k (S k)
                {| trace := (trace w ++ evs1) ++ evs2; purchaseJson := purchaseJson w |})
      as (evs4 & H4 & Hp4 & Hr4).
    { cbn [trace]. rewrite !count_app, Hg1, Hg2, Hw. lia. }
    { lia. }
    rewrite H4. cbn [trace purchaseJson].
    eexists. rewrite <- !app_assoc. split; [reflexivity|].
    unfold passes in *. rewrite !count_app, Hp1, Hp2, Hp4, Hr1, Hr2, Hr4. lia.
Qed.

(** C3 on the page where the prompt times out three times. *)
Lemma C3_retry_passes_unbounded_witness :
  count isGuestWait (trace Scenario.start) = O /\
  exists evs,
    checkout Scenario.customer 4 false (slowPrompt 3) Scenario.start
      = (Ok tt, {| trace := trace Scenario.start ++ evs;
                   purchaseJson := purchaseJson Scenario.start |})
    /\ passes evs = 4%nat /\ count isRetryLog evs = 3%nat.
Proof.
  split; [reflexivity|].
  exact (C3_retry_passes_unbounded Scenario.customer 3 Scenario.start eq_refl).
Defined.

(* ================================================================== *)
(** ** The candidates of [purchaseProduct] *)

Section Candidates.

Variable customerInformation : CustomerInformation.
Variable paymentInformation : PaymentInformation.
Variable autoCheckout : bool.
Variable fuel : nat.
Variable env : Env.

Let flow := purchaseFlow customerInformation paymentInformation autoCheckout fuel.
Let loop := purchaseLoop customerInformation paymentInformation autoCheckout fuel.

Lemma purchaseLoop_cons product rest w :
  loop (product :: rest) env w =
    match flow product env w with
    | (Ok _, w1) => (Ok true, w1)
    | (Throw e, w1) =>
        if String.eqb e botMessage
        then (Throw e, record (Log Error e) None w1)
        else loop rest env (record (Log Error e) None w1)
    | (Exit c, w1) => (Exit c, w1)
    | (Diverge, w1) => (Diverge, w1)
    end.
Proof.
  unfold loop, flow. cbn [purchaseLoop]. unfold bind at 1, tryCatch, bind at 1.
  destruct (purchaseFlow _ _ _ _ product env w) as [[[] | e | c | ] w1];
    try reflexivity.
  unfold bind at 1, logger, quiet. cbn.
  destruct (String.eqb e botMessage); reflexivity.
Qed.

(** The loop goes past the candidates that are given up, in their order. *)
Lemma purchaseLoop_skips before rest w w1 :
  Skipped flow env before w w1 ->
  loop (before ++ rest)%list env w = loop rest env w1.
Proof.
  induction 1 as [w | product before e w wa wb Hflow Hbot Hskip IH]; [reflexivity|].
  rewrite <- app_comm_cons, purchaseLoop_cons, Hflow, Hbot. exact IH.
Qed.

Lemma purchaseLoop_completes before product rest w w1 w2 :
  Skipped flow env before w w1 ->
  flow product env w1 = (Ok tt, w2) ->
  loop (before ++ product :: rest)%list env w = (Ok true, w2).
Proof.
  intros Hskip Hflow.
  rewrite (purchaseLoop_skips _ _ _ _ Hskip), purchaseLoop_cons, Hflow. reflexivity.
Qed.

Lemma purchaseLoop_exhausted products w w1 :
  Skipped flow env products w w1 -> loop products env w = (Ok false, w1).
Proof.
  intros Hskip. rewrite <- (app_nil_r products).
  rewrite (purchaseLoop_skips _ _ _ _ Hskip). reflexivity.
Qed.

Lemma purchaseLoop_bot before product rest w w1 w2 :
  Skipped flow env before w w1 ->
  flow product env w1 = (Throw botMessage, w2) ->
  loop (before ++ product :: rest)%list env w
    = (Throw botMessage, record (Log Error botMessage) None w2).
Proof.
  intros Hskip Hflow.
  rewrite (purchaseLoop_skips _ _ _ _ Hskip), purchaseLoop_cons, Hflow. reflexivity.
Qed.

End Candidates.

(** C7.  [purchaseProduct], once the store page is loaded, tries the
    candidates in the order of the list.  It returns true at the first
    candidate whose flow completes, those before it having each failed with
    an error that is not the bot-detection one; the candidates after it are
    not tried.  It returns false when every candidate fails so.  When the
    flow of a candidate throws the bot-detection error, [purchaseProduct]
    throws it in turn, and the candidates after it are not tried. *)
Theorem C7_candidates_in_order
    customerInformation paymentInformation autoCheckout fuel env w0 w :
  let flow := purchaseFlow customerInformation paymentInformation autoCheckout fuel in
  let purchase :=
    purchaseProduct customerInformation paymentInformation autoCheckout fuel in
  perform (Goto "https://bestbuy.com") env w0 = (Ok tt, w) ->
  (forall before product rest w1 w2,
     Skipped flow env before w w1 ->
     flow product env w1 = (Ok tt, w2) ->
     purchase (before ++ product :: rest)%list env w0 = (Ok true, w2))
  /\ (forall products w1,
        Skipped flow env products w w1 ->
        purchase products env w0 = (Ok false, w1))
  /\ (forall before product rest w1 w2,
        Skipped flow env before w w1 ->
        flow product env w1 = (Throw botMessage, w2) ->
        purchase (before ++ product :: rest)%list env w0
          = (Throw botMessage, record (Log Error botMessage) None w2)).
Proof.
  intros flow purchase Hgoto. subst flow purchase. unfold purchaseProduct.
  repeat split; intros; rewrite (bind_ok _ _ _ _ _ _ Hgoto).
  - eapply purchaseLoop_completes; eassumption.
  - eapply purchaseLoop_exhausted; eassumption.
  - eapply purchaseLoop_bot; eassumption.
Qed.

(** C7 on the calm page, whose SKU is that of the second candidate: the
    first is given up, the second bought; alone, the first leaves nothing
    bought; and in a flagged session the second stops the loop. *)
Lemma C7_candidates_in_order_witness :
  let flow := purchaseFlow Scenario.customer Scenario.payment false 3 in
  let mismatch := "Product page does not belong to product with sku 6429442" in
  let logged env w := record (Log Error mismatch) None (snd (flow Scenario.other env w)) in
  let flagged := Scenario.withSensor "7F2A~-1~YAAQ" in
  let w := snd (perform (Goto "https://bestbuy.com") Scenario.calm Scenario.start) in
  let w2 := snd (flow Scenario.gpu Scenario.calm (logged Scenario.calm w)) in
  let w3 := snd (flow Scenario.gpu flagged (logged flagged w)) in
  (perform (Goto "https://bestbuy.com") Scenario.calm Scenario.start = (Ok tt, w) /\
   Skipped flow Scenario.calm [Scenario.other] w (logged Scenario.calm w) /\
   flow Scenario.gpu Scenario.calm (logged Scenario.calm w) = (Ok tt, w2) /\
   purchaseProduct Scenario.customer Scenario.payment false 3
     [Scenario.other; Scenario.gpu; Scenario.other] Scenario.calm Scenario.start
     = (Ok true, w2))
  /\ purchaseProduct Scenario.customer Scenario.payment false 3
       [Scenario.other] Scenario.calm Scenario.start
       = (Ok false, logged Scenario.calm w)
  /\ (flow Scenario.gpu flagged (logged flagged w) = (Throw botMessage, w3) /\
      purchaseProduct Scenario.customer Scenario.payment false 3
        [Scenario.other; Scenario.gpu; Scenario.other] flagged Scenario.start
        = (Throw botMessage, record (Log Error botMessage) None w3)).
Proof.
  intros flow mismatch logged flagged w w2 w3.
  assert (Hgoto : forall env, rejects env = rejects Scenario.calm ->
            perform (Goto "https://bestbuy.com") env Scenario.start = (Ok tt, w)).
  { intros env He. unfold perform. rewrite He. reflexivity. }
  assert (Hskip : forall env,
            flow Scenario.other env w = (Throw mismatch, snd (flow Scenario.other env w)) ->
            Skipped flow env [Scenario.other] w (logged env w)).
  { intros env He. eapply Skipped_cons; [exact He | reflexivity | apply Skipped_nil]. }
  assert (Hcalm : Skipped flow Scenario.calm [Scenario.other] w (logged Scenario.calm w))
    by (apply Hskip; vm_compute; reflexivity).
  assert (Hflagged : Skipped flow flagged [Scenario.other] w (logged flagged w))
    by (apply Hskip; vm_compute; reflexivity).
  assert (Hbuy : flow Scenario.gpu Scenario.calm (logged Scenario.calm w) = (Ok tt, w2))
    by (vm_compute; reflexivity).
  assert (Hbot : flow Scenario.gpu flagged (logged flagged w) = (Throw botMessage, w3))
    by (vm_compute; reflexivity).
  pose proof (C7_candidates_in_order Scenario.customer Scenario.payment false 3
                Scenario.calm Scenario.start w (Hgoto _ eq_refl)) as (Hfirst & Hnone & _).
  pose proof (C7_candidates_in_order Scenario.customer Scenario.payment false 3
                flagged Scenario.start w (Hgoto _ eq_refl)) as (_ & _ & Hstop).
  refine (conj (conj (Hgoto _ eq_refl) (conj Hcalm (conj Hbuy _))) (conj _ (conj Hbot _))).
  - exact (Hfirst [Scenario.other] Scenario.gpu [Scenario.other] _ _ Hcalm Hbuy).
  - exact (Hnone [Scenario.other] _ Hcalm).
  - exact (Hstop [Scenario.other] Scenario.gpu [Scenario.other] _ _ Hflagged Hbot).
Defined.

(* ================================================================== *)
(** ** The bot detection of [addToCart] *)

Lemma includes_empty pat : pat <> "" -> JsString.includes pat "" = false.
Proof.
  unfold JsString.includes. destruct pat as [| c pat]; [congruence|]. reflexivity.
Qed.

Lemma isFlagged_absent cookies : sensorCookie cookies = None -> isFlagged cookies = false.
Proof. unfold isFlagged. intros ->. reflexivity. Qed.

Lemma isFlagged_clean cookies v :
  sensorCookie cookies = Some v -> JsString.includes "~0~" v = true ->
  isFlagged cookies = false.
Proof.
  unfold isFlagged. intros -> ->. apply andb_false_r.
Qed.

Lemma isFlagged_empty cookies : sensorCookie cookies = Some "" -> isFlagged cookies = false.
Proof. unfold isFlagged. intros ->. reflexivity. Qed.

Lemma isFlagged_dirty cookies v :
  sensorCookie cookies = Some v -> v <> "" -> JsString.includes "~0~" v = false ->
  isFlagged cookies = true.
Proof.
  unfold isFlagged. intros -> Hv ->. destruct v; [congruence | reflexivity].
Qed.

(** The two bot notifications: both sends are made; the whole is rejected
    exactly when one of them is. *)
Lemma bot_notifications env w :
  exists evs,
    snd (promiseAll2 (sendDiscordMessage botMessage None)
                     (sendTelegramMessage botMessage) env w)
      = {| trace := trace w ++ evs; purchaseJson := purchaseJson w |}
    /\ calls evs = [HookSend botMessage; TelegramSendMessage botMessage]
    /\ ((fst (promiseAll2 (sendDiscordMessage botMessage None)
                          (sendTelegramMessage botMessage) env w) = Ok tt)
        \/ (exists e,
              fst (promiseAll2 (sendDiscordMessage botMessage None)
                               (sendTelegramMessage botMessage) env w) = Throw e
              /\ ~ allDelivered evs)).
Proof.
  unfold sendDiscordMessage, sendTelegramMessage. cbn [promiseAll2].
  destruct (rejects env (trace w) (HookSend botMessage)) as [e1 | ] eqn:E1;
    cbn [record trace purchaseJson];
    match goal with
    | |- context [rejects env ?tr (TelegramSendMessage botMessage)] =>
        destruct (rejects env tr (TelegramSendMessage botMessage)) as [e2 | ] eqn:E2
    end;
    rewrite race_eq;
    match goal with
    | |- context [secondFirst env ?tr] => destruct (secondFirst env tr)
    end;
    cbn [resume abandon postpone snd fst]; unfold record; cbn [trace purchaseJson];
    rewrite <- ?app_assoc; cbn [app]; eexists; (split; [reflexivity|]); (split; [reflexivity|]);
    try (left; reflexivity);
    right; eexists; (split; [reflexivity|]); unfold allDelivered; intros Hall;
    repeat match goal with
      | H : Forall _ (_ :: _) |- _ => inversion H; clear H; subst
      end; cbn [failure] in *; congruence.
Qed.

(** In a flagged session [addToCart] sends the two notifications and throws:
    the bot-detection error when both were delivered, the error of a
    rejected send otherwise.  Nothing else is done. *)
Lemma addToCart_flagged product env w w1 cookies :
  contextCookies env w = (Ok cookies, w1) ->
  isFlagged cookies = true ->
  exists evs e,
    addToCart product env w
      = (Throw e, {| trace := trace w1 ++ evs; purchaseJson := purchaseJson w1 |})
    /\ calls evs = [HookSend botMessage; TelegramSendMessage botMessage]
    /\ count isCartMutation evs = O
    /\ (allDelivered evs -> e = botMessage).
Proof.
  intros Hcookies Hflag. unfold addToCart.
  rewrite (bind_ok _ _ _ _ _ _ Hcookies), Hflag.
  destruct (bot_notifications env w1) as (evs & Hw & Hcalls & Hres).
  assert (Hcount : count isCartMutation evs = O).
  { destruct evs as [| a [| b [| c evs]]]; try discriminate.
    injection Hcalls as Ha Hb. simpl. rewrite Ha, Hb. reflexivity. }
  unfold bind at 1. unfold bind at 1.
  destruct (promiseAll2 (sendDiscordMessage botMessage None)
              (sendTelegramMessage botMessage) env w1) as [r w2].
  cbn [fst snd] in Hw, Hres. subst w2.
  destruct Hres as [-> | (e & -> & Hnot)].
  - exists evs, botMessage. repeat split; assumption.
  - exists evs, e. repeat split; try assumption. intros Hall. contradiction.
Qed.

(** In a session that is not flagged [addToCart] goes on to the stock
    check. *)
Lemma addToCart_not_flagged product env w w1 cookies :
  contextCookies env w = (Ok cookies, w1) ->
  isFlagged cookies = false ->
  exists evs,
    trace (snd (addToCart product env w)) =
      (trace w1 ++
       {| call := Log Info ("Checking stock of product " ++ quote
                            ++ productName product ++ quote);
          failure := None |} :: evs)%list.
Proof.
  intros Hcookies Hflag. unfold addToCart.
  rewrite (bind_ok _ _ _ _ _ _ Hcookies), Hflag.
  rewrite (bind_ok _ _ _ _ tt w1 eq_refl).
  rewrite (bind_ok _ _ _ _ tt
             (record (Log Info ("Checking stock of product " ++ quote
                                ++ productName product ++ quote)) None w1) eq_refl).
  match goal with
  | |- context [snd (?m env ?w2)] =>
      assert (Hk : Counts isCartCheck 0 m);
      [ unfold isInStock, hasItemBeenAddedToCart; counts_walk
      | destruct (Hk env w2) as (evs & Ht & _) ]
  end.
  exists evs. rewrite Ht. cbn [record trace]. rewrite <- app_assoc. reflexivity.
Qed.

(** C5, counterexample.  The claim has every present cookie without the
    marker flagged, and the bot-detection error thrown whenever the session
    is flagged.  A sensor cookie with an empty value is present, does not
    contain the marker, and is not flagged: the product is put in the cart.
    And in a flagged session where a notification is rejected, the error
    thrown is that of the send. *)
Lemma C5_counterexample :
  let cookies := [{| name := "_abck"; value := "" |}] in
  (sensorCookie cookies = Some "" /\
   JsString.includes "~0~" "" = false /\
   isFlagged cookies = false /\
   count isCartMutation
     (trace (snd (addToCart Scenario.gpu (Scenario.withSensor "") Scenario.start))) = 1%nat)
  /\
  (let flagged := Scenario.withSensor "7F2A~-1~YAAQ" in
   isFlagged (cookiesOf flagged []) = true /\
   fst (addToCart Scenario.gpu flagged Scenario.start) = Throw botMessage /\
   fst (addToCart Scenario.gpu (Scenario.offline flagged) Scenario.start)
     = Throw "ECONNRESET").
Proof. vm_compute. repeat split; reflexivity. Qed.

(** C5, amended.  The session is not flagged when the sensor cookie is
    absent, when its value is empty and when its value contains the clean
    marker; [addToCart] then goes on to the stock check.  It is flagged when
    the cookie is present with a value that is not empty and does not
    contain the marker: [addToCart] then sends the two bot notifications and
    throws, without any cart-mutating action; the error is the bot-detection
    one when both notifications were delivered. *)
Theorem C5_bot_detection (cookies : list Cookie) :
  (sensorCookie cookies = None -> isFlagged cookies = false)
  /\ (sensorCookie cookies = Some "" -> isFlagged cookies = false)
  /\ (forall v, sensorCookie cookies = Some v ->
        JsString.includes "~0~" v = true -> isFlagged cookies = false)
  /\ (forall v, sensorCookie cookies = Some v -> v <> "" ->
        JsString.includes "~0~" v = false -> isFlagged cookies = true)
  /\ (forall product env w w1,
        contextCookies env w = (Ok cookies, w1) ->
        isFlagged cookies = false ->
        exists evs,
          trace (snd (addToCart product env w)) =
            (trace w1 ++
             {| call := Log Info ("Checking stock of product " ++ quote
                                  ++ productName product ++ quote);
                failure := None |} :: evs)%list)
  /\ (forall product env w w1,
        contextCookies env w = (Ok cookies, w1) ->
        isFlagged cookies = true ->
        exists evs e,
          addToCart product env w
            = (Throw e, {| trace := trace w1 ++ evs; purchaseJson := purchaseJson w1 |})
          /\ calls evs = [HookSend botMessage; TelegramSendMessage botMessage]
          /\ count isCartMutation evs = O
          /\ (allDelivered evs -> e = botMessage)).
Proof.
  split; [apply isFlagged_absent|].
  split; [apply isFlagged_empty|].
  split; [apply isFlagged_clean|].
  split; [apply isFlagged_dirty|].
  split; intros product env w w1 Hcookies Hflag.
  - eapply addToCart_not_flagged; eassumption.
  - eapply addToCart_flagged; eassumption.
Qed.

(** C5 on a clean session, on one without the cookie and on a flagged one. *)
Lemma C5_bot_detection_witness :
  let clean := cookiesOf Scenario.calm [] in
  let dirty := cookiesOf (Scenario.withSensor "7F2A~-1~YAAQ") [] in
  let w1 := snd (contextCookies (Scenario.withSensor "7F2A~-1~YAAQ") Scenario.start) in
  (sensorCookie clean = Some "0A1B~0~YAAQ" /\
   JsString.includes "~0~" "0A1B~0~YAAQ" = true /\ isFlagged clean = false)
  /\ (sensorCookie [{| name := "bm_sz"; value := "7F2A" |}] = None /\
      isFlagged [{| name := "bm_sz"; value := "7F2A" |}] = false)
  /\ (sensorCookie dirty = Some "7F2A~-1~YAAQ" /\
      "7F2A~-1~YAAQ" <> "" /\
      JsString.includes "~0~" "7F2A~-1~YAAQ" = false /\
      isFlagged dirty = true /\
      contextCookies (Scenario.withSensor "7F2A~-1~YAAQ") Scenario.start = (Ok dirty, w1) /\
      exists evs e,
        addToCart Scenario.gpu (Scenario.withSensor "7F2A~-1~YAAQ") Scenario.start
          = (Throw e, {| trace := trace w1 ++ evs; purchaseJson := purchaseJson w1 |})
        /\ calls evs = [HookSend botMessage; TelegramSendMessage botMessage]
        /\ count isCartMutation evs = O
        /\ (allDelivered evs -> e = botMessage)).
Proof.
  intros clean dirty w1.
  assert (Hc1 : sensorCookie clean = Some "0A1B~0~YAAQ") by reflexivity.
  assert (Hc2 : JsString.includes "~0~" "0A1B~0~YAAQ" = true) by reflexivity.
  assert (Ha : sensorCookie [{| name := "bm_sz"; value := "7F2A" |}] = None) by reflexivity.
  assert (Hd1 : sensorCookie dirty = Some "7F2A~-1~YAAQ") by reflexivity.
  assert (Hd2 : "7F2A~-1~YAAQ" <> "") by discriminate.
  assert (Hd3 : JsString.includes "~0~" "7F2A~-1~YAAQ" = false) by reflexivity.
  assert (Hd4 : contextCookies (Scenario.withSensor "7F2A~-1~YAAQ") Scenario.start
                = (Ok dirty, w1)) by reflexivity.
  pose proof (C5_bot_detection clean) as (_ & _ & Hclean & _).
  pose proof (C5_bot_detection [{| name := "bm_sz"; value := "7F2A" |}]) as (Habsent & _).
  pose proof (C5_bot_detection dirty) as (_ & _ & _ & Hdirty & _ & Hthrow).
  pose proof (Hdirty _ Hd1 Hd2 Hd3) as Hflag.
  exact (conj (conj Hc1 (conj Hc2 (Hclean _ Hc1 Hc2)))
           (conj (conj Ha (Habsent Ha))
              (conj Hd1 (conj Hd2 (conj Hd3 (conj Hflag (conj Hd4
                 (Hthrow Scenario.gpu _ _ _ Hd4 Hflag)))))))).
Defined.
(* ================================================================== *)
(** ** Rejected notifications *)

Lemma rejections_app a b :
  rejections (a ++ b)%list = (rejections a ++ rejections b)%list.
Proof.
  induction a as [| e a IH]; simpl; [reflexivity|].
  destruct (isNotification (call e)); [destruct (failure e)|]; simpl; congruence.
Qed.

Lemma rejections_none evs : count isNotification evs = O -> rejections evs = [].
Proof.
  induction evs as [| e evs IH]; simpl; [reflexivity|].
  destruct (isNotification (call e)); [discriminate | exact IH].
Qed.

Lemma strict_of_counts {A} (m : M A) : Counts isNotification 0 m -> Strict m.
Proof.
  intros H env w. destruct (H env w) as (evs & Ht & Hc).
  exists evs. split; [exact Ht|]. intros Hm.
  rewrite rejections_none in Hm by lia. congruence.
Qed.

Lemma strict_bind {A B} (m : M A) (k : A -> M B) :
  Strict m -> (forall a, Strict (k a)) -> Strict (bind m k).
Proof.
  intros Hm Hk env w. destruct (Hm env w) as (evs1 & Ht1 & Hr1).
  unfold bind. destruct (m env w) as [[a | e | c | ] w1]; cbn [fst snd] in *;
    try (exists evs1; split; [exact Ht1|]; intros Hne;
         destruct (Hr1 Hne) as (message & Hin & Heq);
         exists message; split; [exact Hin | congruence]).
  destruct (Hk a env w1) as (evs2 & Ht2 & Hr2).
  exists (evs1 ++ evs2)%list. rewrite Ht2, Ht1, app_assoc. split; [reflexivity|].
  rewrite rejections_app.
  destruct (rejections evs1) as [| m1 l1].
  - exact Hr2.
  - destruct Hr1 as (message & _ & Habs); [discriminate | discriminate].
Qed.

(** A [try] whose body sends nothing: what the handler does with a rejected
    send is what the whole does. *)
Lemma strict_tryCatch {A} (body : M A) (handler : string -> M A) :
  Counts isNotification 0 body -> (forall e, Strict (handler e)) ->
  Strict (tryCatch body handler).
Proof.
  intros Hb Hh env w. destruct (Hb env w) as (evs1 & Ht1 & Hc1).
  assert (Hn1 : rejections evs1 = []) by (apply rejections_none; lia).
  unfold tryCatch. destruct (body env w) as [[a | e | c | ] w1]; cbn [fst snd] in *;
    try (exists evs1; split; [exact Ht1 | rewrite Hn1; congruence]).
  destruct (Hh e env w1) as (evs2 & Ht2 & Hr2).
  exists (evs1 ++ evs2)%list. rewrite Ht2, Ht1, app_assoc. split; [reflexivity|].
  rewrite rejections_app, Hn1. exact Hr2.
Qed.

(** A send that is awaited alone. *)
Lemma strict_await calls : Strict (await calls).
Proof.
  induction calls as [| c rest IH]; cbn [await].
  - apply strict_of_counts. counts_walk.
  - apply strict_bind; [|intros _; exact IH].
    intros env w. unfold perform.
    destruct (rejects env (trace w) c) as [e | ]; eexists [_];
      (split; [reflexivity|]); cbn; destruct (isNotification c); try congruence.
    intros _. exists e. split; [left; reflexivity | reflexivity].
Qed.

(** One answer of the outside after the other, in a [Promise.all] of given
    functions. *)
Ltac answer_step env :=
  match goal with
  | |- context [race _ _ _ _ env _] => rewrite race_eq
  | |- context [secondFirst env ?tr] => destruct (secondFirst env tr) eqn:?
  | |- context [rejects env ?tr ?c] => destruct (rejects env tr c) eqn:?
  end; cbn [resume abandon postpone].

(** The awaited pair of sends. *)
Lemma strict_notify message image message' :
  Strict (promiseAll2 (sendDiscordMessage message image) (sendTelegramMessage message')).
Proof.
  intros env w. unfold sendDiscordMessage, sendTelegramMessage.
  destruct image as [i | ]; [destruct (JsString.truthy i)|]; cbn [promiseAll2];
    repeat answer_step env;
    unfold record; cbn [trace purchaseJson fst snd]; rewrite <- ?app_assoc; cbn [app];
    eexists; (split; [reflexivity|]); cbn;
    try congruence; intros _; eexists; (split; [|reflexivity]); cbn; tauto.
Qed.

(** The order of the answers decides which rejection is thrown, when more
    than one send of the pair is rejected. *)
Lemma notify_first_rejection message image message' env w :
  let s1 := rejects env (trace w) (HookSend message) in
  let w1 := record (HookSend message) s1 w in
  let t := rejects env (trace w1) (TelegramSendMessage message') in
  let w2 := record (TelegramSendMessage message') t w1 in
  let r := promiseAll2 (sendDiscordMessage message image)
             (sendTelegramMessage message') env w in
  (exists evs, trace (snd r) = (trace w2 ++ evs)%list)
  /\ (forall et, t = Some et -> secondFirst env (trace w2) = true -> fst r = Throw et)
  /\ (forall e1, s1 = Some e1 -> secondFirst env (trace w2) = false -> fst r = Throw e1)
  /\ (forall i e2 et,
        image = Some i -> JsString.truthy i = true ->
        s1 = None -> secondFirst env (trace w2) = false ->
        let s2 := rejects env (trace w2) (HookSendFile i) in
        let w3 := record (HookSendFile i) s2 w2 in
        s2 = Some e2 -> t = Some et ->
        fst r = Throw (if secondFirst env (trace w3) then et else e2)).
Proof.
  intros s1 w1 t w2 r. subst r.
  unfold sendDiscordMessage, sendTelegramMessage. cbn [promiseAll2].
  fold s1. fold w1. fold t. fold w2.
  split; [|rewrite race_eq; split; [|split]].
  - match goal with
    | |- context [race ?fa ?ra ?fb ?rb env ?w3] =>
        destruct (extends_trace _ _ _ (race_extends ra rb fa fb env w3))
          as (evs & Heq & _)
    end.
    rewrite Heq. exists evs. reflexivity.
  - intros et -> ->. reflexivity.
  - intros e1 -> ->. reflexivity.
  - intros i e2 et -> Hi Hs1 Hfirst Hs2 Ht. rewrite Hi, Hs1, Hfirst.
    cbn zeta. rewrite race_eq, Hs2, Ht.
    match goal with
    | |- context [secondFirst env ?tr] => destruct (secondFirst env tr)
    end; reflexivity.
Qed.

(** The walk through a computation, for [Strict]. *)
Ltac strict_step :=
  match goal with
  | |- Strict (bind _ _) => apply strict_bind; [ | intros ]
  | |- Strict (promiseAll2 (sendDiscordMessage _ _) (sendTelegramMessage _)) =>
      apply strict_notify
  | |- Strict (await _) => apply strict_await
  | |- Strict (tryCatch _ _) => apply strict_tryCatch; [ solve [counts_walk] | intros ]
  | |- Strict (if ?b then _ else _) => destruct b
  | |- Strict (match ?x with _ => _ end) => destruct x
  | |- Strict _ => solve [auto]
  | |- Strict _ => apply strict_of_counts; solve [counts_walk]
  end.

Ltac strict_walk := repeat strict_step.

Lemma shippingLoop_sends_nothing fuel :
  forall attempt, Counts isNotification 0 (shippingLoop fuel attempt).
Proof.
  induction fuel as [| fuel IH]; intros attempt; cbn [shippingLoop]; [counts_walk|].
  unfold selectShipping. counts_walk.
Qed.

Section Steps.

Variable customerInformation : CustomerInformation.
Variable paymentInformation : PaymentInformation.
Variable autoCheckout : bool.

Lemma strict_addToCart product : Strict (addToCart product).
Proof.
  unfold addToCart, isInStock, hasItemBeenAddedToCart. strict_walk.
Qed.

Lemma strict_checkoutPass fuel retrying :
  Strict (checkoutPass customerInformation fuel retrying).
Proof.
  pose proof (shippingLoop_sends_nothing fuel 1) as Hloop.
  apply strict_of_counts in Hloop.
  unfold checkoutPass, isCartEmpty, changeZipCode, clickCheckoutButton. strict_walk.
Qed.

Lemma strict_checkout fuel : forall retrying, Strict (checkout customerInformation fuel retrying).
Proof.
  induction fuel as [| fuel IH]; intros retrying; cbn [checkout].
  - apply strict_of_counts. counts_walk.
  - pose proof (strict_checkoutPass (S fuel) retrying). pose proof (IH true).
    strict_walk.
Qed.

Lemma strict_submitGuestOrder :
  Strict (submitGuestOrder customerInformation paymentInformation autoCheckout).
Proof.
  unfold submitGuestOrder, completeOrderInformation, completeShippingInformation,
    completeContactInformation, completePaymentInformation, readTotal, validateTotal,
    placeOrder.
  strict_walk.
Qed.

Lemma strict_shutdown : Strict shutdown.
Proof. unfold shutdown, close. strict_walk. Qed.

End Steps.

(** C4, counterexample.  The claim has the outcome of a step the same
    whether a send succeeds or fails.  With the notification services out of
    reach and the page as calm as before, [addToCart], [checkout] and
    [submitGuestOrder] throw the error of the send where they returned
    before. *)
Lemma C4_counterexample :
  (fst (addToCart Scenario.gpu Scenario.calm Scenario.start) = Ok tt /\
   fst (addToCart Scenario.gpu (Scenario.offline Scenario.calm) Scenario.start)
     = Throw "ECONNRESET")
  /\ (fst (checkout Scenario.customer 3 false Scenario.calm Scenario.start) = Ok tt /\
      fst (checkout Scenario.customer 3 false (Scenario.offline Scenario.calm) Scenario.start)
        = Throw "ECONNRESET")
  /\ (fst (submitGuestOrder Scenario.customer Scenario.payment false
             Scenario.calm Scenario.start) = Ok tt /\
      fst (submitGuestOrder Scenario.customer Scenario.payment false
             (Scenario.offline Scenario.calm) Scenario.start) = Throw "ECONNRESET").
Proof. vm_compute. repeat split; reflexivity. Qed.

(** When Telegram rejects its send before [hook.send] is answered, the
    step throws at once, and the screenshot is sent later, by the
    [sendDiscordMessage] that was left running. *)
Example screenshot_sent_after_the_throw :
  let r := addToCart Scenario.gpu Scenario.hastyTelegram Scenario.start in
  fst r = Throw "401 Unauthorized" /\
  map (fun e => (call e, failure e)) (skipn 5 (trace (snd r))) =
    [(HookSend (inStockMessage Scenario.gpu), None);
     (TelegramSendMessage (inStockMessage Scenario.gpu), Some "401 Unauthorized");
     (Later (HookSendFile "product-in-stock"), None)].
Proof. vm_compute. split; reflexivity. Qed.

(** When both services reject the text and Telegram answers first, the
    error thrown is the one of Telegram, though [hook.send] was called
    before [client.sendMessage]. *)
Example later_call_rejected_first :
  let r := addToCart Scenario.gpu Scenario.bothDown Scenario.start in
  fst r = Throw "401 Unauthorized" /\
  rejections (trace (snd r)) = ["503 Service Unavailable"; "401 Unauthorized"].
Proof. vm_compute. split; reflexivity. Qed.

(** C4, amended.  In the steps that send notifications (add to cart,
    checkout, order placement, shutdown) a rejected send is not survived:
    the awaited [Promise.all] is rejected and the step throws the error of
    a send that was rejected, whatever else happens in the step.  In a
    [Promise.all] both sends are started before any answer is looked at,
    and when more than one of their calls is rejected the error thrown is
    that of the rejection that comes first: the one of Telegram when its
    answer comes before the one of Discord that is pending, the one of
    [hook.send] or of [hook.sendFile] otherwise. *)
Theorem C4_rejected_notification_aborts
    customerInformation paymentInformation autoCheckout product fuel retrying :
  Strict (addToCart product)
  /\ Strict (checkout customerInformation fuel retrying)
  /\ Strict (submitGuestOrder customerInformation paymentInformation autoCheckout)
  /\ Strict shutdown
  /\ (forall message image message' env w,
        let s1 := rejects env (trace w) (HookSend message) in
        let w1 := record (HookSend message) s1 w in
        let t := rejects env (trace w1) (TelegramSendMessage message') in
        let w2 := record (TelegramSendMessage message') t w1 in
        let r := promiseAll2 (sendDiscordMessage message image)
                   (sendTelegramMessage message') env w in
        (exists evs, trace (snd r) = (trace w2 ++ evs)%list)
        /\ (forall et,
              t = Some et -> secondFirst env (trace w2) = true -> fst r = Throw et)
        /\ (forall e1,
              s1 = Some e1 -> secondFirst env (trace w2) = false -> fst r = Throw e1)
        /\ (forall i e2 et,
              image = Some i -> JsString.truthy i = true ->
              s1 = None -> secondFirst env (trace w2) = false ->
              let s2 := rejects env (trace w2) (HookSendFile i) in
              let w3 := record (HookSendFile i) s2 w2 in
              s2 = Some e2 -> t = Some et ->
              fst r = Throw (if secondFirst env (trace w3) then et else e2))).
Proof.
  split; [apply strict_addToCart|].
  split; [apply strict_checkout|].
  split; [apply strict_submitGuestOrder|].
  split; [apply strict_shutdown | apply notify_first_rejection].
Qed.

(** C4 on the page where Discord rejects the screenshot and Telegram the
    text, Telegram answering after [hook.send] and before [hook.sendFile]:
    the three calls of the first [Promise.all] of [addToCart] are made, two
    of them are rejected, and [addToCart] throws the error of Telegram,
    whose rejection comes first. *)
Lemma C4_rejected_notification_aborts_witness :
  let env := Scenario.unnotified in
  let message := inStockMessage Scenario.gpu in
  let w2 := record (TelegramSendMessage message) (Some "401 Unauthorized")
              (record (HookSend message) None Scenario.start) in
  let w3 := record (HookSendFile "product-in-stock")
              (Some "413 Request Entity Too Large") w2 in
  (exists evs,
     trace (snd (addToCart Scenario.gpu env Scenario.start))
       = (trace Scenario.start ++ evs)%list /\
     rejections evs = ["401 Unauthorized"; "413 Request Entity Too Large"] /\
     rejections evs <> [] /\
     exists thrown,
       In thrown (rejections evs) /\
       fst (addToCart Scenario.gpu env Scenario.start) = Throw thrown /\
       thrown = "401 Unauthorized")
  /\ secondFirst env (trace w2) = false
  /\ secondFirst env (trace w3) = true
  /\ fst (promiseAll2 (sendDiscordMessage message (Some "product-in-stock"))
            (sendTelegramMessage message) env Scenario.start)
     = Throw "401 Unauthorized".
Proof.
  intros env message w2 w3.
  pose proof (C4_rejected_notification_aborts Scenario.customer Scenario.payment
                false Scenario.gpu 3 false) as (Hstrict & _ & _ & _ & Hfirst).
  split; [|split; [reflexivity | split; [reflexivity|]]].
  - destruct (Hstrict env Scenario.start) as (evs & Ht & Hr).
    exists evs.
    assert (Hf : rejections evs = ["401 Unauthorized"; "413 Request Entity Too Large"]).
    { cbn [trace Scenario.start app] in Ht. rewrite <- Ht. vm_compute. reflexivity. }
    assert (Hne : rejections evs <> []) by (rewrite Hf; discriminate).
    destruct (Hr Hne) as (thrown & Hin & Hthrow).
    refine (conj Ht (conj Hf (conj Hne (ex_intro _ thrown (conj Hin (conj Hthrow _)))))).
    assert (Hrun : fst (addToCart Scenario.gpu env Scenario.start)
                   = Throw "401 Unauthorized") by (vm_compute; reflexivity).
    rewrite Hrun in Hthrow. injection Hthrow as <-. reflexivity.
  - destruct (Hfirst message (Some "product-in-stock") message env Scenario.start)
      as (_ & _ & _ & Hfile).
    exact (Hfile "product-in-stock" "413 Request Entity Too Large" "401 Unauthorized"
             eq_refl eq_refl eq_refl eq_refl eq_refl eq_refl).
Defined.

(* ================================================================== *)
(** ** The purchase guard *)

Section StateInvariant.

(** An invariant that the events other than the writing of the marker keep,
    and that the guarded writing keeps. *)
Variable I : World -> Prop.

Hypothesis I_record :
  forall w c f, I w -> isGuardWrite c = false -> I (record c f w).

Hypothesis I_mark :
  Invariant I (purchased <- existsSync ;;
               if negb purchased then writeFileSync else ret tt).

Lemma inv_ret {A} (a : A) : Invariant I (ret a).
Proof. intros env w H. exact H. Qed.

Lemma inv_throw {A} e : Invariant I (@throw A e).
Proof. intros env w H. exact H. Qed.

Lemma inv_diverge {A} : Invariant I (@diverge A).
Proof. intros env w H. exact H. Qed.

Lemma inv_bind {A B} (m : M A) (k : A -> M B) :
  Invariant I m -> (forall a, Invariant I (k a)) -> Invariant I (bind m k).
Proof.
  intros Hm Hk env w H. specialize (Hm env w H). unfold bind.
  destruct (m env w) as [[a | e | c | ] w1]; cbn [snd] in *; auto.
  apply Hk. exact Hm.
Qed.

Lemma inv_tryCatch {A} (body : M A) (handler : string -> M A) :
  Invariant I body -> (forall e, Invariant I (handler e)) ->
  Invariant I (tryCatch body handler).
Proof.
  intros Hm Hk env w H. specialize (Hm env w H). unfold tryCatch.
  destruct (body env w) as [[a | e | c | ] w1]; cbn [snd] in *; auto.
  apply Hk. exact Hm.
Qed.

Lemma inv_promiseAll2 (a b : list Call) :
  forallb (fun c => negb (isGuardWrite c)) (promised a b) = true ->
  Invariant I (promiseAll2 a b).
Proof.
  intros Hall env w H.
  apply (extends_keeps (fun c => In c (promised a b)) I w);
    [|apply promiseAll2_extends | exact H].
  intros c Hc w1 f Hw1. apply I_record; [exact Hw1|].
  rewrite forallb_forall in Hall. specialize (Hall c Hc).
  destruct (isGuardWrite c); [discriminate | reflexivity].
Qed.

Lemma inv_records {A} c (m : M A) :
  Records c m -> isGuardWrite c = false -> Invariant I m.
Proof.
  intros Hr Hc env w H. destruct (Hr env w) as (f & ->). apply I_record; assumption.
Qed.

(** The guarded writing, with what follows it. *)
Lemma inv_bind_mark {B} (k : unit -> M B) :
  (forall a, Invariant I (k a)) ->
  Invariant I (purchased <- existsSync ;;
               bind (if negb purchased then writeFileSync else ret tt) k).
Proof.
  intros Hk env w H.
  pose proof (inv_bind _ k I_mark Hk env w H) as Hall.
  rewrite bind_assoc in Hall. exact Hall.
Qed.

End StateInvariant.

Ltac inv_prim :=
  first
    [ apply inv_ret
    | apply inv_throw
    | apply inv_diverge
    | eapply inv_records; [eassumption | apply records_perform | ]
    | eapply inv_records; [eassumption | apply records_quiet | ]
    | eapply inv_records; [eassumption | apply records_query | ]
    | eapply inv_records; [eassumption | apply records_textContent | ]
    | eapply inv_records; [eassumption | apply records_evalTextContent | ]
    | eapply inv_records; [eassumption | apply records_contextCookies | ]
    | eapply inv_records; [eassumption | apply records_mathRandom | ]
    | eapply inv_records; [eassumption | apply records_existsSync | ]
    | eapply inv_records; [eassumption | apply records_processExit | ] ].

Ltac inv_step :=
  match goal with
  | |- Invariant _ (bind existsSync
                      (fun p => bind (if negb p then writeFileSync else ret tt) _)) =>
      eapply inv_bind_mark; [ eassumption | intros ]
  | |- Invariant _ (bind _ _) => apply inv_bind; [ | intros ]
  | |- Invariant _ (tryCatch _ _) => apply inv_tryCatch; [ | intros ]
  | |- Invariant _ (promiseAll2 _ _) =>
      eapply inv_promiseAll2; [eassumption | reflexivity]
  | |- Invariant _ (await _) => cbn [await sendDiscordMessage sendTelegramMessage]
  | |- Invariant _ (if ?b then _ else _) => destruct b
  | |- Invariant _ (match ?x with _ => _ end) => destruct x
  | |- Invariant _ (wait _) => unfold wait
  | |- Invariant _ (logger _ _) => unfold logger
  | |- Invariant _ _ => inv_prim; try reflexivity
  | |- Invariant _ _ => solve [auto]
  end.

Ltac inv_walk := repeat inv_step.

Section Process.

Variable I : World -> Prop.

Hypothesis I_record :
  forall w c f, I w -> isGuardWrite c = false -> I (record c f w).

Hypothesis I_mark :
  Invariant I (purchased <- existsSync ;;
               if negb purchased then writeFileSync else ret tt).

Variable customerInformation : CustomerInformation.
Variable paymentInformation : PaymentInformation.
Variable autoCheckout : bool.
Variable products : list ProductInformation.

Lemma inv_shippingLoop fuel : forall attempt, Invariant I (shippingLoop fuel attempt).
Proof.
  induction fuel as [| fuel IH]; intros attempt; cbn [shippingLoop]; [inv_walk|].
  unfold selectShipping. inv_walk.
Qed.

Lemma inv_checkout fuel :
  forall retrying, Invariant I (checkout customerInformation fuel retrying).
Proof.
  induction fuel as [| fuel IH]; intros retrying; cbn [checkout]; [inv_walk|].
  pose proof (inv_shippingLoop (S fuel) 1). pose proof (IH true).
  unfold checkoutPass, isCartEmpty, changeZipCode, clickCheckoutButton. inv_walk.
Qed.

Lemma inv_submitGuestOrder :
  Invariant I (submitGuestOrder customerInformation paymentInformation autoCheckout).
Proof.
  unfold submitGuestOrder, completeOrderInformation, completeShippingInformation,
    completeContactInformation, completePaymentInformation, readTotal, validateTotal,
    placeOrder.
  inv_walk.
Qed.

Lemma inv_purchaseFlow fuel product :
  Invariant I (purchaseFlow customerInformation paymentInformation autoCheckout fuel product).
Proof.
  pose proof (inv_checkout fuel false). pose proof inv_submitGuestOrder.
  unfold purchaseFlow, goToProductPage, validateProductMatch, addToCart, isInStock,
    hasItemBeenAddedToCart, continueAsGuest.
  inv_walk.
Qed.

Lemma inv_purchaseLoop fuel candidates :
  Invariant I (purchaseLoop customerInformation paymentInformation autoCheckout fuel candidates).
Proof.
  induction candidates as [| product rest IH]; cbn [purchaseLoop]; [inv_walk|].
  pose proof (inv_purchaseFlow fuel product). inv_walk.
Qed.

Lemma inv_pollLoop fuel :
  Invariant I (pollLoop customerInformation paymentInformation autoCheckout products fuel).
Proof.
  induction fuel as [| fuel IH]; cbn [pollLoop]; [inv_walk|].
  pose proof (inv_purchaseLoop (S fuel) products).
  unfold purchaseProduct, backoff. inv_walk.
Qed.

Lemma inv_main fuel :
  Invariant I (main customerInformation paymentInformation autoCheckout products fuel).
Proof.
  pose proof (inv_pollLoop fuel).
  unfold main, shutdown, open, close. inv_walk.
Qed.

Lemma inv_supervisor fuel :
  Invariant I (supervisor customerInformation paymentInformation autoCheckout products fuel).
Proof.
  assert (Hloop : forall n,
            Invariant I (superviseLoop customerInformation paymentInformation
                           autoCheckout products n)).
  { induction n as [| n IH]; cbn [superviseLoop]; [inv_walk|].
    pose proof (inv_main (S n)). inv_walk. }
  pose proof (Hloop fuel). unfold supervisor. inv_walk.
Qed.

End Process.

(** *** The two invariants *)

Lemma written_app a b : written (a ++ b)%list = (written a + written b)%nat.
Proof.
  induction a as [| e a IH]; simpl; [reflexivity|].
  destruct (isGuardWrite (call e)); [destruct (failure e)|]; rewrite IH; reflexivity.
Qed.

Lemma written_le_count evs : (written evs <= count isGuardWrite evs)%nat.
Proof.
  induction evs as [| e evs IH]; simpl; [lia|].
  destruct (isGuardWrite (call e)); [destruct (failure e)|]; lia.
Qed.

Lemma MarkerSet_record w c f :
  MarkerSet w -> isGuardWrite c = false -> MarkerSet (record c f w).
Proof. intros H _. exact H. Qed.

Lemma MarkerSet_mark :
  Invariant MarkerSet (purchased <- existsSync ;;
                       if negb purchased then writeFileSync else ret tt).
Proof.
  intros env w H. unfold MarkerSet in *. unfold bind, existsSync. rewrite H. exact H.
Qed.

Lemma WrittenOnce_record w c f :
  WrittenOnce w -> isGuardWrite c = false -> WrittenOnce (record c f w).
Proof.
  unfold WrittenOnce. intros [Hle Hm] Hc. cbn [record trace purchaseJson].
  rewrite written_app. cbn [written call]. rewrite Hc, Nat.add_0_r.
  split; assumption.
Qed.

Lemma WrittenOnce_mark :
  Invariant WrittenOnce (purchased <- existsSync ;;
                         if negb purchased then writeFileSync else ret tt).
Proof.
  intros env w [Hle Hm]. unfold bind, existsSync.
  destruct (purchaseJson w) eqn:Hp; cbn [negb].
  - apply WrittenOnce_record; [|reflexivity]. split; [exact Hle | intros _; exact Hp].
  - assert (Hzero : written (trace w) = O).
    { destruct (written (trace w)) as [| [| n]]; [reflexivity | | lia].
      specialize (Hm eq_refl). discriminate. }
    unfold writeFileSync, record. cbn [trace purchaseJson].
    match goal with
    | |- context [rejects env ?tr ?c] => destruct (rejects env tr c) as [e | ]
    end; unfold WrittenOnce; cbn [snd trace purchaseJson];
      rewrite !written_app, Hzero; cbn; split; (lia || congruence).
Qed.

(** *** [submitGuestOrder] around its look at the marker *)

Section Guard.

Variable customerInformation : CustomerInformation.
Variable paymentInformation : PaymentInformation.
Variable autoCheckout : bool.

Lemma submitGuestOrder_split env w :
  submitGuestOrder customerInformation paymentInformation autoCheckout env w =
    bind (beforeGuard customerInformation paymentInformation) (atGuard autoCheckout) env w.
Proof.
  unfold submitGuestOrder, beforeGuard, placeOrder, atGuard, afterOrder.
  do 6 (rewrite bind_assoc; apply bind_ext; intros; cbv beta).
  reflexivity.
Qed.

Ltac unfold_beforeGuard :=
  unfold beforeGuard, completeOrderInformation, completeShippingInformation,
    completeContactInformation, completePaymentInformation, readTotal, validateTotal.

Lemma beforeGuard_no_click :
  Counts isOrderClick 0 (beforeGuard customerInformation paymentInformation).
Proof. unfold_beforeGuard. counts_walk. Qed.

Lemma beforeGuard_no_write :
  Counts isGuardWrite 0 (beforeGuard customerInformation paymentInformation).
Proof. unfold_beforeGuard. counts_walk. Qed.

Lemma beforeGuard_no_check :
  Counts isGuardCheck 0 (beforeGuard customerInformation paymentInformation).
Proof. unfold_beforeGuard. counts_walk. Qed.

Lemma beforeGuard_keeps_marker :
  Invariant MarkerSet (beforeGuard customerInformation paymentInformation).
Proof.
  pose proof MarkerSet_record. unfold_beforeGuard. inv_walk.
Qed.

Lemma afterOrder_no_click : Counts isOrderClick 0 afterOrder.
Proof. unfold afterOrder. counts_walk. Qed.

Lemma follows_none guard target previous evs :
  count target evs = O -> follows guard target previous evs = true.
Proof.
  revert previous. induction evs as [| e evs IH]; intros previous; simpl; [reflexivity|].
  destruct (target (call e)); [discriminate|]. intros H. apply IH. exact H.
Qed.

Lemma follows_app guard target previous a b :
  count target a = O ->
  (forall previous', follows guard target previous' b = true) ->
  follows guard target previous (a ++ b)%list = true.
Proof.
  revert previous. induction a as [| e a IH]; intros previous; simpl; [auto|].
  destruct (target (call e)); [discriminate|]. intros Ha Hb. apply IH; assumption.
Qed.

(** With the marker there, the look at it ends the process with status 2. *)
Lemma atGuard_marker_set placeOrderFound env w :
  purchaseJson w = true ->
  atGuard autoCheckout placeOrderFound env w =
    (Exit 2,
     {| trace := trace w ++
          [{| call := ExistsSync purchaseFile; failure := None |};
           {| call := Log Warn "Purchase already completed, ending process";
              failure := None |};
           {| call := ProcessExit 2; failure := None |}];
        purchaseJson := true |}).
Proof.
  intros H. unfold atGuard, bind at 1, existsSync. rewrite H.
  unfold bind, logger, quiet, processExit, record. cbn [trace purchaseJson].
  rewrite H, <- !app_assoc. reflexivity.
Qed.

(** From the look at the marker on, a click on the place-order button comes
    right after the look. *)
Lemma atGuard_follows placeOrderFound env w previous :
  exists evs,
    trace (snd (atGuard autoCheckout placeOrderFound env w)) = (trace w ++ evs)%list /\
    follows isGuardCheck isOrderClick previous evs = true.
Proof.
  destruct (purchaseJson w) eqn:Hp.
  - rewrite (atGuard_marker_set _ _ _ Hp). eexists. split; reflexivity.
  - unfold atGuard, bind at 1, existsSync. rewrite Hp.
    rewrite (bind_ok _ _ _ _ tt (record (ExistsSync purchaseFile) None w) eq_refl).
    destruct (autoCheckout && placeOrderFound)%bool.
    + unfold bind, perform.
      destruct (rejects env (trace (record (ExistsSync purchaseFile) None w))
                  (Click placeOrderButton)) as [e | ].
      * cbn [snd record trace]. rewrite <- app_assoc. eexists. split; reflexivity.
      * match goal with
        | |- context [afterOrder env ?w2] =>
            destruct (afterOrder_no_click env w2) as (evs & Ht & Hc)
        end.
        rewrite Ht. cbn [record trace]. rewrite <- !app_assoc. eexists.
        split; [reflexivity|]. cbn. apply follows_none. lia.
    + rewrite (bind_ok _ _ _ _ tt (record (ExistsSync purchaseFile) None w) eq_refl).
      destruct (afterOrder_no_click env (record (ExistsSync purchaseFile) None w))
        as (evs & Ht & Hc).
      rewrite Ht. cbn [record trace]. rewrite <- !app_assoc. eexists.
      split; [reflexivity|]. cbn. apply follows_none. lia.
Qed.

(** In every run of [submitGuestOrder], a click on the place-order button
    comes right after the look at the marker. *)
Lemma submitGuestOrder_guarded env w :
  exists evs,
    trace (snd (submitGuestOrder customerInformation paymentInformation autoCheckout env w))
      = (trace w ++ evs)%list /\
    follows isGuardCheck isOrderClick false evs = true.
Proof.
  rewrite submitGuestOrder_split.
  destruct (beforeGuard_no_click env w) as (evs1 & Ht1 & Hc1).
  unfold bind.
  destruct (beforeGuard customerInformation paymentInformation env w)
    as [[found | e | c | ] w1]; cbn [snd] in *;
    try (exists evs1; split; [exact Ht1 | apply follows_none; lia]).
  assert (Hall : forall previous, exists evs2,
            trace (snd (atGuard autoCheckout found env w1)) = (trace w1 ++ evs2)%list /\
            follows isGuardCheck isOrderClick previous evs2 = true)
    by (intros; apply atGuard_follows).
  destruct (Hall false) as (evs2 & Ht2 & _).
  exists (evs1 ++ evs2)%list. rewrite Ht2, Ht1, app_assoc. split; [reflexivity|].
  apply follows_app; [lia|]. intros previous.
  destruct (Hall previous) as (evs2' & Ht2' & Hf2). rewrite Ht2 in Ht2'.
  apply app_inv_head in Ht2'. subst evs2'. exact Hf2.
Qed.

(** With the marker there from the start, [submitGuestOrder] places no order
    and writes nothing: it stops before its look at the marker, or ends the
    process with status 2 at that look. *)
Lemma submitGuestOrder_marker_set env w :
  purchaseJson w = true ->
  let r := submitGuestOrder customerInformation paymentInformation autoCheckout env w in
  exists evs,
    trace (snd r) = (trace w ++ evs)%list /\
    count isOrderClick evs = O /\ written evs = O /\ purchaseJson (snd r) = true /\
    ((fst r = Exit 2 /\ count isGuardCheck evs = 1%nat) \/
     (fst r <> Ok tt /\ count isGuardCheck evs = O)).
Proof.
  intros Hp r. subst r. rewrite submitGuestOrder_split.
  destruct (beforeGuard_no_click env w) as (evs1 & Ht1 & Hc1).
  destruct (beforeGuard_no_write env w) as (evs1' & Ht1' & Hw1).
  rewrite Ht1 in Ht1'. apply app_inv_head in Ht1'. subst evs1'.
  destruct (beforeGuard_no_check env w) as (evs1' & Ht1' & Hg1).
  rewrite Ht1 in Ht1'. apply app_inv_head in Ht1'. subst evs1'.
  pose proof (written_le_count evs1) as Hle.
  pose proof (beforeGuard_keeps_marker env w Hp) as Hkeep. unfold MarkerSet in Hkeep.
  unfold bind.
  destruct (beforeGuard customerInformation paymentInformation env w)
    as [[found | e | c | ] w1]; cbn [fst snd] in *;
    try (exists evs1; repeat split; try assumption; try lia;
         right; split; [discriminate | lia]).
  rewrite (atGuard_marker_set _ _ _ Hkeep). cbn [fst snd trace purchaseJson].
  rewrite Ht1, <- app_assoc. eexists. split; [reflexivity|].
  rewrite !count_app, written_app. cbn.
  repeat split; try lia. left. split; [reflexivity | lia].
Qed.

End Guard.

(** C2.  In every run of [submitGuestOrder], a click on the place-order
    button (made only once the auto-checkout section is enabled) comes right
    after the look at the purchase marker.  When the marker is there at that
    look, the step ends there: the process exits with status 2, the status
    of a purchase already completed, and neither the click nor a write is
    made; so it is when the marker is there from the start of the step,
    unless the step fails before the look.  And in a run of the whole
    process, from [pm2.connect] on, the marker is written at most once: the
    write is skipped when the marker is there. *)
Theorem C2_purchase_guard customerInformation paymentInformation autoCheckout :
  (forall env w,
     exists evs,
       trace (snd (submitGuestOrder customerInformation paymentInformation
                     autoCheckout env w)) = (trace w ++ evs)%list /\
       follows isGuardCheck isOrderClick false evs = true)
  /\ (forall env w placeOrderFound w1,
        beforeGuard customerInformation paymentInformation env w
          = (Ok placeOrderFound, w1) ->
        purchaseJson w1 = true ->
        submitGuestOrder customerInformation paymentInformation autoCheckout env w =
          (Exit 2,
           {| trace := trace w1 ++
                [{| call := ExistsSync purchaseFile; failure := None |};
                 {| call := Log Warn "Purchase already completed, ending process";
                    failure := None |};
                 {| call := ProcessExit 2; failure := None |}];
              purchaseJson := true |}))
  /\ (forall env w,
        purchaseJson w = true ->
        let r := submitGuestOrder customerInformation paymentInformation
                   autoCheckout env w in
        exists evs,
          trace (snd r) = (trace w ++ evs)%list /\
          count isOrderClick evs = O /\ written evs = O /\ purchaseJson (snd r) = true /\
          ((fst r = Exit 2 /\ count isGuardCheck evs = 1%nat) \/
           (fst r <> Ok tt /\ count isGuardCheck evs = O)))
  /\ (forall products fuel env w,
        written (trace w) = O ->
        (written (trace (snd (supervisor customerInformation paymentInformation
                                autoCheckout products fuel env w))) <= 1)%nat).
Proof.
  split; [|split; [|split]].
  - apply submitGuestOrder_guarded.
  - intros env w found w1 Hbefore Hset.
    rewrite submitGuestOrder_split, (bind_ok _ _ _ _ _ _ Hbefore).
    apply atGuard_marker_set. exact Hset.
  - apply submitGuestOrder_marker_set.
  - intros products fuel env w Hw.
    apply (inv_supervisor WrittenOnce WrittenOnce_record WrittenOnce_mark
             customerInformation paymentInformation autoCheckout products fuel env w).
    split; [lia | intros H; rewrite Hw in H; discriminate].
Qed.

(** C2 on the calm page: with the marker there, [submitGuestOrder] goes up
    to its look at the marker and ends the process there; and the whole
    process, started without the marker, writes it at most once. *)
Lemma C2_purchase_guard_witness :
  let w1 := snd (beforeGuard Scenario.customer Scenario.payment
                   Scenario.calm Scenario.purchased) in
  beforeGuard Scenario.customer Scenario.payment Scenario.calm Scenario.purchased
    = (Ok true, w1) /\
  purchaseJson w1 = true /\
  fst (submitGuestOrder Scenario.customer Scenario.payment true
         Scenario.calm Scenario.purchased) = Exit 2 /\
  purchaseJson Scenario.purchased = true /\
  (let r := submitGuestOrder Scenario.customer Scenario.payment true
              Scenario.calm Scenario.purchased in
   exists evs,
     trace (snd r) = (trace Scenario.purchased ++ evs)%list /\
     count isOrderClick evs = O /\ written evs = O /\ purchaseJson (snd r) = true /\
     ((fst r = Exit 2 /\ count isGuardCheck evs = 1%nat) \/
      (fst r <> Ok tt /\ count isGuardCheck evs = O))) /\
  written (trace Scenario.start) = O /\
  (written (trace (snd (supervisor Scenario.customer Scenario.payment true
                          [Scenario.gpu] 3 Scenario.calm Scenario.start))) <= 1)%nat.
Proof.
  intros w1.
  assert (H1 : beforeGuard Scenario.customer Scenario.payment Scenario.calm
                 Scenario.purchased = (Ok true, w1)) by (vm_compute; reflexivity).
  assert (H2 : purchaseJson w1 = true) by (vm_compute; reflexivity).
  pose proof (C2_purchase_guard Scenario.customer Scenario.payment true)
    as (_ & Hlook & Hset & Honce).
  refine (conj H1 (conj H2 (conj _
           (conj eq_refl
              (conj (Hset Scenario.calm Scenario.purchased eq_refl)
                 (conj eq_refl
                    (Honce [Scenario.gpu] 3%nat Scenario.calm Scenario.start eq_refl))))))).
  rewrite (Hlook Scenario.calm Scenario.purchased true w1 H1 H2). reflexivity.
Defined.

(** The whole process on the calm page, with the auto-checkout section
    enabled: the order is placed by one click, which comes right after the
    look at the marker, the marker is written once, and the process ends. *)
Example process_on_the_calm_page :
  let r := supervisor Scenario.customer Scenario.payment true [Scenario.gpu] 3
             Scenario.calm Scenario.start in
  fst r = Ok tt /\
  count isOrderClick (trace (snd r)) = 1%nat /\
  follows isGuardCheck isOrderClick false (trace (snd r)) = true /\
  written (trace (snd r)) = 1%nat /\
  purchaseJson (snd r) = true.
Proof. vm_compute. repeat split; reflexivity. Qed.

(** The source as it stands, with the section commented out: no click is
    made on the place-order button, and the marker is written all the
    same. *)
Example process_without_auto_checkout :
  let r := supervisor Scenario.customer Scenario.payment false [Scenario.gpu] 3
             Scenario.calm Scenario.start in
  fst r = Ok tt /\
  count isOrderClick (trace (snd r)) = O /\
  written (trace (snd r)) = 1%nat.
Proof. vm_compute. repeat split; reflexivity. Qed.

(** With the marker there at the start, the process sleeps and exits with
    status 2. *)
Example process_already_purchased :
  let r := supervisor Scenario.customer Scenario.payment true [Scenario.gpu] 3
             Scenario.calm Scenario.purchased in
  fst r = Exit 2 /\
  calls (trace (snd r)) =
    [Pm2Connect; FirefoxLaunch; ExistsSync purchaseFile;
     Log Warn "Purchase completed, sleeping for 2 days"; Wait 172800000;
     ProcessExit 2].
Proof. vm_compute. repeat split; reflexivity. Qed.

(* ================================================================== *)
(** ** The backoff of the poll loop *)

(** *** Shifts and rounding of [SpecFloat] *)

Lemma digits2_pos_bounds p :
  2 ^ (Zpos (digits2_pos p) - 1) <= Zpos p < 2 ^ Zpos (digits2_pos p).
Proof.
  induction p as [p IH | p IH | ]; cbn [digits2_pos].
  - rewrite Pos2Z.inj_succ, (Pos2Z.inj_xI p).
    replace (Z.succ (Zpos (digits2_pos p)) - 1) with (Z.succ (Zpos (digits2_pos p) - 1)) by lia.
    rewrite !Z.pow_succ_r by lia. lia.
  - rewrite Pos2Z.inj_succ, (Pos2Z.inj_xO p).
    replace (Z.succ (Zpos (digits2_pos p)) - 1) with (Z.succ (Zpos (digits2_pos p) - 1)) by lia.
    rewrite !Z.pow_succ_r by lia. lia.
  - simpl. lia.
Qed.

Lemma digits2_pos_le p n : 0 <= n -> Zpos p < 2 ^ n -> Zpos (digits2_pos p) <= n.
Proof.
  intros Hn Hp. destruct (Z.le_gt_cases (Zpos (digits2_pos p)) n) as [H | H]; [exact H|].
  exfalso. pose proof (digits2_pos_bounds p) as [Hlow _].
  assert (2 ^ n <= 2 ^ (Zpos (digits2_pos p) - 1)) by (apply Z.pow_le_mono_r; lia).
  lia.
Qed.

Lemma shr_1_m mrs : 0 <= shr_m mrs -> shr_m (shr_1 mrs) = shr_m mrs / 2.
Proof.
  destruct mrs as [m r s]. cbn [shr_m]. intros Hm.
  rewrite <- Z.div2_div.
  destruct m as [| [p | p | ] | p]; try reflexivity; lia.
Qed.

Lemma iter_pos_shr_m p :
  forall mrs, 0 <= shr_m mrs ->
    shr_m (iter_pos shr_1 p mrs) = shr_m mrs / 2 ^ Zpos p.
Proof.
  induction p as [p IH | p IH | ]; intros mrs Hm; cbn [iter_pos].
  - assert (H1 : 0 <= shr_m (shr_1 mrs)).
    { rewrite shr_1_m by exact Hm. apply Z.div_pos; lia. }
    assert (H2 : 0 <= shr_m (iter_pos shr_1 p (shr_1 mrs))).
    { rewrite IH by exact H1. apply Z.div_pos; [exact H1 | apply Z.pow_pos_nonneg; lia]. }
    rewrite IH by exact H2. rewrite IH by exact H1. rewrite shr_1_m by exact Hm.
    rewrite !Z.div_div by (try apply Z.pow_pos_nonneg; lia).
    f_equal. rewrite (Pos2Z.inj_xI p).
    replace (2 * Zpos p + 1) with (1 + Zpos p + Zpos p) by lia.
    rewrite !Z.pow_add_r by lia. rewrite Z.pow_1_r. ring.
  - assert (H2 : 0 <= shr_m (iter_pos shr_1 p mrs)).
    { rewrite IH by exact Hm. apply Z.div_pos; [exact Hm | apply Z.pow_pos_nonneg; lia]. }
    rewrite IH by exact H2. rewrite IH by exact Hm.
    rewrite !Z.div_div by (try apply Z.pow_pos_nonneg; lia).
    f_equal. rewrite (Pos2Z.inj_xO p).
    replace (2 * Zpos p) with (Zpos p + Zpos p) by lia.
    rewrite !Z.pow_add_r by lia. ring.
  - rewrite shr_1_m by exact Hm. reflexivity.
Qed.

Lemma shr_record_of_loc_m m l : shr_m (shr_record_of_loc m l) = m.
Proof. destruct l as [| []]; reflexivity. Qed.

(** [shr_fexp] divides the mantissa by a power of two and adds its exponent
    to the exponent. *)
Lemma shr_fexp_m m e l :
  0 <= m ->
  let k := Z.max 0 (fexp prec emax (Zdigits2 m + e) - e) in
  shr_m (fst (shr_fexp prec emax m e l)) = m / 2 ^ k /\
  snd (shr_fexp prec emax m e l) = e + k.
Proof.
  intros Hm k. subst k. unfold shr_fexp, shr.
  destruct (fexp prec emax (Zdigits2 m + e) - e) as [| p | p]; cbn [fst snd].
  - rewrite shr_record_of_loc_m, Z.div_1_r. split; [reflexivity | lia].
  - rewrite iter_pos_shr_m by (rewrite shr_record_of_loc_m; exact Hm).
    rewrite shr_record_of_loc_m. replace (Z.max 0 (Zpos p)) with (Zpos p) by lia.
    split; reflexivity.
  - rewrite shr_record_of_loc_m. replace (Z.max 0 (Zneg p)) with 0 by lia.
    rewrite Z.div_1_r. split; [reflexivity | lia].
Qed.

Lemma round_nearest_even_bounds m l :
  m <= round_nearest_even m l <= m + 1.
Proof.
  unfold round_nearest_even. destruct l as [| [ | | ]]; try lia.
  destruct (Z.even m); lia.
Qed.

(** The floor of a rounded positive number [P * 2^E] is below every integer
    bound [B] that [P * 2^E] stays away from by one unit of the last place
    kept. *)
Lemma floor_round_aux P E B :
  E <= 0 -> 0 < B ->
  Zpos P + 2 ^ Z.max 0 (fexp prec emax (Zdigits2 (Zpos P) + E) - E) < B * 2 ^ (- E) ->
  0 <= floor (binary_round_aux prec emax false (Zpos P) E loc_Exact) < B.
Proof.
  intros HE HB Hbound. unfold binary_round_aux.
  set (k := Z.max 0 (fexp prec emax (Zdigits2 (Zpos P) + E) - E)) in *.
  destruct (shr_fexp_m (Zpos P) E loc_Exact ltac:(lia)) as [Hm1 He1]. fold k in Hm1, He1.
  destruct (shr_fexp prec emax (Zpos P) E loc_Exact) as [mrs1 e1]. cbn [fst snd] in Hm1, He1.
  pose proof (round_nearest_even_bounds (shr_m mrs1) (loc_of_shr_record mrs1)) as Hm2.
  set (m2 := round_nearest_even (shr_m mrs1) (loc_of_shr_record mrs1)) in *.
  assert (Hk : 0 <= k) by (unfold k; lia).
  assert (Hpk : 0 < 2 ^ k) by (apply Z.pow_pos_nonneg; lia).
  assert (Hm1' : 0 <= shr_m mrs1 /\ shr_m mrs1 * 2 ^ k <= Zpos P).
  { rewrite Hm1. split; [apply Z.div_pos; lia|].
    rewrite Z.mul_comm. apply Z.mul_div_le. exact Hpk. }
  assert (Hm2pos : 0 <= m2) by lia.
  destruct (shr_fexp_m m2 e1 loc_Exact Hm2pos) as [Hm3 He3].
  set (k2 := Z.max 0 (fexp prec emax (Zdigits2 m2 + e1) - e1)) in *.
  destruct (shr_fexp prec emax m2 e1 loc_Exact) as [mrs2 e3]. cbn [fst snd] in Hm3, He3.
  assert (Hk2 : 0 <= k2) by (unfold k2; lia).
  assert (Hpk2 : 0 < 2 ^ k2) by (apply Z.pow_pos_nonneg; lia).
  assert (Hm3' : 0 <= shr_m mrs2 /\ shr_m mrs2 * 2 ^ k2 <= m2).
  { rewrite Hm3. split; [apply Z.div_pos; lia|].
    rewrite Z.mul_comm. apply Z.mul_div_le. exact Hpk2. }
  (* the scaled bound on the last mantissa *)
  assert (Hscaled : shr_m mrs2 * (2 ^ k2 * 2 ^ k) < B * 2 ^ (- E)).
  { apply Z.le_lt_trans with (Zpos P + 2 ^ k); [|exact Hbound].
    apply Z.le_trans with (m2 * 2 ^ k); [|nia].
    rewrite Z.mul_assoc. apply Z.mul_le_mono_nonneg_r; lia. }
  destruct (shr_m mrs2) as [| m3 | m3]; cbn [floor]; try lia.
  destruct (e3 <=? emax - prec); cbn [floor]; try lia.
  cbn [cond_Zopp]. subst e3 e1.
  destruct (0 <=? E + k + k2) eqn:Hsign.
  - apply Z.leb_le in Hsign. split; [apply Z.mul_nonneg_nonneg; [lia | apply Z.pow_nonneg; lia]|].
    assert (Hpow : 2 ^ k2 * 2 ^ k = 2 ^ (E + k + k2) * 2 ^ (- E)).
    { rewrite <- !Z.pow_add_r by lia. f_equal. lia. }
    rewrite Hpow, Z.mul_assoc in Hscaled.
    apply Z.mul_lt_mono_pos_r in Hscaled; [exact Hscaled | apply Z.pow_pos_nonneg; lia].
  - apply Z.leb_gt in Hsign.
    assert (Hp3 : 0 < 2 ^ (- (E + k + k2))) by (apply Z.pow_pos_nonneg; lia).
    split; [apply Z.div_pos; lia|].
    apply Z.div_lt_upper_bound; [exact Hp3|].
    assert (Hpow : 2 ^ (- E) = 2 ^ (- (E + k + k2)) * (2 ^ k2 * 2 ^ k)).
    { rewrite <- !Z.pow_add_r by lia. f_equal. lia. }
    rewrite Hpow in Hscaled.
    assert (Hpos : 0 < 2 ^ k2 * 2 ^ k) by lia.
    replace (B * (2 ^ (- (E + k + k2)) * (2 ^ k2 * 2 ^ k)))
      with ((2 ^ (- (E + k + k2)) * B) * (2 ^ k2 * 2 ^ k)) in Hscaled by ring.
    apply Z.mul_lt_mono_pos_r in Hscaled; assumption.
Qed.

(** A number of the unit interval is 0 or [m * 2^e] with [m < 2^53] and
    [e <= -53]. *)
Lemma inUnitInterval_finite s m e :
  inUnitInterval (S754_finite s m e) = true ->
  s = false /\ Zpos m < 2 ^ 53 /\ -1074 <= e <= -53.
Proof.
  unfold inUnitInterval. rewrite !andb_true_iff. intros [[Hvalid Hle] Hlt].
  assert (Hs : s = false).
  { destruct s; [discriminate | reflexivity]. }
  subst s. split; [reflexivity|].
  unfold valid_binary, bounded, canonical_mantissa in Hvalid.
  apply andb_true_iff in Hvalid. destruct Hvalid as [Hcanon _].
  apply Z.eqb_eq in Hcanon. unfold fexp, emin, prec, emax in Hcanon.
  pose proof (digits2_pos_bounds m) as [Hlow Hup].
  assert (Hd : Zpos (digits2_pos m) <= 53) by lia.
  assert (Hm : Zpos m < 2 ^ 53).
  { apply Z.lt_le_trans with (2 ^ Zpos (digits2_pos m)); [exact Hup|].
    apply Z.pow_le_mono_r; lia. }
  split; [exact Hm|]. split; [lia|].
  change one with (S754_finite false 4503599627370496 (-52)) in Hlt.
  unfold lt, SFltb, SFcompare in Hlt.
  destruct (Z.compare e (-52)) eqn:Hcmp; try discriminate.
  - apply Z.compare_eq in Hcmp. subst e. exfalso.
    rewrite Pos.compare_cont_spec in Hlt. cbn [Pos.switch_Eq] in Hlt.
    destruct (Pos.compare m 4503599627370496) eqn:Hc; try discriminate.
    apply (Pos2Z.pos_lt_pos m 4503599627370496) in Hc.
    assert (Hd53 : Zpos (digits2_pos m) = 53) by lia.
    rewrite Hd53 in Hlow. change (2 ^ (53 - 1)) with 4503599627370496 in Hlow. lia.
  - change (e < -52) in Hcmp. lia.
Qed.

(** *** [random(10000, 30000)] *)

Lemma ofZ_20001 : ofZ (30000 - 10000 + 1) = S754_finite false 5497833016786944 (-38).
Proof. vm_compute. reflexivity. Qed.

(** The largest number below 1. *)
Lemma random_at_largest :
  random 10000 30000 (S754_finite false 9007199254740991 (-53)) = 30000.
Proof. vm_compute. reflexivity. Qed.

Lemma random_bounds rand :
  inUnitInterval rand = true -> 10000 <= random 10000 30000 rand <= 30000.
Proof.
  intros Hin. unfold random. rewrite ofZ_20001.
  destruct rand as [s | s | | s mx ex].
  - cbn. lia.
  - destruct s; discriminate.
  - discriminate.
  - destruct (inUnitInterval_finite _ _ _ Hin) as (-> & Hmx & Hex).
    cbn [SFmul xorb].
    destruct (Z.eq_dec ex (-53)) as [He | He];
      [destruct (Z.eq_dec (Zpos mx) 9007199254740991) as [Hm | Hm]|].
    + (* the one number whose product is within a unit of the last place of 20001 *)
      subst ex. injection Hm as ->.
      change (10000 <= random 10000 30000 (S754_finite false 9007199254740991 (-53)) <= 30000).
      rewrite random_at_largest. lia.
    + enough (0 <= floor (binary_round_aux prec emax false
                          (Zpos (mx * 5497833016786944)) (ex + -38) loc_Exact) < 20001) by lia.
      subst ex. apply floor_round_aux; [lia | lia |].
      rewrite Pos2Z.inj_mul.
      assert (Hd : Zdigits2 (Zpos mx * 5497833016786944) <= 106).
      { rewrite <- Pos2Z.inj_mul. cbn [Zdigits2]. apply digits2_pos_le; [lia|].
        rewrite Pos2Z.inj_mul. change (2 ^ 106) with (2 ^ 53 * 2 ^ 53).
        change (2 ^ 53) with 9007199254740992 in *. nia. }
      set (k := Z.max 0 _).
      assert (Hk : 0 <= k <= 53).
      { subst k. unfold fexp, emin, prec, emax. lia. }
      assert (H2k : 2 ^ k <= 2 ^ 53) by (apply Z.pow_le_mono_r; lia).
      change (2 ^ 53) with 9007199254740992 in *.
      change (2 ^ (- (-53 + -38))) with 2475880078570760549798248448. lia.
    + enough (0 <= floor (binary_round_aux prec emax false
                          (Zpos (mx * 5497833016786944)) (ex + -38) loc_Exact) < 20001) by lia.
      apply floor_round_aux; [lia | lia |].
      rewrite Pos2Z.inj_mul.
      assert (Hd : Zdigits2 (Zpos mx * 5497833016786944) <= 106).
      { rewrite <- Pos2Z.inj_mul. cbn [Zdigits2]. apply digits2_pos_le; [lia|].
        rewrite Pos2Z.inj_mul. change (2 ^ 106) with (2 ^ 53 * 2 ^ 53).
        change (2 ^ 53) with 9007199254740992 in *. nia. }
      set (k := Z.max 0 _).
      assert (Hk : 0 <= k <= 53).
      { subst k. unfold fexp, emin, prec, emax. lia. }
      assert (H2k : 2 ^ k <= 2 ^ 53) by (apply Z.pow_le_mono_r; lia).
      replace (- (ex + -38)) with (92 + (- ex - 54)) by lia.
      rewrite Z.pow_add_r by lia.
      assert (Ht : 0 < 2 ^ (- ex - 54)) by (apply Z.pow_pos_nonneg; lia).
      change (2 ^ 53) with 9007199254740992 in *.
      change (2 ^ 92) with 4951760157141521099596496896.
      nia.
Qed.

(** C9, counterexample.  The claim has the wait strictly below 30 seconds.
    When [Math.random()] returns 0.999969482421875, which is [1 - 2^-15],
    [random(10000, 30000)] is 30000, and the poll loop waits 30 seconds. *)
Lemma C9_counterexample :
  let rand := parseFloat "0.999969482421875" in
  inUnitInterval rand = true /\
  random 10000 30000 rand = 30000 /\
  ~ (random 10000 30000 rand < 30000) /\
  calls (trace (snd (backoff (Scenario.withRandom rand) Scenario.start)))
    = [MathRandom;
       Log Warn "Purchase not completed, waiting 30000 ms before retrying";
       Wait 30000].
Proof. vm_compute. repeat split; try reflexivity. discriminate. Qed.

(** C9, amended.  Whatever [Math.random()] returns, a binary64 number at
    least 0 and less than 1, the wait chosen by the poll loop after an
    unsuccessful attempt lies in the closed range from 10000 to 30000
    milliseconds: at least 10 seconds and at most 30 seconds, 30 seconds
    included. *)
Theorem C9_backoff_in_closed_range env w :
  inUnitInterval (randomOf env (trace w)) = true ->
  exists ms,
    ms = random 10000 30000 (randomOf env (trace w)) /\
    10000 <= ms <= 30000 /\
    backoff env w =
      (Ok tt,
       {| trace := trace w ++
            [{| call := MathRandom; failure := None |};
             {| call := Log Warn ("Purchase not completed, waiting " ++ showZ ms
                                  ++ " ms before retrying");
                failure := None |};
             {| call := Wait ms; failure := None |}];
          purchaseJson := purchaseJson w |}).
Proof.
  intros Hin. exists (random 10000 30000 (randomOf env (trace w))).
  split; [reflexivity|]. split; [apply random_bounds; exact Hin|].
  unfold backoff, bind, mathRandom, logger, wait, quiet, record.
  cbn [trace purchaseJson]. rewrite <- !app_assoc. reflexivity.
Qed.

(** C9 on the calm page, where [Math.random()] returns 0.5: the wait is of
    20000 milliseconds. *)
Lemma C9_backoff_in_closed_range_witness :
  inUnitInterval (randomOf Scenario.calm (trace Scenario.start)) = true /\
  exists ms,
    ms = random 10000 30000 (randomOf Scenario.calm (trace Scenario.start)) /\
    10000 <= ms <= 30000 /\
    backoff Scenario.calm Scenario.start =
      (Ok tt,
       {| trace := trace Scenario.start ++
            [{| call := MathRandom; failure := None |};
             {| call := Log Warn ("Purchase not completed, waiting " ++ showZ ms
                                  ++ " ms before retrying");
                failure := None |};
             {| call := Wait ms; failure := None |}];
          purchaseJson := purchaseJson Scenario.start |}).
Proof.
  assert (H : inUnitInterval (randomOf Scenario.calm (trace Scenario.start)) = true)
    by (vm_compute; reflexivity).
  exact (conj H (C9_backoff_in_closed_range Scenario.calm Scenario.start H)).
Defined.

Example random_at_half : random 10000 30000 (parseFloat "0.5") = 20000.
Proof. vm_compute. reflexivity. Qed.

Example random_at_zero : random 10000 30000 zero = 10000.
Proof. vm_compute. reflexivity. Qed.

(* ================================================================== *)
(** * The workflow as a whole *)

(** ** Invariants that hold on some outsides only *)

Section KeepsRules.

Variable E : Env -> Prop.
Variable I : World -> Prop.

Lemma keeps_ret {A} (a : A) : Keeps E I (ret a).
Proof. intros env w _ H. exact H. Qed.

Lemma keeps_throw {A} e : Keeps E I (@throw A e).
Proof. intros env w _ H. exact H. Qed.

Lemma keeps_diverge {A} : Keeps E I (@diverge A).
Proof. intros env w _ H. exact H. Qed.

Lemma keeps_bind {A B} (m : M A) (k : A -> M B) :
  Keeps E I m -> (forall a, Keeps E I (k a)) -> Keeps E I (bind m k).
Proof.
  intros Hm Hk env w He H. specialize (Hm env w He H). unfold bind.
  destruct (m env w) as [[a | e | c | ] w1]; cbn [snd] in *; auto.
  apply Hk; assumption.
Qed.

Lemma keeps_tryCatch {A} (body : M A) (handler : string -> M A) :
  Keeps E I body -> (forall e, Keeps E I (handler e)) ->
  Keeps E I (tryCatch body handler).
Proof.
  intros Hm Hk env w He H. specialize (Hm env w He H). unfold tryCatch.
  destruct (body env w) as [[a | e | c | ] w1]; cbn [snd] in *; auto.
  apply Hk; assumption.
Qed.

Lemma keeps_promiseAll2 (a b : list Call) :
  Forall (fun c => forall w f, I w -> I (record c f w)) (promised a b) ->
  Keeps E I (promiseAll2 a b).
Proof.
  intros Hall env w _ H.
  apply (extends_keeps (fun c => In c (promised a b)) I w);
    [|apply promiseAll2_extends | exact H].
  intros c Hc. rewrite Forall_forall in Hall. apply Hall, Hc.
Qed.

Lemma keeps_records {A} c (m : M A) :
  Records c m -> (forall w f, I w -> I (record c f w)) -> Keeps E I m.
Proof.
  intros Hr Hc env w _ H. destruct (Hr env w) as (f & ->). apply Hc. exact H.
Qed.

End KeepsRules.

(** One step of the walk through a computation: a call leaves the goal that
    the invariant survives its recording, which [side] is to solve. *)
Ltac keeps_prim :=
  first
    [ apply keeps_ret
    | apply keeps_throw
    | apply keeps_diverge
    | eapply keeps_records; [apply records_perform | ]
    | eapply keeps_records; [apply records_quiet | ]
    | eapply keeps_records; [apply records_query | ]
    | eapply keeps_records; [apply records_textContent | ]
    | eapply keeps_records; [apply records_evalTextContent | ]
    | eapply keeps_records; [apply records_contextCookies | ]
    | eapply keeps_records; [apply records_mathRandom | ]
    | eapply keeps_records; [apply records_existsSync | ]
    | eapply keeps_records; [apply records_processExit | ] ].

Ltac keeps_step side :=
  match goal with
  | |- Keeps _ _ (bind _ _) => apply keeps_bind; [ | intros ]
  | |- Keeps _ _ (tryCatch _ _) => apply keeps_tryCatch; [ | intros ]
  | |- Keeps _ _ (promiseAll2 _ _) =>
      apply keeps_promiseAll2; promised_calls ltac:(solve [side])
  | |- Keeps _ _ (await _) => cbn [await sendDiscordMessage sendTelegramMessage]
  | |- Keeps _ _ (if ?b then _ else _) => destruct b
  | |- Keeps _ _ (match ?x with _ => _ end) => destruct x
  | |- Keeps _ _ (wait _) => unfold wait
  | |- Keeps _ _ (logger _ _) => unfold logger
  | |- Keeps _ _ _ => keeps_prim; try solve [side]
  | |- Keeps _ _ _ => solve [auto]
  end.

Ltac keeps_walk side := repeat keeps_step side.

(** ** The purchase flow keeps what its calls keep *)

Section Flow.

Variable E : Env -> Prop.
Variable I : World -> Prop.

Variable customerInformation : CustomerInformation.
Variable paymentInformation : PaymentInformation.
Variable autoCheckout : bool.
Variable products : list ProductInformation.

(** The calls of the flow keep the invariant, and so does the end of
    [submitGuestOrder], from its look at the marker file on. *)
Hypothesis I_flow :
  forall c, isFlowCall c = true -> forall w f, I w -> I (record c f w).

Hypothesis K_guard : forall found, Keeps E I (atGuard autoCheckout found).

Ltac flow_walk := keeps_walk ltac:(apply I_flow; reflexivity).

Lemma keeps_shippingLoop fuel : forall attempt, Keeps E I (shippingLoop fuel attempt).
Proof.
  induction fuel as [| fuel IH]; intros attempt; cbn [shippingLoop]; [flow_walk|].
  unfold selectShipping. flow_walk.
Qed.

Lemma keeps_checkout fuel :
  forall retrying, Keeps E I (checkout customerInformation fuel retrying).
Proof.
  induction fuel as [| fuel IH]; intros retrying; cbn [checkout]; [flow_walk|].
  pose proof (keeps_shippingLoop (S fuel) 1). pose proof (IH true).
  unfold checkoutPass, isCartEmpty, changeZipCode, clickCheckoutButton. flow_walk.
Qed.

Lemma keeps_beforeGuard :
  Keeps E I (beforeGuard customerInformation paymentInformation).
Proof.
  unfold beforeGuard, completeOrderInformation, completeShippingInformation,
    completeContactInformation, completePaymentInformation, readTotal, validateTotal.
  flow_walk.
Qed.

Lemma keeps_submitGuestOrder :
  Keeps E I (submitGuestOrder customerInformation paymentInformation autoCheckout).
Proof.
  intros env w He Hw. rewrite submitGuestOrder_split.
  revert env w He Hw. apply keeps_bind; [apply keeps_beforeGuard | apply K_guard].
Qed.

Lemma keeps_purchaseFlow fuel product :
  Keeps E I (purchaseFlow customerInformation paymentInformation autoCheckout
               fuel product).
Proof.
  pose proof (keeps_checkout fuel false). pose proof keeps_submitGuestOrder.
  unfold purchaseFlow, goToProductPage, validateProductMatch, addToCart, isInStock,
    hasItemBeenAddedToCart, continueAsGuest.
  flow_walk.
Qed.

Lemma keeps_purchaseLoop fuel candidates :
  Keeps E I (purchaseLoop customerInformation paymentInformation autoCheckout
               fuel candidates).
Proof.
  induction candidates as [| product rest IH]; cbn [purchaseLoop]; [flow_walk|].
  pose proof (keeps_purchaseFlow fuel product). flow_walk.
Qed.

Lemma keeps_pollLoop fuel :
  Keeps E I (pollLoop customerInformation paymentInformation autoCheckout
               products fuel).
Proof.
  induction fuel as [| fuel IH]; cbn [pollLoop]; [flow_walk|].
  pose proof (keeps_purchaseLoop (S fuel) products).
  unfold purchaseProduct, backoff. flow_walk.
Qed.

End Flow.

(** ** Counting the calls that went well *)

Lemma countDelivered_app p (a b : list Event) :
  countDelivered p (a ++ b)%list = (countDelivered p a + countDelivered p b)%nat.
Proof.
  induction a as [| e a IH]; simpl; [reflexivity|].
  destruct (p (call e) && delivered e)%bool; rewrite IH; reflexivity.
Qed.

Lemma countDelivered_record p c f w :
  p c = false ->
  countDelivered p (trace (record c f w)) = countDelivered p (trace w).
Proof.
  intros Hp. cbn [record trace]. rewrite countDelivered_app. cbn. rewrite Hp.
  cbn. apply Nat.add_0_r.
Qed.

Lemma flow_not_order c : isFlowCall c = true -> isOrderClick c = false.
Proof.
  destruct c; cbn; try reflexivity; try discriminate.
  destruct (String.eqb selector placeOrderButton); [discriminate | reflexivity].
Qed.

Lemma flow_not_context c :
  isFlowCall c = true -> isContextOpen c = false /\ isContextClose c = false.
Proof. destruct c; cbn; try discriminate; split; reflexivity. Qed.

(* ================================================================== *)
(** ** No second order *)

Lemma orderedOnce_record w c f :
  isOrderClick c = false -> OrderedOnce w -> OrderedOnce (record c f w).
Proof.
  intros Hc [Hle Hm]. unfold OrderedOnce, ordered.
  rewrite (countDelivered_record _ _ _ _ Hc). split; assumption.
Qed.

Ltac once_side :=
  intros; apply orderedOnce_record; [reflexivity | assumption].

(** From the wait that follows the click on: the marker file is written, and
    nothing is ordered. *)
Lemma afterOrder_marks env w :
  MarkerWritable env -> purchaseJson w = false -> (ordered (trace w) <= 1)%nat ->
  OrderedOnce (snd (afterOrder env w)).
Proof.
  intros He Hp Hle. unfold afterOrder.
  rewrite (bind_ok _ _ _ _ tt (record (Wait 3000) None w) eq_refl).
  rewrite (bind_ok _ _ _ _ tt
             (record (Log Info "Order placed!") None (record (Wait 3000) None w))
             eq_refl).
  match goal with
  | |- context [bind existsSync ?k env ?w2] =>
      rewrite (bind_ok existsSync k env w2 false
                 (record (ExistsSync purchaseFile) None w2))
        by (unfold existsSync; cbn [record purchaseJson]; rewrite Hp; reflexivity)
  end.
  cbn [negb].
  match goal with
  | |- context [bind writeFileSync ?k env ?w3] =>
      rewrite (bind_ok writeFileSync k env w3 tt
                 {| trace := trace w3 ++ [{| call := WriteFileSync purchaseFile "{}";
                                             failure := None |}];
                    purchaseJson := true |})
        by (unfold writeFileSync; rewrite He; reflexivity)
  end.
  match goal with
  | |- OrderedOnce (snd (?tail env ?w4)) =>
      assert (Htail : Keeps MarkerWritable OrderedOnce tail)
        by (keeps_walk once_side);
      apply (Htail env w4 He)
  end.
  unfold OrderedOnce, ordered in *. cbn [trace purchaseJson record].
  rewrite !countDelivered_app. cbn. split; [lia | reflexivity].
Qed.

Lemma orderedOnce_atGuard autoCheckout found :
  Keeps MarkerWritable OrderedOnce (atGuard autoCheckout found).
Proof.
  intros env w He [Hle Hm].
  destruct (purchaseJson w) eqn:Hp.
  - rewrite (atGuard_marker_set _ _ _ _ Hp). unfold OrderedOnce, ordered.
    cbn [snd trace purchaseJson]. rewrite countDelivered_app. cbn.
    rewrite Nat.add_0_r. split; [exact Hle | reflexivity].
  - assert (Hzero : ordered (trace w) = O).
    { destruct (ordered (trace w)) as [| [| n]]; [reflexivity | | lia].
      specialize (Hm eq_refl). discriminate. }
    unfold atGuard.
    rewrite (bind_ok existsSync _ env w false (record (ExistsSync purchaseFile) None w))
      by (unfold existsSync; rewrite Hp; reflexivity).
    rewrite (bind_ok _ _ _ _ tt (record (ExistsSync purchaseFile) None w) eq_refl).
    assert (Hstart : ordered (trace (record (ExistsSync purchaseFile) None w)) = O).
    { unfold ordered. rewrite countDelivered_record; [exact Hzero | reflexivity]. }
    destruct (autoCheckout && found)%bool.
    + unfold bind at 1. unfold perform.
      destruct (rejects env (trace (record (ExistsSync purchaseFile) None w))
                  (Click placeOrderButton)) as [e | ]; cbn [snd].
      * unfold OrderedOnce, ordered in *. cbn [record trace purchaseJson] in *.
        rewrite countDelivered_app. cbn. rewrite Hstart.
        split; [lia | discriminate].
      * apply afterOrder_marks; [exact He | exact Hp |].
        unfold ordered in *. cbn [record trace] in *.
        rewrite countDelivered_app. cbn. rewrite Hstart. lia.
    + rewrite (bind_ok _ _ _ _ tt (record (ExistsSync purchaseFile) None w) eq_refl).
      apply afterOrder_marks; [exact He | exact Hp | rewrite Hstart; lia].
Qed.

Section Once.

Variable customerInformation : CustomerInformation.
Variable paymentInformation : PaymentInformation.
Variable autoCheckout : bool.
Variable products : list ProductInformation.

Lemma orderedOnce_pollLoop fuel :
  Keeps MarkerWritable OrderedOnce
    (pollLoop customerInformation paymentInformation autoCheckout products fuel).
Proof.
  apply keeps_pollLoop.
  - intros c Hc w f Hw. apply orderedOnce_record; [apply flow_not_order, Hc | exact Hw].
  - apply orderedOnce_atGuard.
Qed.

Lemma orderedOnce_main fuel :
  Keeps MarkerWritable OrderedOnce
    (main customerInformation paymentInformation autoCheckout products fuel).
Proof.
  pose proof (orderedOnce_pollLoop fuel).
  unfold main, shutdown, open, close. keeps_walk once_side.
Qed.

Lemma orderedOnce_supervisor fuel :
  Keeps MarkerWritable OrderedOnce
    (supervisor customerInformation paymentInformation autoCheckout products fuel).
Proof.
  assert (Hloop : forall n,
            Keeps MarkerWritable OrderedOnce
              (superviseLoop customerInformation paymentInformation autoCheckout
                 products n)).
  { induction n as [| n IH]; cbn [superviseLoop]; [keeps_walk once_side|].
    pose proof (orderedOnce_main (S n)). keeps_walk once_side. }
  pose proof (Hloop fuel). unfold supervisor. keeps_walk once_side.
Qed.

End Once.

(** X1.  In a run of the whole process, from [pm2.connect] on, at most one
    click on the place-order button goes through, whatever the page, the
    notification services and the products do, as long as the writing of
    [purchase.json] is never rejected: the marker written after the first
    order makes every later look at it end the process. *)
Theorem X1_order_placed_at_most_once
    customerInformation paymentInformation autoCheckout products fuel env w :
  MarkerWritable env ->
  ordered (trace w) = O ->
  (ordered (trace (snd (supervisor customerInformation paymentInformation
                          autoCheckout products fuel env w))) <= 1)%nat.
Proof.
  intros He Hw.
  apply (orderedOnce_supervisor customerInformation paymentInformation autoCheckout
           products fuel env w He).
  unfold OrderedOnce. rewrite Hw. split; [lia | discriminate].
Qed.

(** X1 on the calm page, with the auto-checkout section enabled and the
    product asked for twice. *)
Lemma X1_order_placed_at_most_once_witness :
  MarkerWritable Scenario.calm /\
  ordered (trace Scenario.start) = O /\
  (ordered (trace (snd (supervisor Scenario.customer Scenario.payment true
                          [Scenario.gpu; Scenario.gpu] 3 Scenario.calm
                          Scenario.start))) <= 1)%nat.
Proof.
  refine (conj (fun _ => eq_refl) (conj eq_refl _)).
  apply (X1_order_placed_at_most_once Scenario.customer Scenario.payment true
           [Scenario.gpu; Scenario.gpu] 3%nat Scenario.calm Scenario.start
           (fun _ => eq_refl) eq_refl).
Defined.

(** The writing of the marker has to go well: when the disk rejects it once,
    the order that was just placed is forgotten, and the next candidate is
    ordered too. *)
Example order_placed_twice_on_a_read_only_disk :
  let r := purchaseProduct Scenario.customer Scenario.payment true 3
             [Scenario.gpu; Scenario.gpu] readOnlyDisk Scenario.start in
  fst r = Ok true /\ ordered (trace (snd r)) = 2%nat.
Proof. vm_compute. split; reflexivity. Qed.

(* ================================================================== *)
(** ** How the workflow ends *)

(** *** What is thrown *)

Section Thrown.

Variable customerInformation : CustomerInformation.
Variable paymentInformation : PaymentInformation.
Variable autoCheckout : bool.
Variable products : list ProductInformation.

(** The handler of the candidate loop lets the bot-detection error through
    and nothing else. *)
Lemma purchaseLoop_throws_bot fuel candidates : forall env w e,
  fst (purchaseLoop customerInformation paymentInformation autoCheckout fuel
         candidates env w) = Throw e ->
  e = botMessage.
Proof.
  induction candidates as [| product rest IH]; intros env w e; cbn [purchaseLoop].
  - discriminate.
  - unfold bind at 1. unfold tryCatch.
    destruct (bind (purchaseFlow _ _ _ fuel product) _ env w) as [[r | e1 | c1 | ] w1].
    + destruct r as [b | ]; [discriminate | apply IH].
    + unfold bind at 1, logger, quiet.
      destruct (String.eqb e1 botMessage) eqn:Heq.
      * cbn. intros H. injection H as <-. apply String.eqb_eq. exact Heq.
      * apply IH.
    + discriminate.
    + discriminate.
Qed.

(** The handler of the supervising loop turns every error into another
    round. *)
Lemma superviseLoop_never_throws fuel :
  NeverThrows (superviseLoop customerInformation paymentInformation autoCheckout
                 products fuel).
Proof.
  induction fuel as [| fuel IH]; intros env w e; cbn [superviseLoop].
  - discriminate.
  - unfold bind at 1. unfold tryCatch.
    destruct (main _ _ _ _ (S fuel) env w) as [[finished | e1 | c1 | ] w1].
    + destruct finished; [discriminate | apply IH].
    + unfold bind at 1, logger, quiet.
      destruct (String.eqb e1 botMessage); cbn; apply IH.
    + discriminate.
    + discriminate.
Qed.

End Thrown.

(** X2.  [purchaseProduct] throws nothing but the bot-detection error, or
    the error with which its first navigation, to the store page, was
    rejected: every other error of a candidate is caught by the loop. *)
Theorem X2_purchaseProduct_throws_only_bot
    customerInformation paymentInformation autoCheckout fuel products env w e :
  fst (purchaseProduct customerInformation paymentInformation autoCheckout fuel
         products env w) = Throw e ->
  e = botMessage \/ rejects env (trace w) (Goto "https://bestbuy.com") = Some e.
Proof.
  unfold purchaseProduct, bind at 1, perform.
  destruct (rejects env (trace w) (Goto "https://bestbuy.com")) as [e0 | ].
  - cbn. intros H. injection H as <-. right. reflexivity.
  - intros H. left. eapply purchaseLoop_throws_bot. exact H.
Qed.

(** X2 in a flagged session, and when the store page cannot be reached. *)
Lemma X2_purchaseProduct_throws_only_bot_witness :
  (fst (purchaseProduct Scenario.customer Scenario.payment false 3 [Scenario.gpu]
          (Scenario.withSensor "7F2A~-1~YAAQ") Scenario.start) = Throw botMessage /\
   (botMessage = botMessage \/
    rejects (Scenario.withSensor "7F2A~-1~YAAQ") (trace Scenario.start)
      (Goto "https://bestbuy.com") = Some botMessage))
  /\ (fst (purchaseProduct Scenario.customer Scenario.payment false 3 [Scenario.gpu]
             unreachable Scenario.start) = Throw "net::ERR_CONNECTION_REFUSED" /\
      ("net::ERR_CONNECTION_REFUSED" = botMessage \/
       rejects unreachable (trace Scenario.start) (Goto "https://bestbuy.com")
         = Some "net::ERR_CONNECTION_REFUSED")).
Proof.
  assert (H1 : fst (purchaseProduct Scenario.customer Scenario.payment false 3
                      [Scenario.gpu] (Scenario.withSensor "7F2A~-1~YAAQ")
                      Scenario.start) = Throw botMessage)
    by (vm_compute; reflexivity).
  assert (H2 : fst (purchaseProduct Scenario.customer Scenario.payment false 3
                      [Scenario.gpu] unreachable Scenario.start)
               = Throw "net::ERR_CONNECTION_REFUSED")
    by (vm_compute; reflexivity).
  exact (conj
           (conj H1 (X2_purchaseProduct_throws_only_bot _ _ _ _ _ _ _ _ H1))
           (conj H2 (X2_purchaseProduct_throws_only_bot _ _ _ _ _ _ _ _ H2))).
Defined.

(** X3.  No error of [main] leaves the supervising loop: the loop never
    throws, and the callback of [pm2.connect] is rejected only with the
    error of the launch of the browser or of its closing. *)
Theorem X3_errors_of_main_are_contained
    customerInformation paymentInformation autoCheckout products fuel env w :
  (forall e,
     fst (superviseLoop customerInformation paymentInformation autoCheckout
            products fuel env w) <> Throw e)
  /\ (forall e,
        fst (supervisor customerInformation paymentInformation autoCheckout
               products fuel env w) = Throw e ->
        exists tr c,
          (c = FirefoxLaunch \/ c = BrowserClose) /\ rejects env tr c = Some e).
Proof.
  split; [intros e; apply superviseLoop_never_throws|].
  intros e. unfold supervisor, bind at 1, tryCatch, perform.
  destruct (rejects env (trace w) Pm2Connect) as [e0 | ]; [discriminate|].
  unfold bind at 1, perform.
  match goal with
  | |- context [rejects env ?tr FirefoxLaunch] =>
      destruct (rejects env tr FirefoxLaunch) as [e1 | ] eqn:Hlaunch
  end.
  - cbn. intros H. injection H as <-. eexists _, FirefoxLaunch.
    split; [left; reflexivity | exact Hlaunch].
  - unfold bind at 1.
    match goal with
    | |- context [superviseLoop _ _ _ _ fuel env ?w1] =>
        pose proof (superviseLoop_never_throws customerInformation paymentInformation
                      autoCheckout products fuel env w1) as Hloop;
        destruct (superviseLoop customerInformation paymentInformation autoCheckout
                    products fuel env w1) as [[[] | e2 | c2 | ] w2]
    end; try discriminate.
    + unfold bind at 1, perform.
      destruct (rejects env (trace w2) BrowserClose) as [e3 | ] eqn:Hclose.
      * cbn. intros H. injection H as <-. eexists _, BrowserClose.
        split; [right; reflexivity | exact Hclose].
      * discriminate.
    + exfalso. exact (Hloop e2 eq_refl).
Qed.

(** X3 when the browser cannot be launched. *)
Lemma X3_errors_of_main_are_contained_witness :
  fst (supervisor Scenario.customer Scenario.payment false [Scenario.gpu] 3
         noBrowser Scenario.start) = Throw "Executable doesn't exist" /\
  exists tr c,
    (c = FirefoxLaunch \/ c = BrowserClose) /\
    rejects noBrowser tr c = Some "Executable doesn't exist".
Proof.
  assert (H : fst (supervisor Scenario.customer Scenario.payment false [Scenario.gpu]
                     3 noBrowser Scenario.start) = Throw "Executable doesn't exist")
    by (vm_compute; reflexivity).
  exact (conj H
           (proj2 (X3_errors_of_main_are_contained Scenario.customer Scenario.payment
                     false [Scenario.gpu] 3%nat noBrowser Scenario.start) _ H)).
Defined.

(** *** What is returned *)

Lemma returns_bind_last {A B} (Q : B -> World -> Prop) (m : M A) (k : A -> M B) :
  (forall a, Returns Q (k a)) -> Returns Q (bind m k).
Proof.
  intros Hk env w b. unfold bind.
  destruct (m env w) as [[a | e | c | ] w1]; try discriminate. apply Hk.
Qed.

(** The writing of the marker file, when it returns, leaves the file there;
    and what follows keeps it. *)
Lemma returns_marked {B} (tail : unit -> M B) :
  (forall u, Invariant MarkerSet (tail u)) ->
  Returns (fun _ => MarkerSet)
    (purchased <- existsSync ;;
     bind (if negb purchased then writeFileSync else ret tt) tail).
Proof.
  intros Htail env w b.
  destruct (purchaseJson w) eqn:Hp.
  - rewrite (bind_ok existsSync _ env w true (record (ExistsSync purchaseFile) None w))
      by (unfold existsSync; rewrite Hp; reflexivity).
    cbn [negb].
    rewrite (bind_ok _ _ _ _ tt (record (ExistsSync purchaseFile) None w) eq_refl).
    intros _. apply (Htail tt env). exact Hp.
  - rewrite (bind_ok existsSync _ env w false (record (ExistsSync purchaseFile) None w))
      by (unfold existsSync; rewrite Hp; reflexivity).
    cbn [negb]. unfold bind at 1 2. unfold writeFileSync.
    match goal with
    | |- context [rejects env ?tr ?c] => destruct (rejects env tr c) as [e | ]
    end; [discriminate|].
    intros _. apply (Htail tt env). reflexivity.
Qed.

Lemma returns_bind {A B} (R : A -> World -> Prop) (Q : B -> World -> Prop)
    (m : M A) (k : A -> M B) :
  Returns R m ->
  (forall a env w b, R a w -> fst (k a env w) = Ok b -> Q b (snd (k a env w))) ->
  Returns Q (bind m k).
Proof.
  intros Hm Hk env w b. specialize (Hm env w). unfold bind.
  destruct (m env w) as [[a | e | c | ] w1]; try discriminate.
  apply Hk. apply Hm. reflexivity.
Qed.

Lemma returns_tryCatch {A} (Q : A -> World -> Prop) (body : M A)
    (handler : string -> M A) :
  Returns Q body -> (forall e, Returns Q (handler e)) ->
  Returns Q (tryCatch body handler).
Proof.
  intros Hm Hk env w b. specialize (Hm env w). unfold tryCatch.
  destruct (body env w) as [[a | e | c | ] w1]; try discriminate.
  - apply Hm.
  - apply Hk.
Qed.

Lemma returns_weaken {A} (Q Q' : A -> World -> Prop) (m : M A) :
  (forall a w, Q a w -> Q' a w) -> Returns Q m -> Returns Q' m.
Proof. intros Himp Hm env w a H. apply Himp, Hm, H. Qed.

Lemma returns_ret {A} (Q : A -> World -> Prop) (a : A) :
  (forall w, Q a w) -> Returns Q (ret a).
Proof. intros HQ env w b H. injection H as <-. apply HQ. Qed.

Lemma returns_throw {A} (Q : A -> World -> Prop) e : Returns Q (@throw A e).
Proof. intros env w b H. discriminate. Qed.

Section Returned.

Variable customerInformation : CustomerInformation.
Variable paymentInformation : PaymentInformation.
Variable autoCheckout : bool.
Variable products : list ProductInformation.

Lemma afterOrder_returns_marked : Returns (fun _ => MarkerSet) afterOrder.
Proof.
  unfold afterOrder. do 2 (apply returns_bind_last; intros).
  apply returns_marked. intros u.
  pose proof MarkerSet_record. pose proof MarkerSet_mark. inv_walk.
Qed.

Lemma submitGuestOrder_returns_marked :
  Returns (fun _ => MarkerSet)
    (submitGuestOrder customerInformation paymentInformation autoCheckout).
Proof.
  intros env w a. rewrite submitGuestOrder_split. revert env w a.
  apply returns_bind_last. intros found. unfold atGuard.
  do 3 (apply returns_bind_last; intros). apply afterOrder_returns_marked.
Qed.

Lemma purchaseFlow_returns_marked fuel product :
  Returns (fun _ => MarkerSet)
    (purchaseFlow customerInformation paymentInformation autoCheckout fuel product).
Proof.
  unfold purchaseFlow. do 5 (apply returns_bind_last; intros).
  apply submitGuestOrder_returns_marked.
Qed.

(** The candidate loop returns true only once a flow has returned, and
    nothing is done after that flow. *)
Lemma purchaseLoop_returns_marked fuel candidates :
  Returns (fun purchased w => purchased = true -> MarkerSet w)
    (purchaseLoop customerInformation paymentInformation autoCheckout fuel candidates).
Proof.
  induction candidates as [| product rest IH]; cbn [purchaseLoop].
  - apply returns_ret. discriminate.
  - apply (returns_bind
             (fun r w => match r with Some _ => MarkerSet w | None => True end)).
    + apply returns_tryCatch.
      * apply (returns_bind (fun _ => MarkerSet));
          [apply purchaseFlow_returns_marked|].
        intros _ env w b Hset H. injection H as <-. exact Hset.
      * intros e. apply returns_bind_last. intros _.
        destruct (String.eqb e botMessage);
          [apply returns_throw | apply returns_ret; intros; exact Logic.I].
    + intros [b0 | ] env w b Hset; [|apply IH].
      intros H. injection H as <-. intros _. exact Hset.
Qed.

Lemma pollLoop_returns_marked fuel :
  Returns (fun _ => MarkerSet)
    (pollLoop customerInformation paymentInformation autoCheckout products fuel).
Proof.
  induction fuel as [| fuel IH]; cbn [pollLoop]; [intros env w u; discriminate|].
  apply (returns_bind (fun purchased w => purchased = true -> MarkerSet w)).
  - unfold purchaseProduct. apply returns_bind_last. intros _.
    apply purchaseLoop_returns_marked.
  - intros [ | ] env w u Hset; cbn [negb].
    + intros _. apply Hset. reflexivity.
    + clear Hset. revert env w u. apply returns_bind_last. intros _. exact IH.
Qed.

(** [main] returns nothing but true, and then the marker file is there. *)
Lemma main_returns_marked fuel :
  Returns (fun finished w => finished = true /\ MarkerSet w)
    (main customerInformation paymentInformation autoCheckout products fuel).
Proof.
  unfold main. do 4 (apply returns_bind_last; intros).
  apply returns_tryCatch.
  - apply (returns_bind (fun _ => MarkerSet)); [apply pollLoop_returns_marked|].
    intros _ env w b Hset H. split.
    + assert (Hlast : Returns (fun finished _ => finished = true) shutdown).
      { unfold shutdown. do 4 (apply returns_bind_last; intros).
        apply returns_ret. reflexivity. }
      exact (Hlast env w b H).
    + assert (Hshut : Invariant MarkerSet shutdown).
      { pose proof MarkerSet_record. pose proof MarkerSet_mark.
        unfold shutdown, close. inv_walk. }
      exact (Hshut env w Hset).
  - intros e. do 2 (apply returns_bind_last; intros). apply returns_throw.
Qed.

Lemma superviseLoop_returns_marked fuel :
  Returns (fun _ => MarkerSet)
    (superviseLoop customerInformation paymentInformation autoCheckout products fuel).
Proof.
  induction fuel as [| fuel IH]; cbn [superviseLoop]; [intros env w u; discriminate|].
  apply (returns_bind (fun finished w => finished = true -> MarkerSet w)).
  - apply returns_tryCatch.
    + apply (returns_weaken (fun finished w => finished = true /\ MarkerSet w));
        [intros a w [_ H] _; exact H | apply main_returns_marked].
    + intros e. do 2 (apply returns_bind_last; intros). apply returns_ret.
      discriminate.
  - intros [ | ] env w u Hset; cbn [negb]; [|apply IH].
    intros _. apply Hset. reflexivity.
Qed.

Lemma supervisor_returns_marked fuel :
  Returns (fun _ => MarkerSet)
    (supervisor customerInformation paymentInformation autoCheckout products fuel).
Proof.
  unfold supervisor. do 2 (apply returns_bind_last; intros).
  apply (returns_bind (fun _ => MarkerSet)); [apply superviseLoop_returns_marked|].
  intros _ env w u Hset _.
  assert (Hend : Invariant MarkerSet
                   (perform BrowserClose ;; quiet (Pm2Delete "main") ;;
                    logger Info "Process closed")).
  { pose proof MarkerSet_record. pose proof MarkerSet_mark. inv_walk. }
  exact (Hend env w Hset).
Qed.

End Returned.

(** X4.  The process comes to its end, the browser closed and the process
    taken off pm2, only with [purchase.json] there; and [main] returns
    nothing but true, with the file there. *)
Theorem X4_ends_only_once_purchased
    customerInformation paymentInformation autoCheckout products fuel env w :
  (forall finished,
     fst (main customerInformation paymentInformation autoCheckout products fuel
            env w) = Ok finished ->
     finished = true /\
     purchaseJson (snd (main customerInformation paymentInformation autoCheckout
                          products fuel env w)) = true)
  /\ (fst (supervisor customerInformation paymentInformation autoCheckout products
             fuel env w) = Ok tt ->
      purchaseJson (snd (supervisor customerInformation paymentInformation
                           autoCheckout products fuel env w)) = true).
Proof.
  split.
  - intros finished H. exact (main_returns_marked _ _ _ _ fuel env w finished H).
  - intros H. exact (supervisor_returns_marked _ _ _ _ fuel env w tt H).
Qed.

(** X4 on the calm page, with the source as it stands. *)
Lemma X4_ends_only_once_purchased_witness :
  (fst (main Scenario.customer Scenario.payment false [Scenario.gpu] 3
          Scenario.calm Scenario.start) = Ok true /\
   true = true /\
   purchaseJson (snd (main Scenario.customer Scenario.payment false [Scenario.gpu] 3
                        Scenario.calm Scenario.start)) = true)
  /\ (fst (supervisor Scenario.customer Scenario.payment false [Scenario.gpu] 3
             Scenario.calm Scenario.start) = Ok tt /\
      purchaseJson (snd (supervisor Scenario.customer Scenario.payment false
                           [Scenario.gpu] 3 Scenario.calm Scenario.start)) = true).
Proof.
  assert (H1 : fst (main Scenario.customer Scenario.payment false [Scenario.gpu] 3
                      Scenario.calm Scenario.start) = Ok true)
    by (vm_compute; reflexivity).
  assert (H2 : fst (supervisor Scenario.customer Scenario.payment false
                      [Scenario.gpu] 3 Scenario.calm Scenario.start) = Ok tt)
    by (vm_compute; reflexivity).
  pose proof (X4_ends_only_once_purchased Scenario.customer Scenario.payment false
                [Scenario.gpu] 3%nat Scenario.calm Scenario.start) as [Hmain Hsup].
  exact (conj (conj H1 (Hmain true H1)) (conj H2 (Hsup H2))).
Defined.

(** *** When the process is ended *)

Section ExitRules.

Lemma exits_never {A} (m : M A) :
  (forall env w c, fst (m env w) <> Exit c) -> ExitsMarked m.
Proof. intros H env w c Hc. destruct (H env w c Hc). Qed.

Lemma exits_bind {A B} (m : M A) (k : A -> M B) :
  ExitsMarked m -> (forall a, ExitsMarked (k a)) -> ExitsMarked (bind m k).
Proof.
  intros Hm Hk env w c. specialize (Hm env w). unfold bind.
  destruct (m env w) as [[a | e | c1 | ] w1]; try discriminate.
  - apply Hk.
  - cbn. intros H. injection H as <-. exact (Hm c1 eq_refl).
Qed.

Lemma exits_tryCatch {A} (body : M A) (handler : string -> M A) :
  ExitsMarked body -> (forall e, ExitsMarked (handler e)) ->
  ExitsMarked (tryCatch body handler).
Proof.
  intros Hm Hk env w c. specialize (Hm env w). unfold tryCatch.
  destruct (body env w) as [[a | e | c1 | ] w1]; try discriminate.
  - apply Hk.
  - apply Hm.
Qed.

Lemma exits_promiseAll2 (a b : list Call) : ExitsMarked (promiseAll2 a b).
Proof.
  intros env w c H.
  destruct (promiseAll2_settles a b env w) as [Hok | [e He]]; congruence.
Qed.

End ExitRules.

(** The calls other than [process.exit] do not end the process. *)
Ltac exits_prim :=
  apply exits_never; intros ? ? ?;
  cbv [ret throw diverge perform quiet query textContent evalTextContent
       contextCookies mathRandom existsSync writeFileSync];
  try match goal with
    | |- context [rejects ?env ?tr ?c] => destruct (rejects env tr c)
    end;
  discriminate.

Ltac exits_step :=
  match goal with
  | |- ExitsMarked (bind _ _) => apply exits_bind; [ | intros ]
  | |- ExitsMarked (tryCatch _ _) => apply exits_tryCatch; [ | intros ]
  | |- ExitsMarked (promiseAll2 _ _) => apply exits_promiseAll2
  | |- ExitsMarked (if ?b then _ else _) => destruct b
  | |- ExitsMarked (match ?x with _ => _ end) => destruct x
  | |- ExitsMarked (wait _) => unfold wait
  | |- ExitsMarked (logger _ _) => unfold logger
  | |- ExitsMarked (await _) => cbn [await sendDiscordMessage sendTelegramMessage]
  | |- ExitsMarked _ => solve [auto]
  | |- ExitsMarked _ => exits_prim
  end.

Ltac exits_walk := repeat exits_step.

Section Exited.

Variable customerInformation : CustomerInformation.
Variable paymentInformation : PaymentInformation.
Variable autoCheckout : bool.
Variable products : list ProductInformation.

Lemma exits_shippingLoop fuel : forall attempt, ExitsMarked (shippingLoop fuel attempt).
Proof.
  induction fuel as [| fuel IH]; intros attempt; cbn [shippingLoop]; [exits_walk|].
  unfold selectShipping. exits_walk.
Qed.

Lemma exits_checkout fuel :
  forall retrying, ExitsMarked (checkout customerInformation fuel retrying).
Proof.
  induction fuel as [| fuel IH]; intros retrying; cbn [checkout]; [exits_walk|].
  pose proof (exits_shippingLoop (S fuel) 1). pose proof (IH true).
  unfold checkoutPass, isCartEmpty, changeZipCode, clickCheckoutButton. exits_walk.
Qed.

(** The look at the marker file ends the process when the file is there. *)
Lemma exits_atGuard found : ExitsMarked (atGuard autoCheckout found).
Proof.
  intros env w c. destruct (purchaseJson w) eqn:Hp.
  - rewrite (atGuard_marker_set _ _ _ _ Hp). cbn. intros H. injection H as <-.
    split; reflexivity.
  - unfold atGuard.
    rewrite (bind_ok existsSync _ env w false (record (ExistsSync purchaseFile) None w))
      by (unfold existsSync; rewrite Hp; reflexivity).
    rewrite (bind_ok _ _ _ _ tt (record (ExistsSync purchaseFile) None w) eq_refl).
    match goal with
    | |- fst (?rest env ?w1) = Exit c -> _ =>
        assert (Hrest : ExitsMarked rest) by (unfold afterOrder; exits_walk);
        apply Hrest
    end.
Qed.

Lemma exits_submitGuestOrder :
  ExitsMarked (submitGuestOrder customerInformation paymentInformation autoCheckout).
Proof.
  intros env w c. rewrite submitGuestOrder_split. revert env w c.
  apply exits_bind; [| apply exits_atGuard].
  unfold beforeGuard, completeOrderInformation, completeShippingInformation,
    completeContactInformation, completePaymentInformation, readTotal, validateTotal.
  exits_walk.
Qed.

Lemma exits_purchaseLoop fuel candidates :
  ExitsMarked (purchaseLoop customerInformation paymentInformation autoCheckout
                 fuel candidates).
Proof.
  induction candidates as [| product rest IH]; cbn [purchaseLoop]; [exits_walk|].
  pose proof (exits_checkout fuel false). pose proof exits_submitGuestOrder.
  unfold purchaseFlow, goToProductPage, validateProductMatch, addToCart, isInStock,
    hasItemBeenAddedToCart, continueAsGuest.
  exits_walk.
Qed.

Lemma exits_pollLoop fuel :
  ExitsMarked (pollLoop customerInformation paymentInformation autoCheckout
                 products fuel).
Proof.
  induction fuel as [| fuel IH]; cbn [pollLoop]; [exits_walk|].
  pose proof (exits_purchaseLoop (S fuel) products).
  unfold purchaseProduct, backoff. exits_walk.
Qed.

(** [main] ends the process when the marker file is there at its start, or
    at a look of [submitGuestOrder]. *)
Lemma exits_main fuel :
  ExitsMarked (main customerInformation paymentInformation autoCheckout products fuel).
Proof.
  intros env w c. unfold main.
  destruct (purchaseJson w) eqn:Hp.
  - rewrite (bind_ok existsSync _ env w true (record (ExistsSync purchaseFile) None w))
      by (unfold existsSync; rewrite Hp; reflexivity).
    cbn. intros H. injection H as <-. split; [reflexivity | exact Hp].
  - rewrite (bind_ok existsSync _ env w false (record (ExistsSync purchaseFile) None w))
      by (unfold existsSync; rewrite Hp; reflexivity).
    rewrite (bind_ok _ _ _ _ tt (record (ExistsSync purchaseFile) None w) eq_refl).
    match goal with
    | |- fst (?rest env ?w1) = Exit c -> _ =>
        assert (Hrest : ExitsMarked rest)
          by (pose proof (exits_pollLoop fuel); unfold shutdown, open, close;
              exits_walk);
        apply Hrest
    end.
Qed.

Lemma exits_superviseLoop fuel :
  ExitsMarked (superviseLoop customerInformation paymentInformation autoCheckout
                 products fuel).
Proof.
  induction fuel as [| fuel IH]; cbn [superviseLoop]; [exits_walk|].
  pose proof (exits_main (S fuel)). exits_walk.
Qed.

End Exited.

(** X5.  The process is ended by [process.exit] with status 2 only, and
    only when [purchase.json] is there or [pm2.connect] gave an error. *)
Theorem X5_exit_only_with_marker_or_pm2_error
    customerInformation paymentInformation autoCheckout products fuel env w c :
  fst (supervisor customerInformation paymentInformation autoCheckout products
         fuel env w) = Exit c ->
  c = 2 /\
  (purchaseJson (snd (supervisor customerInformation paymentInformation
                        autoCheckout products fuel env w)) = true
   \/ exists e, rejects env (trace w) Pm2Connect = Some e).
Proof.
  unfold supervisor.
  destruct (rejects env (trace w) Pm2Connect) as [e0 | ] eqn:Hconnect.
  - rewrite (bind_exit _ _ env w 2
               (record (ProcessExit 2) None
                  (record (Log Error e0) None (record Pm2Connect (Some e0) w))))
      by (unfold tryCatch, perform; rewrite Hconnect; reflexivity).
    cbn. intros H. injection H as <-. split; [reflexivity | right; eauto].
  - rewrite (bind_ok _ _ env w tt (record Pm2Connect None w))
      by (unfold tryCatch, perform; rewrite Hconnect; reflexivity).
    match goal with
    | |- fst (?rest env ?w1) = Exit c -> _ =>
        assert (Hrest : ExitsMarked rest)
          by (pose proof (exits_superviseLoop customerInformation paymentInformation
                            autoCheckout products fuel);
              exits_walk);
        intros H; destruct (Hrest env w1 c H) as [Hc Hset]
    end.
    split; [exact Hc | left; exact Hset].
Qed.

(** X5 with the marker file there at the start. *)
Lemma X5_exit_only_with_marker_or_pm2_error_witness :
  fst (supervisor Scenario.customer Scenario.payment false [Scenario.gpu] 3
         Scenario.calm Scenario.purchased) = Exit 2 /\
  2 = 2 /\
  (purchaseJson (snd (supervisor Scenario.customer Scenario.payment false
                        [Scenario.gpu] 3 Scenario.calm Scenario.purchased)) = true
   \/ exists e, rejects Scenario.calm (trace Scenario.purchased) Pm2Connect = Some e).
Proof.
  assert (H : fst (supervisor Scenario.customer Scenario.payment false [Scenario.gpu]
                     3 Scenario.calm Scenario.purchased) = Exit 2)
    by (vm_compute; reflexivity).
  exact (conj H
           (X5_exit_only_with_marker_or_pm2_error Scenario.customer Scenario.payment
              false [Scenario.gpu] 3%nat Scenario.calm Scenario.purchased 2 H)).
Defined.

(* ================================================================== *)
(** ** The browser contexts of [main] *)

Lemma live_record c f w :
  live (trace (record c f w)) =
    live (trace w) + Z.b2z (isContextOpen c && isNone f)
    - Z.b2z (isContextClose c && isNone f).
Proof.
  unfold live. cbn [record trace]. rewrite !countDelivered_app. cbn.
  unfold delivered. cbn [failure].
  destruct (isContextOpen c), (isContextClose c), f; cbn; lia.
Qed.

Lemma live_flow c f w :
  isFlowCall c = true -> live (trace (record c f w)) = live (trace w).
Proof.
  intros Hc. destruct (flow_not_context c Hc) as [Ho Hx].
  rewrite live_record, Ho, Hx. cbn. lia.
Qed.

Lemma countDelivered_le_count p evs : (countDelivered p evs <= count p evs)%nat.
Proof.
  induction evs as [| e evs IH]; simpl; [lia|].
  destruct (p (call e)); cbn; [destruct (delivered e)|]; lia.
Qed.

(** The end of [submitGuestOrder] opens and closes nothing. *)
Lemma live_atGuard E n autoCheckout found :
  Keeps E (fun w => live (trace w) = n) (atGuard autoCheckout found).
Proof.
  intros env w _ Hw.
  assert (Ho : Counts isContextOpen 0 (atGuard autoCheckout found))
    by (unfold atGuard, afterOrder; counts_walk).
  assert (Hc : Counts isContextClose 0 (atGuard autoCheckout found))
    by (unfold atGuard, afterOrder; counts_walk).
  destruct (Ho env w) as (evs & Ht & Hopen).
  destruct (Hc env w) as (evs' & Ht' & Hclose).
  rewrite Ht in Ht'. apply app_inv_head in Ht'. subst evs'.
  pose proof (countDelivered_le_count isContextOpen evs).
  pose proof (countDelivered_le_count isContextClose evs).
  rewrite Ht. unfold live in *. rewrite !countDelivered_app. lia.
Qed.


Section Session.

Variable customerInformation : CustomerInformation.
Variable paymentInformation : PaymentInformation.
Variable autoCheckout : bool.
Variable products : list ProductInformation.

Lemma close_goes_well env w :
  SessionGoesWell env ->
  close env w = (Ok tt, record ContextClose None (record PageClose None w)).
Proof.
  intros He. unfold close.
  rewrite (bind_ok (perform PageClose) _ env w tt (record PageClose None w))
    by (unfold perform; rewrite (proj1 (proj2 (He _))); reflexivity).
  unfold perform. rewrite (proj2 (proj2 (He _))). reflexivity.
Qed.

(** The handler of [main] closes the context and throws the error again. *)
Lemma main_handler_closes e env w :
  SessionGoesWell env ->
  let r := (quiet (ConsoleLog e) ;; close ;; @throw bool e) env w in
  fst r = Throw e /\ live (trace (snd r)) = live (trace w) - 1.
Proof.
  intros He r. subst r.
  rewrite (bind_ok _ _ _ _ tt (record (ConsoleLog e) None w) eq_refl).
  rewrite (bind_ok _ _ _ _ _ _ (close_goes_well env _ He)).
  cbn [throw fst snd]. rewrite !live_record. cbn. split; [reflexivity | lia].
Qed.

(** [shutdown] closes the context, unless its notification is rejected. *)
Lemma shutdown_closes env w :
  SessionGoesWell env ->
  (fst (shutdown env w) = Ok true /\
   live (trace (snd (shutdown env w))) = live (trace w) - 1)
  \/ (exists e, fst (shutdown env w) = Throw e /\
                live (trace (snd (shutdown env w))) = live (trace w)).
Proof.
  intros He. unfold shutdown.
  rewrite (bind_ok _ _ _ _ tt (record (Log Info "Shutting down in 1 minute") None w)
             eq_refl).
  cbn [await sendDiscordMessage].
  destruct (rejects env (trace (record (Log Info "Shutting down in 1 minute") None w))
              (HookSend "Shutting down in 1 minute")) as [e | ] eqn:Hsend.
  - right. exists e.
    rewrite (bind_throw _ _ _ _ e
               (record (HookSend "Shutting down in 1 minute") (Some e)
                  (record (Log Info "Shutting down in 1 minute") None w)))
      by (unfold bind, perform, ret; rewrite Hsend; reflexivity).
    cbn [fst snd]. rewrite !live_record. cbn. split; [reflexivity | lia].
  - left.
    rewrite (bind_ok _ _ _ _ tt
               (record (HookSend "Shutting down in 1 minute") None
                  (record (Log Info "Shutting down in 1 minute") None w)))
      by (unfold bind, perform, ret; rewrite Hsend; reflexivity).
    rewrite (bind_ok _ _ _ _ tt
               (record (Wait 60000) None
                  (record (HookSend "Shutting down in 1 minute") None
                     (record (Log Info "Shutting down in 1 minute") None w)))
               eq_refl).
    rewrite (bind_ok _ _ _ _ _ _ (close_goes_well env _ He)).
    cbn [ret fst snd]. rewrite !live_record. cbn. split; [reflexivity | lia].
Qed.

Lemma pollLoop_live fuel env w :
  live (trace (snd (pollLoop customerInformation paymentInformation autoCheckout
                      products fuel env w))) = live (trace w).
Proof.
  apply (keeps_pollLoop (fun _ => True) (fun w' => live (trace w') = live (trace w))
           customerInformation paymentInformation autoCheckout products);
    [ intros c Hc w' f Hw'; rewrite (live_flow _ _ _ Hc); exact Hw'
    | intros found; apply live_atGuard
    | exact Logic.I
    | reflexivity ].
Qed.

Lemma main_balanced fuel env w :
  SessionGoesWell env ->
  Balanced (live (trace w))
    (main customerInformation paymentInformation autoCheckout products fuel env w).
Proof.
  intros He. unfold main.
  destruct (purchaseJson w) eqn:Hp.
  - rewrite (bind_ok existsSync _ env w true (record (ExistsSync purchaseFile) None w))
      by (unfold existsSync; rewrite Hp; reflexivity).
    unfold Balanced. cbn. unfold live. rewrite !countDelivered_app. cbn. lia.
  - rewrite (bind_ok existsSync _ env w false (record (ExistsSync purchaseFile) None w))
      by (unfold existsSync; rewrite Hp; reflexivity).
    rewrite (bind_ok _ _ _ _ tt (record (ExistsSync purchaseFile) None w) eq_refl).
    destruct (rejects env (trace (record (ExistsSync purchaseFile) None w)) NewContext)
      as [e | ] eqn:Hopen.
    + rewrite (bind_throw _ _ _ _ e
                 (record NewContext (Some e) (record (ExistsSync purchaseFile) None w)))
        by (unfold open, bind, perform; rewrite Hopen; reflexivity).
      unfold Balanced. cbn [fst snd]. rewrite !live_record. cbn. lia.
    + rewrite (bind_ok _ _ _ _ tt
                 (record NewPage None
                    (record NewContext None (record (ExistsSync purchaseFile) None w))))
        by (unfold open, bind, perform; rewrite Hopen;
            rewrite (proj1 (He _)); reflexivity).
      match goal with
      | |- context [bind (logger ?l ?s) ?k env ?w3] =>
          rewrite (bind_ok (logger l s) k env w3 tt (record (Log l s) None w3) eq_refl)
      end.
      match goal with
      | |- Balanced _ (tryCatch _ _ env ?x) =>
          assert (Hlive : live (trace x) = live (trace w) + 1)
            by (rewrite !live_record; cbn; lia);
          revert Hlive; generalize x
      end.
      intros w4 Hlive.
      pose proof (pollLoop_live fuel env w4) as Hpoll.
      unfold tryCatch. unfold bind at 1.
      destruct (pollLoop customerInformation paymentInformation autoCheckout products
                  fuel env w4) as [[[] | e | c | ] w5]; cbn [snd] in Hpoll.
      * destruct (shutdown_closes env w5 He) as [[H1 H2] | (e & H1 & H2)];
          destruct (shutdown env w5) as [o w6]; cbn [fst snd] in *; subst o.
        -- unfold Balanced. cbn [fst snd]. lia.
        -- destruct (main_handler_closes e env w6 He) as [Hf Hl].
           unfold Balanced. rewrite Hf, Hl. lia.
      * destruct (main_handler_closes e env w5 He) as [Hf Hl].
        unfold Balanced. rewrite Hf, Hl. lia.
      * unfold Balanced. cbn [fst snd]. lia.
      * unfold Balanced. cbn [fst snd]. lia.
Qed.

Lemma superviseLoop_balanced fuel : forall env w,
  SessionGoesWell env ->
  Balanced (live (trace w))
    (superviseLoop customerInformation paymentInformation autoCheckout products
       fuel env w).
Proof.
  induction fuel as [| fuel IH]; intros env w He; cbn [superviseLoop].
  - unfold Balanced. cbn. lia.
  - pose proof (main_balanced (S fuel) env w He) as Hmain.
    unfold bind at 1. unfold tryCatch.
    destruct (main customerInformation paymentInformation autoCheckout products
                (S fuel) env w) as [[finished | e | c | ] w1];
      unfold Balanced in Hmain; cbn [fst snd] in Hmain.
    + destruct finished; cbn [negb].
      * unfold Balanced. cbn. exact Hmain.
      * rewrite <- Hmain. apply IH. exact He.
    + assert (Hcaught : exists w2,
                (logger Error e ;;
                 (if String.eqb e botMessage
                  then logger Warn "Waiting 3 minutes to refresh bot status" ;;
                       wait (60 * 10)
                  else ret tt) ;;
                 ret false) env w1 = (Ok false, w2)
                /\ live (trace w2) = live (trace w1)).
      { destruct (String.eqb e botMessage); eexists; (split; [reflexivity|]);
          cbn [snd]; rewrite !live_record; cbn; lia. }
      destruct Hcaught as (w2 & Hcaught & Hlive). rewrite Hcaught. cbn [negb].
      rewrite <- Hmain, <- Hlive. apply IH. exact He.
    + unfold Balanced. cbn [fst snd]. exact Hmain.
    + unfold Balanced. cbn [fst snd]. exact Hmain.
Qed.

End Session.

(** X6.  As long as the opening of a page and the closing of a page and of
    a context are not rejected, [main] leaves no browser context open when
    it returns or throws, whatever else fails; so the process, which calls
    [main] again after every error, has no context open when it ends or is
    rejected, and never more than one. *)
Theorem X6_contexts_are_closed
    customerInformation paymentInformation autoCheckout products fuel env w :
  SessionGoesWell env ->
  Balanced (live (trace w))
    (main customerInformation paymentInformation autoCheckout products fuel env w)
  /\ Balanced (live (trace w))
       (supervisor customerInformation paymentInformation autoCheckout products
          fuel env w).
Proof.
  intros He. split; [apply main_balanced; exact He|].
  unfold supervisor.
  destruct (rejects env (trace w) Pm2Connect) as [e0 | ] eqn:Hconnect.
  - rewrite (bind_exit _ _ env w 2
               (record (ProcessExit 2) None
                  (record (Log Error e0) None (record Pm2Connect (Some e0) w))))
      by (unfold tryCatch, perform; rewrite Hconnect; reflexivity).
    unfold Balanced. cbn [fst snd]. rewrite !live_record. cbn. lia.
  - rewrite (bind_ok _ _ env w tt (record Pm2Connect None w))
      by (unfold tryCatch, perform; rewrite Hconnect; reflexivity).
    destruct (rejects env (trace (record Pm2Connect None w)) FirefoxLaunch)
      as [e1 | ] eqn:Hlaunch.
    + rewrite (bind_throw _ _ _ _ e1
                 (record FirefoxLaunch (Some e1) (record Pm2Connect None w)))
        by (unfold perform; rewrite Hlaunch; reflexivity).
      unfold Balanced. cbn [fst snd]. rewrite !live_record. cbn. lia.
    + rewrite (bind_ok _ _ _ _ tt (record FirefoxLaunch None (record Pm2Connect None w)))
        by (unfold perform; rewrite Hlaunch; reflexivity).
      pose proof (superviseLoop_balanced customerInformation paymentInformation
                    autoCheckout products fuel env
                    (record FirefoxLaunch None (record Pm2Connect None w)) He)
        as Hloop.
      rewrite !live_record in Hloop. cbn in Hloop.
      unfold bind at 1.
      destruct (superviseLoop customerInformation paymentInformation autoCheckout
                  products fuel env
                  (record FirefoxLaunch None (record Pm2Connect None w)))
        as [[[] | e2 | c2 | ] w2]; unfold Balanced in Hloop; cbn [fst snd] in Hloop;
        try (unfold Balanced; cbn [fst snd]; lia).
      unfold bind at 1, perform.
      destruct (rejects env (trace w2) BrowserClose) as [e3 | ].
      * unfold Balanced. cbn [fst snd]. rewrite !live_record. cbn. lia.
      * unfold Balanced. cbn. unfold live in *. cbn [record trace].
        rewrite !countDelivered_app. cbn. lia.
Qed.

(** X6 on the calm page. *)
Lemma X6_contexts_are_closed_witness :
  SessionGoesWell Scenario.calm /\
  Balanced (live (trace Scenario.start))
    (main Scenario.customer Scenario.payment false [Scenario.gpu] 3
       Scenario.calm Scenario.start) /\
  Balanced (live (trace Scenario.start))
    (supervisor Scenario.customer Scenario.payment false [Scenario.gpu] 3
       Scenario.calm Scenario.start).
Proof.
  exact (conj (fun _ => conj eq_refl (conj eq_refl eq_refl))
           (X6_contexts_are_closed Scenario.customer Scenario.payment false
              [Scenario.gpu] 3%nat Scenario.calm Scenario.start
              (fun _ => conj eq_refl (conj eq_refl eq_refl)))).
Defined.

(** When the page cannot be opened, the context that was opened for it is
    left open, at every round. *)
Example contexts_left_open_without_a_page :
  let r := supervisor Scenario.customer Scenario.payment false [Scenario.gpu] 3
             noPage Scenario.start in
  fst r = Diverge /\ live (trace (snd r)) = 3.
Proof. vm_compute. split; reflexivity. Qed.

(* ================================================================== *)
(** ** [addToCart]: the stock check and the announcement *)

Lemma precededBy_seen mark target evs : precededBy mark target true evs = true.
Proof.
  induction evs as [| e evs IH]; cbn; [reflexivity|].
  rewrite IH. destruct (target (call e)); reflexivity.
Qed.

Lemma precededBy_none mark target seen a :
  count target a = O -> precededBy mark target seen a = true.
Proof.
  revert seen. induction a as [| e a IH]; intros seen; cbn; [reflexivity|].
  destruct (target (call e)); [discriminate|]. intros H. apply IH. exact H.
Qed.

Lemma precededBy_app mark target seen a b :
  count target a = O ->
  (forall seen', precededBy mark target seen' b = true) ->
  precededBy mark target seen (a ++ b)%list = true.
Proof.
  revert seen. induction a as [| e a IH]; intros seen; cbn; [auto|].
  destruct (target (call e)); [discriminate|]. intros Ha Hb. apply IH; assumption.
Qed.

Lemma precededBy_marked mark target seen a b :
  count target a = O -> (0 < countDelivered mark a)%nat ->
  precededBy mark target seen (a ++ b)%list = true.
Proof.
  revert seen. induction a as [| e a IH]; intros seen; cbn; [lia|].
  destruct (target (call e)); [discriminate|]. intros Ha Hm.
  destruct (mark (call e) && delivered e)%bool.
  - rewrite Bool.orb_true_r. apply precededBy_seen.
  - rewrite Bool.orb_false_r. apply IH; assumption.
Qed.

Lemma announced_of_counts mark target {A} (m : M A) :
  Counts target 0 m -> Announced mark target m.
Proof.
  intros Hm env w seen. destruct (Hm env w) as (evs & Ht & Hc).
  exists evs. split; [exact Ht | apply precededBy_none; lia].
Qed.

Lemma announced_bind mark target {A B} (m : M A) (k : A -> M B) :
  Counts target 0 m -> (forall a, Announced mark target (k a)) ->
  Announced mark target (bind m k).
Proof.
  intros Hm Hk env w seen. destruct (Hm env w) as (evs1 & Ht1 & Hc1).
  unfold bind. destruct (m env w) as [[a | e | c | ] w1]; cbn [snd] in *;
    try (exists evs1; split; [exact Ht1 | apply precededBy_none; lia]).
  destruct (Hk a env w1 seen) as (evs2 & Ht2 & _).
  exists (evs1 ++ evs2)%list. rewrite Ht2, Ht1, app_assoc. split; [reflexivity|].
  apply precededBy_app; [lia|]. intros seen'.
  destruct (Hk a env w1 seen') as (evs2' & Ht2' & Hp2). rewrite Ht2 in Ht2'.
  apply app_inv_head in Ht2'. subst evs2'. exact Hp2.
Qed.

Lemma announced_after mark target {A B} n (m : M A) (k : A -> M B) :
  Counts target 0 m -> Delivers mark m -> (forall a, Counts target n (k a)) ->
  Announced mark target (bind m k).
Proof.
  intros Hm Hd Hk env w seen. destruct (Hm env w) as (evs1 & Ht1 & Hc1).
  specialize (Hd env w). unfold bind.
  destruct (m env w) as [[a | e | c | ] w1]; cbn [snd] in *;
    try (exists evs1; split; [exact Ht1 | apply precededBy_none; lia]).
  destruct (Hd a w1 eq_refl) as (evs1' & Ht1' & Hmark). rewrite Ht1 in Ht1'.
  apply app_inv_head in Ht1'. subst evs1'.
  destruct (Hk a env w1) as (evs2 & Ht2 & _).
  exists (evs1 ++ evs2)%list. rewrite Ht2, Ht1, app_assoc. split; [reflexivity|].
  apply precededBy_marked; [lia | exact Hmark].
Qed.

Lemma counts_one p {A} c (m : M A) : Single c m -> Counts p 1 m.
Proof.
  intros H env w. destruct (H env w) as (f & Ht).
  exists [{| call := c; failure := f |}]. split; [exact Ht|].
  cbn. destruct (p c); lia.
Qed.

(** A notification with a screenshot, when it returns, has made its three
    sends, and they went well. *)
Lemma notification_delivered message image message' env w u w' :
  JsString.truthy image = true ->
  promiseAll2 (sendDiscordMessage message (Some image))
    (sendTelegramMessage message') env w = (Ok u, w') ->
  trace w' =
    (trace w ++ [{| call := HookSend message; failure := None |};
                 {| call := TelegramSendMessage message'; failure := None |};
                 {| call := HookSendFile image; failure := None |}])%list.
Proof.
  intros Himage. unfold sendDiscordMessage, sendTelegramMessage. rewrite Himage.
  cbn [promiseAll2]. repeat answer_step env; try discriminate;
    intros H; injection H as _ <-; unfold record; cbn [trace];
    rewrite <- !app_assoc; reflexivity.
Qed.

Section AddToCart.

Variable product : ProductInformation.

Lemma inStock_announcement_delivers mark :
  mark (HookSendFile "product-in-stock") = true
  \/ mark (TelegramSendMessage (inStockMessage product)) = true ->
  Delivers mark
    (promiseAll2 (sendDiscordMessage (inStockMessage product) (Some "product-in-stock"))
       (sendTelegramMessage (inStockMessage product))).
Proof.
  intros Hmark env w u w' Hrun.
  rewrite (notification_delivered _ "product-in-stock" _ _ _ _ _ eq_refl Hrun).
  eexists. split; [reflexivity|]. cbn [countDelivered call delivered failure].
  destruct Hmark as [Hm | Hm]; rewrite Hm; cbn [andb];
    repeat match goal with
      | |- context [if ?b then _ else _] => destruct b
      end; lia.
Qed.

Lemma addToCart_announced mark :
  mark (HookSendFile "product-in-stock") = true
  \/ mark (TelegramSendMessage (inStockMessage product)) = true ->
  Announced mark isCartMutation (addToCart product).
Proof.
  intros Hmark. unfold addToCart, isInStock.
  do 7 (apply announced_bind; [counts_walk | intros]).
  apply (announced_after _ _ 1);
    [ counts_walk | apply inStock_announcement_delivers; exact Hmark | intros _ ].
  apply counts_bind_l; [counts_walk | intros _].
  apply counts_bind_r;
    [eapply counts_one; apply records_single, records_perform | intros _].
  unfold hasItemBeenAddedToCart. counts_walk.
Qed.

End AddToCart.

(** X7.  In a session that is not flagged, when the enabled add-to-cart
    button is not on the page, [addToCart] throws the out-of-stock error
    after three calls, the reading of the cookies, a log line and the
    query of the button: nothing is sent, nothing is clicked, no screenshot
    is taken. *)
Theorem X7_out_of_stock_is_silent product env w cookies w1 :
  contextCookies env w = (Ok cookies, w1) ->
  isFlagged cookies = false ->
  let w2 := record (Log Info ("Checking stock of product " ++ quote
                              ++ productName product ++ quote)) None w1 in
  rejects env (trace w2) (Query addToCartButton) = None ->
  element env (trace w2) addToCartButton = false ->
  addToCart product env w
    = (Throw notInStockMessage, record (Query addToCartButton) None w2).
Proof.
  intros Hcookies Hflag w2 Hquery Hbutton. unfold addToCart.
  rewrite (bind_ok _ _ _ _ _ _ Hcookies), Hflag.
  rewrite (bind_ok _ _ _ _ tt w1 eq_refl).
  rewrite (bind_ok _ _ _ _ tt w2 eq_refl).
  rewrite (bind_ok isInStock _ env w2 false (record (Query addToCartButton) None w2))
    by (unfold isInStock, bind, query; rewrite Hquery, Hbutton; reflexivity).
  reflexivity.
Qed.

(** X7 on the calm page, the button of which is disabled. *)
Lemma X7_out_of_stock_is_silent_witness :
  let w1 := record Cookies None Scenario.start in
  let w2 := record (Log Info ("Checking stock of product " ++ quote
                              ++ productName Scenario.gpu ++ quote)) None w1 in
  contextCookies soldOut Scenario.start = (Ok (cookiesOf soldOut []), w1) /\
  isFlagged (cookiesOf soldOut []) = false /\
  rejects soldOut (trace w2) (Query addToCartButton) = None /\
  element soldOut (trace w2) addToCartButton = false /\
  addToCart Scenario.gpu soldOut Scenario.start
    = (Throw notInStockMessage, record (Query addToCartButton) None w2).
Proof.
  exact (conj eq_refl (conj eq_refl (conj eq_refl (conj eq_refl
           (X7_out_of_stock_is_silent Scenario.gpu soldOut Scenario.start
              (cookiesOf soldOut []) (record Cookies None Scenario.start)
              eq_refl eq_refl eq_refl eq_refl))))).
Defined.

(** X8.  In every run of [addToCart], the click on the add-to-cart button
    comes after the in-stock notification went through: after the
    screenshot was sent to Discord, and after the text was sent on
    Telegram. *)
Theorem X8_cart_click_after_announcement product env w :
  exists evs,
    trace (snd (addToCart product env w)) = (trace w ++ evs)%list /\
    precededBy isInStockUpload isCartMutation false evs = true /\
    precededBy (isInStockTelegram product) isCartMutation false evs = true.
Proof.
  destruct (addToCart_announced product isInStockUpload (or_introl eq_refl)
              env w false) as (evs & Ht & Hupload).
  assert (Hmark : isInStockTelegram product
                    (TelegramSendMessage (inStockMessage product)) = true)
    by apply String.eqb_refl.
  destruct (addToCart_announced product (isInStockTelegram product)
              (or_intror Hmark) env w false) as (evs' & Ht' & Htelegram).
  rewrite Ht in Ht'. apply app_inv_head in Ht'. subst evs'.
  exists evs. repeat split; assumption.
Qed.

(** The click is made on the calm page, and is not made when Telegram is out
    of reach. *)
Example cart_click_on_the_calm_page :
  count isCartMutation
    (trace (snd (addToCart Scenario.gpu Scenario.calm Scenario.start))) = 1%nat /\
  count isCartMutation
    (trace (snd (addToCart Scenario.gpu (Scenario.offline Scenario.calm)
                   Scenario.start))) = O.
Proof. vm_compute. split; reflexivity. Qed.

(* ================================================================== *)
(** ** [validateProductMatch]: the SKU of the page, trimmed *)

Section Strings.

Lemma append_nil_r (s : string) : s ++ "" = s.
Proof. induction s as [| c s IH]; cbn; [reflexivity | rewrite IH; reflexivity]. Qed.

Lemma append_assoc (a b c : string) : (a ++ b) ++ c = a ++ (b ++ c).
Proof. induction a as [| x a IH]; cbn; [reflexivity | rewrite IH; reflexivity]. Qed.

Lemma rev_append_app s acc : JsString.rev_append s acc = JsString.rev s ++ acc.
Proof.
  unfold JsString.rev. revert acc.
  induction s as [| c s IH]; intros acc; cbn; [reflexivity|].
  rewrite (IH (String c acc)), (IH (String c "")), append_assoc. reflexivity.
Qed.

Lemma rev_cons c s : JsString.rev (String c s) = JsString.rev s ++ String c "".
Proof. unfold JsString.rev at 1. cbn. apply rev_append_app. Qed.

Lemma rev_app a b : JsString.rev (a ++ b) = JsString.rev b ++ JsString.rev a.
Proof.
  induction a as [| c a IH]; cbn [append].
  - cbn. rewrite append_nil_r. reflexivity.
  - rewrite !rev_cons, IH, append_assoc. reflexivity.
Qed.

Lemma rev_involutive s : JsString.rev (JsString.rev s) = s.
Proof.
  induction s as [| c s IH]; [reflexivity|].
  rewrite rev_cons, rev_app, IH. reflexivity.
Qed.

Lemma allWhite_app a b : allWhite (a ++ b) = (allWhite a && allWhite b)%bool.
Proof.
  induction a as [| c a IH]; cbn; [reflexivity|].
  rewrite IH, Bool.andb_assoc. reflexivity.
Qed.

Lemma allWhite_rev s : allWhite (JsString.rev s) = allWhite s.
Proof.
  induction s as [| c s IH]; [reflexivity|].
  rewrite rev_cons, allWhite_app, IH. cbn.
  rewrite Bool.andb_true_r. apply Bool.andb_comm.
Qed.

Lemma trimStart_allWhite pad s :
  allWhite pad = true -> JsString.trimStart (pad ++ s) = JsString.trimStart s.
Proof.
  induction pad as [| c pad IH]; cbn; [reflexivity|].
  destruct (JsString.isWhiteSpace c); [exact IH | discriminate].
Qed.

Lemma trimStart_tight s : startsWhite s = false -> JsString.trimStart s = s.
Proof. destruct s as [| c s]; cbn; [reflexivity | intros ->; reflexivity]. Qed.

Lemma trimStart_starts s : startsWhite (JsString.trimStart s) = false.
Proof.
  induction s as [| c s IH]; cbn; [reflexivity|].
  destruct (JsString.isWhiteSpace c) eqn:Hc; [exact IH | cbn; exact Hc].
Qed.

Lemma trimStart_split s :
  exists pad, allWhite pad = true /\ s = pad ++ JsString.trimStart s.
Proof.
  induction s as [| c s (pad & Hpad & Hs)]; [exists ""; split; reflexivity|].
  cbn. destruct (JsString.isWhiteSpace c) eqn:Hc.
  - exists (String c pad). cbn. rewrite Hc, Hpad, <- Hs. split; reflexivity.
  - exists "". split; reflexivity.
Qed.

Lemma startsWhite_app a b :
  a <> "" -> startsWhite (a ++ b) = startsWhite a.
Proof. destruct a; [congruence | reflexivity]. Qed.

(** [trim] removes the white space on both sides of a text that has none
    at its ends. *)
Lemma trim_padded pad1 s pad2 :
  allWhite pad1 = true -> allWhite pad2 = true ->
  startsWhite s = false -> endsWhite s = false ->
  JsString.trim (pad1 ++ s ++ pad2) = s.
Proof.
  intros H1 H2 Hs He. unfold JsString.trim, JsString.trimEnd.
  rewrite (trimStart_allWhite _ _ H1).
  destruct s as [| c s].
  - cbn [append]. rewrite <- (append_nil_r pad2), (trimStart_allWhite _ _ H2).
    reflexivity.
  - rewrite (trimStart_tight (String c s ++ pad2)) by exact Hs.
    rewrite rev_app, trimStart_allWhite by (rewrite allWhite_rev; exact H2).
    rewrite (trimStart_tight _ He). apply rev_involutive.
Qed.

(** What [trim] returns has no white space at its ends. *)
Lemma trim_tight v :
  startsWhite (JsString.trim v) = false /\ endsWhite (JsString.trim v) = false.
Proof.
  unfold JsString.trim, JsString.trimEnd, endsWhite. split.
  - pose proof (trimStart_starts v) as Hstart.
    destruct (trimStart_split (JsString.rev (JsString.trimStart v)))
      as (pad & _ & Hsplit).
    apply (f_equal JsString.rev) in Hsplit.
    rewrite rev_involutive, rev_app in Hsplit.
    destruct (JsString.rev (JsString.trimStart (JsString.rev (JsString.trimStart v))))
      as [| c r]; [reflexivity|].
    rewrite Hsplit in Hstart. exact Hstart.
  - rewrite rev_involutive. apply trimStart_starts.
Qed.

End Strings.

(** X9.  [validateProductMatch] compares the configured SKU with the text
    of the page, trimmed.  White space around the SKU on the page is of no
    consequence: the product is taken as matching.  A configured SKU that
    itself starts or ends with white space matches no page: the step never
    returns. *)
Theorem X9_sku_is_compared_trimmed product env w :
  (forall pad1 pad2,
     let w1 := record (Log Info ("Validating that page corresponds to sku "
                                 ++ sku product)) None w in
     rejects env (trace w1) (EvalTextContent ".sku.product-data .product-data-value")
       = None ->
     textOf env (trace w1) ".sku.product-data .product-data-value"
       = Some (pad1 ++ sku product ++ pad2) ->
     allWhite pad1 = true -> allWhite pad2 = true ->
     startsWhite (sku product) = false -> endsWhite (sku product) = false ->
     fst (validateProductMatch product env w) = Ok tt)
  /\ ((startsWhite (sku product) || endsWhite (sku product))%bool = true ->
      fst (validateProductMatch product env w) <> Ok tt).
Proof.
  split.
  - intros pad1 pad2 w1 Hrun Htext H1 H2 Hs He. unfold validateProductMatch.
    rewrite (bind_ok _ _ _ _ tt w1 eq_refl).
    rewrite (bind_ok _ _ env w1 (Some (pad1 ++ sku product ++ pad2))
               (record (EvalTextContent ".sku.product-data .product-data-value")
                  None w1))
      by (unfold evalTextContent; rewrite Hrun, Htext; reflexivity).
    rewrite (trim_padded _ _ _ H1 H2 Hs He), String.eqb_refl. reflexivity.
  - intros Hpadded. unfold validateProductMatch.
    rewrite (bind_ok _ _ _ _ tt _ eq_refl).
    unfold bind, evalTextContent.
    match goal with
    | |- context [rejects env ?tr ?c] => destruct (rejects env tr c) as [e | ]
    end; [discriminate|].
    match goal with
    | |- context [textOf env ?tr ?s] => destruct (textOf env tr s) as [v | ]
    end; [|discriminate].
    destruct (String.eqb (sku product) (JsString.trim v)) eqn:Heq; [|discriminate].
    apply String.eqb_eq in Heq. destruct (trim_tight v) as [Hs He].
    rewrite <- Heq in Hs, He. rewrite Hs, He in Hpadded. discriminate.
Qed.

(** X9 on the calm page, which shows the SKU between two spaces; and with
    the SKU configured with a space before it. *)
Lemma X9_sku_is_compared_trimmed_witness :
  let spaced :=
    {| searchText := None; sku := " 6429440"; model := "RTX 3080";
       productName := "RTX 3080"; productPage := "/site/6429440.p" |} in
  fst (validateProductMatch Scenario.gpu Scenario.calm Scenario.start) = Ok tt
  /\ (startsWhite (sku spaced) || endsWhite (sku spaced))%bool = true
  /\ fst (validateProductMatch spaced Scenario.calm Scenario.start) <> Ok tt.
Proof.
  intros spaced.
  exact (conj
           (proj1 (X9_sku_is_compared_trimmed Scenario.gpu Scenario.calm
                     Scenario.start)
              " " " " eq_refl eq_refl eq_refl eq_refl eq_refl eq_refl)
           (conj eq_refl
              (proj2 (X9_sku_is_compared_trimmed spaced Scenario.calm Scenario.start)
                 eq_refl))).
Defined.

(* ================================================================== *)
(** ** The poll loop without a product *)

Section NoProduct.

Variable customerInformation : CustomerInformation.
Variable paymentInformation : PaymentInformation.
Variable autoCheckout : bool.

Lemma pollLoop_empty_never_returns fuel :
  Returns (fun _ _ => False)
    (pollLoop customerInformation paymentInformation autoCheckout [] fuel).
Proof.
  induction fuel as [| fuel IH]; cbn [pollLoop]; [intros env w u; discriminate|].
  apply (returns_bind (fun purchased _ => purchased = false)).
  - unfold purchaseProduct. apply returns_bind_last. intros _. cbn [purchaseLoop].
    apply returns_ret. reflexivity.
  - intros purchased env w u ->. cbn [negb]. revert env w u.
    apply (returns_bind_last (fun _ _ => False)). intros _. exact IH.
Qed.

Lemma pollLoop_empty_calls fuel :
  Counts isOtherThanPoll 0
    (pollLoop customerInformation paymentInformation autoCheckout [] fuel).
Proof.
  induction fuel as [| fuel IH]; cbn [pollLoop]; [counts_walk|].
  unfold purchaseProduct, backoff. cbn [purchaseLoop]. counts_walk.
Qed.

Lemma main_empty_never_returns fuel :
  Returns (fun _ _ => False)
    (main customerInformation paymentInformation autoCheckout [] fuel).
Proof.
  unfold main. do 4 (apply returns_bind_last; intros).
  apply returns_tryCatch.
  - apply (returns_bind (fun _ _ => False)); [apply pollLoop_empty_never_returns|].
    intros _ env w b [].
  - intros e. do 2 (apply returns_bind_last; intros). apply returns_throw.
Qed.

Lemma superviseLoop_empty_never_returns fuel :
  Returns (fun _ _ => False)
    (superviseLoop customerInformation paymentInformation autoCheckout [] fuel).
Proof.
  induction fuel as [| fuel IH]; cbn [superviseLoop]; [intros env w u; discriminate|].
  apply (returns_bind (fun finished _ => finished = false)).
  - apply returns_tryCatch.
    + apply (returns_weaken (fun _ _ => False));
        [intros a w [] | apply main_empty_never_returns].
    + intros e. do 2 (apply returns_bind_last; intros). apply returns_ret.
      reflexivity.
  - intros finished env w u ->. cbn [negb]. apply IH.
Qed.

End NoProduct.

(** X10.  With an empty list of products the poll loop never comes to an
    end: it returns at no fuel, and so the process never ends.  What it does
    meanwhile is to visit the store page, draw a waiting time, log it and
    wait, round after round. *)
Theorem X10_no_product_no_end
    customerInformation paymentInformation autoCheckout fuel env w :
  let poll := pollLoop customerInformation paymentInformation autoCheckout [] fuel in
  fst (poll env w) <> Ok tt
  /\ (exists evs,
        trace (snd (poll env w)) = (trace w ++ evs)%list /\
        count isOtherThanPoll evs = O)
  /\ fst (supervisor customerInformation paymentInformation autoCheckout [] fuel
            env w) <> Ok tt.
Proof.
  intros poll. split; [|split].
  - intros H. exact (pollLoop_empty_never_returns _ _ _ fuel env w tt H).
  - destruct (pollLoop_empty_calls customerInformation paymentInformation
                autoCheckout fuel env w) as (evs & Ht & Hc).
    exists evs. split; [exact Ht | lia].
  - intros H. revert H.
    assert (Hnever : Returns (fun _ _ => False)
                       (supervisor customerInformation paymentInformation
                          autoCheckout [] fuel)).
    { unfold supervisor. do 2 (apply returns_bind_last; intros).
      apply (returns_bind (fun _ _ => False));
        [apply superviseLoop_empty_never_returns | intros _ env' w' u []]. }
    exact (Hnever env w tt).
Qed.

(** The first two rounds, on the calm page. *)
Example two_rounds_without_a_product :
  let r := pollLoop Scenario.customer Scenario.payment false [] 2
             Scenario.calm Scenario.start in
  fst r = Diverge /\
  calls (trace (snd r)) =
    [Goto "https://bestbuy.com"; MathRandom;
     Log Warn "Purchase not completed, waiting 20000 ms before retrying";
     Wait 20000;
     Goto "https://bestbuy.com"; MathRandom;
     Log Warn "Purchase not completed, waiting 20000 ms before retrying";
     Wait 20000].
Proof. vm_compute. split; reflexivity. Qed.

(* ================================================================== *)
(** ** What is sent to Discord and Telegram *)

Lemma announcement_of_product products product :
  In product products ->
  isAnnouncement products (inStockMessage product) = true /\
  isAnnouncement products (addedMessage product) = true.
Proof.
  intros Hin. unfold isAnnouncement.
  assert (Hex : forall message,
            (String.eqb message (inStockMessage product)
             || String.eqb message (addedMessage product))%bool = true ->
            existsb (fun product' =>
                       String.eqb message (inStockMessage product')
                       || String.eqb message (addedMessage product'))%bool
              products = true).
  { intros message Hm. apply existsb_exists. exists product. split; assumption. }
  split; rewrite Hex, Bool.orb_true_r; try reflexivity;
    rewrite String.eqb_refl; [reflexivity | apply Bool.orb_true_r].
Qed.

Section Sends.

Variable customerInformation : CustomerInformation.
Variable paymentInformation : PaymentInformation.
Variable autoCheckout : bool.
Variable products : list ProductInformation.

Lemma sends_shippingLoop fuel :
  forall attempt, Counts (isOtherSend products) 0 (shippingLoop fuel attempt).
Proof.
  induction fuel as [| fuel IH]; intros attempt; cbn [shippingLoop]; [counts_walk|].
  unfold selectShipping. counts_walk.
Qed.

Lemma sends_checkout fuel :
  forall retrying,
    Counts (isOtherSend products) 0 (checkout customerInformation fuel retrying).
Proof.
  induction fuel as [| fuel IH]; intros retrying; cbn [checkout]; [counts_walk|].
  pose proof (sends_shippingLoop (S fuel) 1). pose proof (IH true).
  unfold checkoutPass, isCartEmpty, changeZipCode, clickCheckoutButton. counts_walk.
Qed.

Lemma sends_submitGuestOrder :
  Counts (isOtherSend products) 0
    (submitGuestOrder customerInformation paymentInformation autoCheckout).
Proof.
  unfold submitGuestOrder, completeOrderInformation, completeShippingInformation,
    completeContactInformation, completePaymentInformation, readTotal, validateTotal,
    placeOrder.
  counts_walk.
Qed.

Lemma sends_purchaseFlow fuel product :
  In product products ->
  Counts (isOtherSend products) 0
    (purchaseFlow customerInformation paymentInformation autoCheckout fuel product).
Proof.
  intros Hin. destruct (announcement_of_product products product Hin) as [Hs Ha].
  assert (H1 : isOtherSend products (HookSend (inStockMessage product)) = false)
    by (unfold isOtherSend; rewrite Hs; reflexivity).
  assert (H2 : isOtherSend products (TelegramSendMessage (inStockMessage product))
               = false)
    by (unfold isOtherSend; rewrite Hs; reflexivity).
  assert (H3 : isOtherSend products (HookSend (addedMessage product)) = false)
    by (unfold isOtherSend; rewrite Ha; reflexivity).
  assert (H4 : isOtherSend products (TelegramSendMessage (addedMessage product))
               = false)
    by (unfold isOtherSend; rewrite Ha; reflexivity).
  pose proof (sends_checkout fuel false). pose proof sends_submitGuestOrder.
  unfold purchaseFlow, goToProductPage, validateProductMatch, addToCart, isInStock,
    hasItemBeenAddedToCart, continueAsGuest.
  cbn [isOtherSend] in H1, H2, H3, H4. counts_walk; cbn [isOtherSend]; assumption.
Qed.

Lemma sends_purchaseLoop fuel candidates :
  (forall product, In product candidates -> In product products) ->
  Counts (isOtherSend products) 0
    (purchaseLoop customerInformation paymentInformation autoCheckout fuel candidates).
Proof.
  induction candidates as [| product rest IH]; intros Hin; cbn [purchaseLoop];
    [counts_walk|].
  pose proof (sends_purchaseFlow fuel product (Hin product (or_introl eq_refl))).
  pose proof (IH (fun p Hp => Hin p (or_intror Hp))).
  counts_walk.
Qed.

Lemma sends_pollLoop fuel :
  Counts (isOtherSend products) 0
    (pollLoop customerInformation paymentInformation autoCheckout products fuel).
Proof.
  induction fuel as [| fuel IH]; cbn [pollLoop]; [counts_walk|].
  pose proof (sends_purchaseLoop (S fuel) products (fun p Hp => Hp)).
  unfold purchaseProduct, backoff. counts_walk.
Qed.

Lemma sends_supervisor fuel :
  Counts (isOtherSend products) 0
    (supervisor customerInformation paymentInformation autoCheckout products fuel).
Proof.
  assert (Hmain : forall n,
            Counts (isOtherSend products) 0
              (main customerInformation paymentInformation autoCheckout products n)).
  { intros n. pose proof (sends_pollLoop n).
    unfold main, shutdown, open, close. counts_walk. }
  assert (Hloop : forall n,
            Counts (isOtherSend products) 0
              (superviseLoop customerInformation paymentInformation autoCheckout
                 products n)).
  { induction n as [| n IH]; cbn [superviseLoop]; [counts_walk|].
    pose proof (Hmain (S n)). counts_walk. }
  pose proof (Hloop fuel). unfold supervisor. counts_walk.
Qed.

End Sends.

(** X11.  Whatever happens, the texts that the process sends to Discord and
    Telegram are six sentences written in the source and, for a product of
    the list, the two sentences that name it; and the files it sends to
    Discord are five of its screenshots.  No other text is sent: what a
    notification says is taken from the source and from the list of
    products only. *)
Theorem X11_notifications_are_fixed_sentences
    customerInformation paymentInformation autoCheckout products fuel env w :
  exists evs,
    trace (snd (supervisor customerInformation paymentInformation autoCheckout
                  products fuel env w)) = (trace w ++ evs)%list /\
    count (isOtherSend products) evs = O.
Proof.
  destruct (sends_supervisor customerInformation paymentInformation autoCheckout
              products fuel env w) as (evs & Ht & Hc).
  exists evs. split; [exact Ht | lia].
Qed.

(** What is sent on the calm page. *)
Example sends_on_the_calm_page :
  let evs := trace (snd (supervisor Scenario.customer Scenario.payment false
                           [Scenario.gpu] 3 Scenario.calm Scenario.start)) in
  count isNotification evs = 16%nat /\ count (isOtherSend [Scenario.gpu]) evs = O.
Proof. vm_compute. split; reflexivity. Qed.

(* ================================================================== *)
(** ** The zip code *)

Section Zip.

Variable customerInformation : CustomerInformation.

Lemma zip_shippingLoop fuel :
  forall attempt, Counts isZipEntry 0 (shippingLoop fuel attempt).
Proof.
  induction fuel as [| fuel IH]; intros attempt; cbn [shippingLoop]; [counts_walk|].
  unfold selectShipping. counts_walk.
Qed.

Lemma zip_changeZipCode z : Counts isZipEntry 1 (changeZipCode z).
Proof.
  unfold changeZipCode.
  do 5 (apply counts_bind_l; [counts_walk | intros _]).
  apply counts_bind_r;
    [eapply counts_one; apply records_single, records_perform | intros _].
  counts_walk.
Qed.

Lemma zip_checkout_retry fuel :
  Counts isZipEntry 0 (checkout customerInformation fuel true).
Proof.
  induction fuel as [| fuel IH]; cbn [checkout]; [counts_walk|].
  unfold checkoutPass, clickCheckoutButton, isCartEmpty. cbn [negb]. counts_walk.
Qed.

Lemma zip_checkout fuel : Counts isZipEntry 1 (checkout customerInformation fuel false).
Proof.
  destruct fuel as [| fuel]; cbn [checkout].
  - apply (counts_weaken _ _ 0 1); [lia | counts_walk].
  - apply counts_bind_r.
    + unfold checkoutPass. cbn [negb].
      do 3 (apply counts_bind_l; [counts_walk | intros _]).
      apply counts_bind_r.
      * apply counts_bind_r; [apply zip_changeZipCode | intros _].
        apply zip_shippingLoop.
      * intros _. unfold clickCheckoutButton. counts_walk.
    + intros _. pose proof (zip_checkout_retry fuel). counts_walk.
Qed.

End Zip.

(** X12.  [checkout] enters the zip code once at most, on its first pass;
    a retry pass, and every pass that follows it, enters none. *)
Theorem X12_zip_code_entered_once customerInformation fuel env w :
  (exists evs,
     trace (snd (checkout customerInformation fuel false env w)) = (trace w ++ evs)%list /\
     (count isZipEntry evs <= 1)%nat)
  /\ (exists evs,
        trace (snd (checkout customerInformation fuel true env w))
          = (trace w ++ evs)%list /\
        count isZipEntry evs = O).
Proof.
  split.
  - apply zip_checkout.
  - destruct (zip_checkout_retry customerInformation fuel env w) as (evs & Ht & Hc).
    exists evs. split; [exact Ht | lia].
Qed.

(** The zip code on the page where the guest prompt times out twice: three
    passes, one entry. *)
Example zip_code_with_two_retries :
  let evs := trace (snd (checkout Scenario.customer 5 false (slowPrompt 2)
                           Scenario.start)) in
  passes evs = 3%nat /\ count isZipEntry evs = 1%nat.
Proof. vm_compute. split; reflexivity. Qed.

(* ================================================================== *)
(** * [paths.js] *)

Section PathAliases.

Import Paths.

Lemma substring_all s : substring 0 (String.length s) s = s.
Proof. induction s as [| c s IH]; cbn; [reflexivity | rewrite IH; reflexivity]. Qed.

Lemma prefix_nil s : prefix "" s = true.
Proof. destruct s; reflexivity. Qed.

(** [replace] and the first occurrence of the pattern, as [index] finds
    it. *)
Lemma replace_index pattern replacement s :
  pattern <> "" ->
  match index 0 pattern s with
  | Some n =>
      replace pattern replacement s =
        substring 0 n s ++ replacement
        ++ substring (n + String.length pattern)
             (String.length s - (n + String.length pattern)) s
  | None => replace pattern replacement s = s
  end.
Proof.
  intros Hpattern. induction s as [| c s IH].
  - destruct pattern as [| p pattern]; [congruence | reflexivity].
  - cbn [index replace].
    destruct (prefix pattern (String c s)) eqn:Hprefix.
    + reflexivity.
    + destruct (index 0 pattern s) as [n | ].
      * rewrite IH. reflexivity.
      * rewrite IH. reflexivity.
Qed.

(** The [replace('$', '')] of [submitGuestOrder] is this [replace]. *)
Lemma replace_dollar s : replace "$" "" s = JsString.removeFirst "$" s.
Proof.
  induction s as [| c s IH]; [reflexivity|].
  cbn [replace JsString.removeFirst prefix].
  destruct (ascii_dec "$" c) as [<- | Hc].
  - rewrite prefix_nil. cbn. rewrite Nat.sub_0_r. apply substring_all.
  - destruct (Ascii.eqb "$" c) eqn:Heq; [apply Ascii.eqb_eq in Heq; contradiction|].
    rewrite IH. reflexivity.
Qed.

Lemma getOwn_define {V} (l : list (string * V)) key v key' :
  getOwn (define l key v) key' = if String.eqb key key' then Some v else getOwn l key'.
Proof.
  induction l as [| [k x] l IH]; cbn [define getOwn]; [reflexivity|].
  destruct (String.eqb k key) eqn:Hk.
  - apply String.eqb_eq in Hk. subst k. cbn [getOwn].
    destruct (String.eqb key key'); reflexivity.
  - destruct (comesBefore key k); cbn [getOwn]; [reflexivity|].
    destruct (String.eqb k key') eqn:Hk'; [|exact IH].
    apply String.eqb_eq in Hk'. subst k. rewrite String.eqb_sym, Hk. reflexivity.
Qed.

Lemma assign_proto {V} (o : object V) v :
  lookup o "__proto__" = None ->
  assign o "__proto__" v = {| properties := properties o; prototype := Some v |}.
Proof. unfold assign. intros ->. reflexivity. Qed.

Lemma assign_other {V} (o : object V) key v :
  key <> "__proto__" ->
  assign o key v = {| properties := define (properties o) key v;
                      prototype := prototype o |}.
Proof.
  intros Hkey. unfold assign.
  destruct (String.eqb key "__proto__") eqn:Heq; [|reflexivity].
  apply String.eqb_eq in Heq. contradiction.
Qed.

Lemma lookup_key {V} (o : object V) key :
  In key (keys o) -> lookup o key <> None.
Proof.
  unfold keys, lookup. induction (properties o) as [| [k x] l IH]; cbn; [contradiction|].
  intros [-> | Hin]; [rewrite String.eqb_refl; discriminate|].
  destruct (String.eqb k key); [discriminate | apply IH; exact Hin].
Qed.

Lemma lookup_no_key {V} (o : object V) key :
  ~ In key (keys o) -> lookup o key = None.
Proof.
  unfold keys, lookup. induction (properties o) as [| [k x] l IH]; cbn; [reflexivity|].
  intros Hnot. destruct (String.eqb k key) eqn:Hk.
  - apply String.eqb_eq in Hk. tauto.
  - apply IH. tauto.
Qed.

Lemma existsb_eqb key ks : existsb (String.eqb key) ks = true <-> In key ks.
Proof.
  rewrite existsb_exists. split.
  - intros (k & Hin & Heq). apply String.eqb_eq in Heq. subst k. exact Hin.
  - intros Hin. exists key. split; [exact Hin | apply String.eqb_refl].
Qed.

(** The loop never fails on keys of [paths], creates no own property
    [__proto__], and leaves under every other key that it visits the
    redirected destinations. *)
Lemma forEach_lookup paths ks : forall parsed,
  (forall key, In key ks -> lookup paths key <> None) ->
  lookup parsed "__proto__" = None ->
  exists parsed',
    forEach paths ks parsed = Some parsed' /\
    lookup parsed' "__proto__" = None /\
    forall key,
      key <> "__proto__" ->
      lookup parsed' key =
        if existsb (String.eqb key) ks
        then option_map (map redirect) (lookup paths key)
        else lookup parsed key.
Proof.
  induction ks as [| k ks IH]; intros parsed Hks Hproto; cbn [forEach].
  - exists parsed. split; [reflexivity|]. split; [exact Hproto|]. intros key _. reflexivity.
  - destruct (lookup paths k) as [destinations | ] eqn:Hk;
      [|destruct (Hks k (or_introl eq_refl) Hk)].
    assert (Hnext : lookup (assign parsed k (map redirect destinations)) "__proto__"
                    = None).
    { destruct (string_dec k "__proto__") as [-> | Hne].
      - rewrite assign_proto by exact Hproto. exact Hproto.
      - rewrite assign_other by exact Hne. unfold lookup. cbn [properties].
        rewrite getOwn_define.
        destruct (String.eqb k "__proto__") eqn:Heq; [|exact Hproto].
        apply String.eqb_eq in Heq. contradiction. }
    destruct (IH (assign parsed k (map redirect destinations))
                (fun key Hin => Hks key (or_intror Hin)) Hnext)
      as (parsed' & Hrun & Hproto' & Hlookup).
    exists parsed'. split; [exact Hrun|]. split; [exact Hproto'|].
    intros key Hkey. rewrite (Hlookup key Hkey).
    cbn [existsb]. destruct (existsb (String.eqb key) ks).
    + rewrite Bool.orb_true_r. reflexivity.
    + rewrite Bool.orb_false_r.
      destruct (string_dec k "__proto__") as [-> | Hne].
      * rewrite assign_proto by exact Hproto. unfold lookup at 1. cbn [properties].
        destruct (String.eqb key "__proto__") eqn:Heq; [|reflexivity].
        apply String.eqb_eq in Heq. contradiction.
      * rewrite assign_other by exact Hne. unfold lookup at 1. cbn [properties].
        rewrite getOwn_define, (String.eqb_sym k key).
        destruct (String.eqb key k) eqn:Heq; [|reflexivity].
        apply String.eqb_eq in Heq. subst key. rewrite Hk. reflexivity.
Qed.

(** The destinations under [__proto__], if [paths] has this key, become the
    prototype. *)
Lemma forEach_prototype paths ks : forall parsed parsed',
  lookup parsed "__proto__" = None ->
  forEach paths ks parsed = Some parsed' ->
  prototype parsed' =
    if existsb (String.eqb "__proto__") ks
    then option_map (map redirect) (lookup paths "__proto__")
    else prototype parsed.
Proof.
  induction ks as [| k ks IH]; intros parsed parsed' Hproto; cbn [forEach].
  - intros H. injection H as <-. reflexivity.
  - destruct (lookup paths k) as [destinations | ] eqn:Hk; [|discriminate].
    intros Hrun. cbn [existsb].
    destruct (string_dec k "__proto__") as [-> | Hne].
    + rewrite assign_proto in Hrun by exact Hproto.
      rewrite (IH _ parsed' (Hproto : lookup {| properties := properties parsed;
                                               prototype := _ |} "__proto__" = None)
                 Hrun), Hk.
      cbn [prototype option_map]. rewrite String.eqb_refl. cbn [orb].
      destruct (existsb (String.eqb "__proto__") ks); reflexivity.
    + rewrite assign_other in Hrun by exact Hne.
      assert (Hnext : lookup {| properties := define (properties parsed) k
                                                (map redirect destinations);
                                prototype := prototype parsed |} "__proto__" = None).
      { unfold lookup. cbn [properties]. rewrite getOwn_define.
        destruct (String.eqb k "__proto__") eqn:Heq; [|exact Hproto].
        apply String.eqb_eq in Heq. contradiction. }
      rewrite (IH _ parsed' Hnext Hrun). cbn [prototype].
      destruct (String.eqb "__proto__" k) eqn:Heq; [|reflexivity].
      apply String.eqb_eq in Heq. congruence.
Qed.

(** A new property that comes before none of those that are there is
    created last. *)
Lemma keys_define_last {V} (l : list (string * V)) key v :
  (forall k, In k (map fst l) -> k <> key /\ comesBefore key k = false) ->
  map fst (define l key v) = (map fst l ++ [key])%list.
Proof.
  induction l as [| [k x] l IH]; cbn [define map fst app]; [reflexivity|].
  intros Hl. destruct (Hl k (or_introl eq_refl)) as [Hne Hlater].
  destruct (String.eqb k key) eqn:Hk; [apply String.eqb_eq in Hk; contradiction|].
  rewrite Hlater. cbn [map fst]. rewrite IH; [reflexivity|].
  intros k' Hin. apply Hl. right. exact Hin.
Qed.

Lemma inKeyOrder_cons k ks :
  inKeyOrder (k :: ks) = true ->
  inKeyOrder ks = true /\
  forall k', In k' ks -> k <> k' /\ comesBefore k' k = false.
Proof.
  cbn [inKeyOrder]. rewrite !Bool.andb_true_iff, Bool.negb_true_iff, forallb_forall.
  intros [[Hnew Hlater] Hrest]. split; [exact Hrest|].
  intros k' Hin. split.
  - intros <-. apply existsb_eqb in Hin. congruence.
  - specialize (Hlater k' Hin). apply Bool.negb_true_iff in Hlater. exact Hlater.
Qed.

(** The keys of the object built are the keys visited, in their order,
    but for [__proto__]. *)
Lemma forEach_keys paths ks : forall parsed parsed',
  inKeyOrder ks = true ->
  (forall k k', In k ks -> In k' (keys parsed) -> k' <> k /\ comesBefore k k' = false) ->
  lookup parsed "__proto__" = None ->
  forEach paths ks parsed = Some parsed' ->
  keys parsed' = (keys parsed ++ filter isOwnable ks)%list.
Proof.
  induction ks as [| k ks IH]; intros parsed parsed' Horder Hfresh Hproto;
    cbn [forEach filter].
  - intros H. injection H as <-. rewrite app_nil_r. reflexivity.
  - destruct (lookup paths k) as [destinations | ]; [|discriminate].
    intros Hrun. apply inKeyOrder_cons in Horder. destruct Horder as [Horder Hk].
    destruct (string_dec k "__proto__") as [-> | Hne].
    + rewrite assign_proto in Hrun by exact Hproto.
      cbn [isOwnable String.eqb negb].
      replace (keys parsed)
        with (keys {| properties := properties parsed;
                      prototype := Some (map redirect destinations) |})
        by reflexivity.
      apply (IH _ parsed' Horder); [|exact Hproto | exact Hrun].
      intros k1 k' Hin Hin'. apply Hfresh; [right; exact Hin | exact Hin'].
    + rewrite assign_other in Hrun by exact Hne.
      assert (Hnew : keys {| properties := define (properties parsed) k
                                             (map redirect destinations);
                             prototype := prototype parsed |}
                     = (keys parsed ++ [k])%list).
      { unfold keys. cbn [properties]. apply keys_define_last.
        intros k' Hin. apply Hfresh; [left; reflexivity | exact Hin]. }
      unfold isOwnable at 1.
      replace (String.eqb k "__proto__") with false
        by (symmetry; apply String.eqb_neq; exact Hne).
      cbn [negb].
      rewrite (IH {| properties := define (properties parsed) k
                                     (map redirect destinations);
                     prototype := prototype parsed |} parsed' Horder);
        [| | |exact Hrun].
      * rewrite Hnew, <- app_assoc. reflexivity.
      * intros k1 k' Hin Hin'. rewrite Hnew in Hin'. apply in_app_or in Hin'.
        destruct Hin' as [Hin' | [<- | []]].
        -- apply Hfresh; [right; exact Hin | exact Hin'].
        -- destruct (Hk k1 Hin) as [Hdiff Hlater]. split; assumption.
      * unfold lookup. cbn [properties]. rewrite getOwn_define.
        destruct (String.eqb k "__proto__") eqn:Heq; [|exact Hproto].
        apply String.eqb_eq in Heq. contradiction.
Qed.

End PathAliases.

(** X13.  [paths.js] gives [tsConfigPaths.register] an object made from the
    aliases of [tsconfig.json], and never fails.  Every alias other than
    [__proto__] is an own property of it, with the destinations it had, in
    their order, each of them redirected, and the object has no other own
    property; its keys come in the order of the keys of the aliases.  An
    alias named [__proto__] is lost: the assignment makes its redirected
    destinations the prototype of the object, which has no own property of
    that name. *)
Theorem X13_every_alias_is_redirected (paths : Paths.object (list string)) :
  Paths.inKeyOrder (Paths.keys paths) = true ->
  exists parsed,
    Paths.parsedPaths paths = Some parsed /\
    (forall key,
       key <> "__proto__" ->
       Paths.lookup parsed key
         = option_map (map Paths.redirect) (Paths.lookup paths key)) /\
    Paths.lookup parsed "__proto__" = None /\
    Paths.prototype parsed
      = option_map (map Paths.redirect) (Paths.lookup paths "__proto__") /\
    Paths.keys parsed = filter Paths.isOwnable (Paths.keys paths).
Proof.
  intros Horder. unfold Paths.parsedPaths.
  destruct (forEach_lookup paths (Paths.keys paths) Paths.empty
              (fun key Hin => lookup_key paths key Hin) eq_refl)
    as (parsed & Hrun & Hproto & Hlookup).
  exists parsed. split; [exact Hrun|]. split; [|split; [exact Hproto|split]].
  - intros key Hkey. rewrite (Hlookup key Hkey).
    destruct (existsb (String.eqb key) (Paths.keys paths)) eqn:Hex; [reflexivity|].
    rewrite (lookup_no_key paths key); [reflexivity|].
    intros Hin. apply existsb_eqb in Hin. congruence.
  - rewrite (forEach_prototype paths (Paths.keys paths) Paths.empty parsed eq_refl Hrun).
    destruct (existsb (String.eqb "__proto__") (Paths.keys paths)) eqn:Hex;
      [reflexivity|].
    rewrite (lookup_no_key paths "__proto__"); [reflexivity|].
    intros Hin. apply existsb_eqb in Hin. congruence.
  - apply (forEach_keys paths (Paths.keys paths) Paths.empty parsed Horder);
      [intros k k' _ [] | reflexivity | exact Hrun].
Qed.

(** X13 on the aliases that the imports of the sources need. *)
Lemma X13_every_alias_is_redirected_witness :
  Paths.inKeyOrder (Paths.keys Paths.aliases) = true /\
  exists parsed,
    Paths.parsedPaths Paths.aliases = Some parsed /\
    (forall key,
       key <> "__proto__" ->
       Paths.lookup parsed key
         = option_map (map Paths.redirect) (Paths.lookup Paths.aliases key)) /\
    Paths.lookup parsed "__proto__" = None /\
    Paths.prototype parsed
      = option_map (map Paths.redirect) (Paths.lookup Paths.aliases "__proto__") /\
    Paths.keys parsed = filter Paths.isOwnable (Paths.keys Paths.aliases).
Proof.
  assert (Horder : Paths.inKeyOrder (Paths.keys Paths.aliases) = true)
    by (vm_compute; reflexivity).
  exact (conj Horder (X13_every_alias_is_redirected Paths.aliases Horder)).
Defined.

Example parsedPaths_of_the_aliases :
  Paths.parsedPaths Paths.aliases
  = Some {| Paths.properties :=
              [("@core/*", ["dist/src/core/*"]); ("@pages/*", ["dist/src/pages/*"]);
               ("@driver/*", ["dist/src/driver/*"]); ("@config/*", ["config/*"])];
            Paths.prototype := None |}.
Proof. vm_compute. reflexivity. Qed.

(** An alias named [__proto__] does not reach [register]: the object has
    the other aliases only, and an array as its prototype. *)
Example parsedPaths_with_a_proto_alias :
  Paths.parsedPaths
    {| Paths.properties := [("@core/*", ["src/core/*"]); ("__proto__", ["src/x"])];
       Paths.prototype := None |}
  = Some {| Paths.properties := [("@core/*", ["dist/src/core/*"])];
            Paths.prototype := Some ["dist/src/x"] |}.
Proof. vm_compute. reflexivity. Qed.

(** The keys that are array indices come first, whatever the order in which
    the properties are created. *)
Example assign_of_an_array_index :
  Paths.keys
    (Paths.assign
       (Paths.assign (Paths.assign Paths.empty "b" ["src/b"]) "10" ["src/10"])
       "9" ["src/9"])
  = ["9"; "10"; "b"]
  /\ Paths.arrayIndex "4294967294" = Some 4294967294
  /\ Paths.arrayIndex "4294967295" = None
  /\ Paths.arrayIndex "07" = None.
Proof. vm_compute. repeat split; reflexivity. Qed.

(** X14.  The redirection of a destination replaces its first [src], where
    [index] finds it, by [dist/src], and leaves a destination without [src]
    as it is.  So a destination under [src] goes under [dist/src]; but the
    pattern is looked for anywhere, and a redirected destination still has
    it: redirected again, it goes under [dist/dist/src]. *)
Theorem X14_redirect_replaces_the_first_src (destination : string) :
  match index 0 "src" destination with
  | Some n =>
      Paths.redirect destination =
        substring 0 n destination ++ "dist/src"
        ++ substring (n + 3) (String.length destination - (n + 3)) destination
  | None => Paths.redirect destination = destination
  end
  /\ Paths.redirect ("src" ++ destination) = "dist/src" ++ destination
  /\ Paths.redirect (Paths.redirect ("src" ++ destination))
       = "dist/dist/src" ++ destination.
Proof.
  split; [|split].
  - apply (replace_index "src" "dist/src" destination). discriminate.
  - unfold Paths.redirect. cbn. rewrite prefix_nil, Nat.sub_0_r, substring_all.
    reflexivity.
  - unfold Paths.redirect. cbn. rewrite prefix_nil. cbn.
    rewrite prefix_nil, !Nat.sub_0_r, !substring_all. reflexivity.
Qed.

Example redirect_of_a_path_with_src_inside :
  Paths.redirect "lib/resrc/x" = "lib/redist/src/x".
Proof. reflexivity. Qed.

(* ================================================================== *)
(** ** The total, when it is shown in whole dollars *)

(** *** The numeral of an integer, read by [parseFloat] *)

Ltac read_digit :=
  match goal with
  | |- context [digitOf ?c] =>
      let v := eval vm_compute in (digitOf c) in change (digitOf c) with v
  end; cbv iota beta.

Lemma digits_acc d : forall p len,
  digits (NilEmpty.string_of_uint d) (Zpos p) len
    = (Zpos (Pos.of_uint_acc d p), (len + Decimal.nb_digits d)%nat, "").
Proof.
  induction d; intros p len;
    cbn [NilEmpty.string_of_uint digits Pos.of_uint_acc Decimal.nb_digits];
    [rewrite Nat.add_0_r; reflexivity | ..];
    read_digit;
    match goal with
    | |- digits _ ?acc _ = (Z.pos (Pos.of_uint_acc _ ?q), _, _) =>
        replace acc with (Z.pos q) by lia; rewrite IHd, Nat.add_succ_r; reflexivity
    end.
Qed.

Lemma digits_uint d : forall len,
  digits (NilEmpty.string_of_uint d) 0 len
    = (Z.of_N (Pos.of_uint d), (len + Decimal.nb_digits d)%nat, "").
Proof.
  induction d; intros len;
    cbn [NilEmpty.string_of_uint digits Pos.of_uint Decimal.nb_digits];
    [rewrite Nat.add_0_r; reflexivity | ..];
    read_digit; cbn [Z.mul Z.add Z.of_N];
    [ rewrite IHd, Nat.add_succ_r; reflexivity
    | rewrite digits_acc, Nat.add_succ_r; reflexivity .. ].
Qed.

Lemma ofDecimal_integer v : 0 <= v -> ofDecimal false v 0 = ofZ v.
Proof.
  intros Hv. unfold ofDecimal. destruct (v =? 0) eqn:Hzero.
  - apply Z.eqb_eq in Hzero. subst v. reflexivity.
  - change (0 <=? 0) with true. cbv iota. rewrite Z.pow_0_r, Z.mul_1_r. reflexivity.
Qed.

Lemma parseFloat_numeral d :
  d <> Decimal.Nil ->
  parseFloat (NilEmpty.string_of_uint d) = ofZ (Z.of_N (Pos.of_uint d)).
Proof.
  intros Hd.
  assert (Hhead : parseFloat (NilEmpty.string_of_uint d)
                  = unsignedLiteral false (NilEmpty.string_of_uint d))
    by (destruct d; [congruence | reflexivity ..]).
  rewrite Hhead. unfold unsignedLiteral.
  assert (Hinf : prefix "Infinity" (NilEmpty.string_of_uint d) = false)
    by (destruct d; [congruence | reflexivity ..]).
  rewrite Hinf, digits_uint.
  assert (Hlen : exists n, (0 + Decimal.nb_digits d)%nat = S n)
    by (destruct d; [congruence | eexists; reflexivity ..]).
  destruct Hlen as (n & ->). cbn [exponentPart].
  apply ofDecimal_integer. apply N2Z.is_nonneg.
Qed.

Lemma parseFloat_showZ n : 0 <= n -> parseFloat (showZ n) = ofZ n.
Proof.
  intros Hn. destruct n as [| p | p]; [reflexivity | | lia].
  unfold showZ. cbn [Z.to_int NilZero.string_of_int].
  pose proof (DecimalPos.Unsigned.to_uint_nonnil p) as Hnil.
  assert (Hshow : NilZero.string_of_uint (Pos.to_uint p)
                  = NilEmpty.string_of_uint (Pos.to_uint p))
    by (destruct (Pos.to_uint p); [congruence | reflexivity ..]).
  rewrite Hshow, (parseFloat_numeral _ Hnil), DecimalPos.Unsigned.of_to.
  reflexivity.
Qed.

(** *** Integers as numbers *)

Lemma digits2_pos_unique q n :
  2 ^ (n - 1) <= Zpos q < 2 ^ n -> Zpos (digits2_pos q) = n.
Proof.
  intros [Hlow Hup]. pose proof (digits2_pos_bounds q) as [Hl Hu].
  assert (Hn : 0 < n).
  { destruct (Z.lt_ge_cases 0 n) as [H | H]; [exact H|].
    exfalso. assert (2 ^ n <= 2 ^ 0) by (apply Z.pow_le_mono_r; lia).
    change (2 ^ 0) with 1 in *. lia. }
  destruct (Z.lt_trichotomy (Zpos (digits2_pos q)) n) as [H | [H | H]]; [|exact H|].
  - exfalso. assert (2 ^ Zpos (digits2_pos q) <= 2 ^ (n - 1))
      by (apply Z.pow_le_mono_r; lia). lia.
  - exfalso. assert (2 ^ n <= 2 ^ (Zpos (digits2_pos q) - 1))
      by (apply Z.pow_le_mono_r; lia). lia.
Qed.

Lemma iter_xO_value p k : Zpos (Pos.iter xO p k) = Zpos p * 2 ^ Zpos k.
Proof.
  revert p. induction k as [| k IH] using Pos.peano_ind; intros p.
  - cbn [Pos.iter]. rewrite Z.pow_1_r. lia.
  - rewrite Pos.iter_succ, Pos2Z.inj_succ, Z.pow_succ_r by lia.
    rewrite (Pos2Z.inj_xO (Pos.iter xO p k)), IH. ring.
Qed.

(** An integer below 2^53 is a number as it is: its mantissa is the integer
    shifted to 53 bits. *)
Lemma ofZ_exact p :
  Zpos p < 2 ^ 53 ->
  let d := Zpos (digits2_pos p) in
  exists m, ofZ (Zpos p) = S754_finite false m (d - 53)
            /\ Zpos m = Zpos p * 2 ^ (53 - d).
Proof.
  intros Hp d. pose proof (digits2_pos_bounds p) as [Hlow Hup]. fold d in Hlow, Hup.
  assert (Hd : 1 <= d <= 53).
  { split; [unfold d; lia | apply digits2_pos_le; [lia | exact Hp]]. }
  unfold ofZ, binary_normalize, binary_round. fold d.
  rewrite Z.add_0_r.
  assert (Hfexp : fexp prec emax d = d - 53) by (unfold fexp, emin, prec, emax; lia).
  rewrite Hfexp. unfold shl_align.
  assert (Haligned : exists mz,
            (match d - 53 - 0 with
             | Z.neg s => (Pos.iter xO p s, d - 53)
             | _ => (p, 0)
             end) = (mz, d - 53)
            /\ Zpos mz = Zpos p * 2 ^ (53 - d)).
  { destruct (d - 53 - 0) as [| s | s] eqn:Hs; try lia.
    - exists p. replace (53 - d) with 0 by lia. split; [f_equal; lia | lia].
    - exists (Pos.iter xO p s). split; [reflexivity|].
      rewrite iter_xO_value. f_equal. f_equal. lia. }
  destruct Haligned as (mz & -> & Hmz). exists mz. split; [|exact Hmz].
  assert (Hdz : Zpos (digits2_pos mz) = 53).
  { apply digits2_pos_unique. rewrite Hmz.
    assert (Hpow : 0 < 2 ^ (53 - d)) by (apply Z.pow_pos_nonneg; lia).
    replace (2 ^ (53 - 1)) with (2 ^ (d - 1) * 2 ^ (53 - d))
      by (rewrite <- Z.pow_add_r by lia; f_equal; lia).
    replace (2 ^ 53) with (2 ^ d * 2 ^ (53 - d))
      by (rewrite <- Z.pow_add_r by lia; f_equal; lia).
    split; [apply Z.mul_le_mono_nonneg_r; lia | apply Z.mul_lt_mono_pos_r; lia]. }
  unfold binary_round_aux, shr_fexp. cbn [Zdigits2]. rewrite Hdz.
  assert (Hfexp2 : fexp prec emax (53 + (d - 53)) - (d - 53) = 0)
    by (unfold fexp, emin, prec, emax; lia).
  rewrite Hfexp2. cbn [shr shr_record_of_loc shr_m loc_of_shr_record round_nearest_even].
  cbn [Zdigits2]. rewrite Hdz, Hfexp2. cbn [shr shr_m].
  assert (Hfit : (d - 53 <=? emax - prec) = true)
    by (apply Z.leb_le; unfold emax, prec; lia).
  rewrite Hfit. reflexivity.
Qed.

Lemma compare_ofZ_pos a b :
  Zpos a < 2 ^ 53 -> Zpos b < 2 ^ 53 ->
  SFcompare (ofZ (Zpos a)) (ofZ (Zpos b)) = Some (Zpos a ?= Zpos b).
Proof.
  intros Ha Hb.
  destruct (ofZ_exact a Ha) as (ma & -> & Hma).
  destruct (ofZ_exact b Hb) as (mb & -> & Hmb).
  pose proof (digits2_pos_bounds a) as [Hla Hua].
  pose proof (digits2_pos_bounds b) as [Hlb Hub].
  pose proof (digits2_pos_le a 53 ltac:(lia) Ha) as Hda.
  pose proof (digits2_pos_le b 53 ltac:(lia) Hb) as Hdb.
  set (da := Zpos (digits2_pos a)) in *. set (db := Zpos (digits2_pos b)) in *.
  cbn [SFcompare]. f_equal.
  destruct (Z.compare_spec (da - 53) (db - 53)) as [He | He | He].
  - assert (Hd : da = db) by lia. rewrite Hd in Hma.
    rewrite Pos.compare_cont_spec.
    replace (Pos.switch_Eq Eq (Pos.compare ma mb)) with (Pos.compare ma mb)
      by (destruct (Pos.compare ma mb); reflexivity).
    assert (Hpow : 0 < 2 ^ (53 - db)) by (apply Z.pow_pos_nonneg; lia).
    change (Pos.compare ma mb) with (Zpos ma ?= Zpos mb). rewrite Hma, Hmb.
    destruct (Z.compare_spec (Zpos a) (Zpos b)) as [H | H | H].
    + rewrite H. apply Z.compare_refl.
    + apply Z.compare_lt_iff. apply Z.mul_lt_mono_pos_r; lia.
    + apply Z.compare_gt_iff. apply Z.mul_lt_mono_pos_r; lia.
  - symmetry. apply Z.compare_lt_iff.
    assert (2 ^ da <= 2 ^ (db - 1)) by (apply Z.pow_le_mono_r; lia). lia.
  - symmetry. apply Z.compare_gt_iff.
    assert (2 ^ db <= 2 ^ (da - 1)) by (apply Z.pow_le_mono_r; lia). lia.
Qed.

Lemma compare_ofZ a b :
  0 <= a < 2 ^ 53 -> 0 <= b < 2 ^ 53 ->
  SFcompare (ofZ a) (ofZ b) = Some (a ?= b).
Proof.
  intros Ha Hb. destruct a as [| a | a], b as [| b | b]; try lia.
  - reflexivity.
  - destruct (ofZ_exact b ltac:(lia)) as (mb & -> & _). reflexivity.
  - destruct (ofZ_exact a ltac:(lia)) as (ma & -> & _). reflexivity.
  - apply compare_ofZ_pos; lia.
Qed.

Lemma totalRejected_integers n b :
  0 <= n < 2 ^ 53 -> 0 <= b < 2 ^ 53 ->
  totalRejected (ofZ n) (ofZ b) = ((n =? 0) || (b <? n))%bool.
Proof.
  intros Hn Hb. unfold totalRejected, strictEq, gt, SFeqb.
  change zero with (ofZ 0).
  rewrite (compare_ofZ n 0 Hn ltac:(lia)), (compare_ofZ n b Hn Hb).
  destruct (Z.compare_spec n 0), (Z.compare_spec n b);
    destruct (Z.eqb_spec n 0), (Z.ltb_spec b n); try reflexivity; lia.
Qed.

(** X15.  A total shown as a dollar sign and the decimal numeral of an
    integer below 2^53, without separators, is read as that integer; and
    against a budget that is such an integer too, the total validation
    fails exactly when the total is 0 or above the budget. *)
Theorem X15_whole_dollar_totals (n b : Z) :
  0 <= n < 2 ^ 53 -> 0 <= b < 2 ^ 53 ->
  let text := "$" ++ showZ n in
  parsedTotal (Some text) = ofZ n
  /\ totalRejected (parsedTotal (Some text)) (ofZ b) = ((n =? 0) || (b <? n))%bool
  /\ (forall customerInformation env w,
        budget customerInformation = ofZ b ->
        fst (validateTotal customerInformation (parsedTotal (Some text)) env w) =
          if ((n =? 0) || (b <? n))%bool then Throw totalMessage else Ok tt).
Proof.
  intros Hn Hb text.
  assert (Hread : parsedTotal (Some text) = ofZ n).
  { subst text. cbn [parsedTotal append JsString.truthy JsString.removeFirst].
    change (Ascii.eqb "$" "$") with true. cbv iota. apply parseFloat_showZ. lia. }
  rewrite Hread. split; [reflexivity|].
  split; [apply totalRejected_integers; assumption|].
  intros customerInformation env w Hbudget. unfold validateTotal.
  rewrite Hbudget, (totalRejected_integers n b Hn Hb).
  destruct ((n =? 0) || (b <? n))%bool; reflexivity.
Qed.

(** X15 on a total of 699 dollars and on one of 1299, with the budget of
    800. *)
Lemma X15_whole_dollar_totals_witness :
  (0 <= 699 < 2 ^ 53 /\ 0 <= 800 < 2 ^ 53 /\
   parsedTotal (Some "$699") = ofZ 699 /\
   totalRejected (parsedTotal (Some "$699")) (ofZ 800) = false)
  /\ (0 <= 1299 < 2 ^ 53 /\
      totalRejected (parsedTotal (Some "$1299")) (ofZ 800) = true).
Proof.
  assert (H699 : 0 <= 699 < 2 ^ 53) by (split; [discriminate | reflexivity]).
  assert (H800 : 0 <= 800 < 2 ^ 53) by (split; [discriminate | reflexivity]).
  assert (H1299 : 0 <= 1299 < 2 ^ 53) by (split; [discriminate | reflexivity]).
  pose proof (X15_whole_dollar_totals 699 800 H699 H800) as (Hread & Hgate & _).
  pose proof (X15_whole_dollar_totals 1299 800 H1299 H800) as (_ & Hgate' & _).
  exact (conj (conj H699 (conj H800 (conj Hread Hgate))) (conj H1299 Hgate')).
Defined.

(* ================================================================== *)
(** ** Where the process navigates *)

Section Visits.

Variable customerInformation : CustomerInformation.
Variable paymentInformation : PaymentInformation.
Variable autoCheckout : bool.
Variable products : list ProductInformation.

Lemma visits_shippingLoop fuel :
  forall attempt, Counts (isOtherVisit products) 0 (shippingLoop fuel attempt).
Proof.
  induction fuel as [| fuel IH]; intros attempt; cbn [shippingLoop]; [counts_walk|].
  unfold selectShipping. counts_walk.
Qed.

Lemma visits_checkout fuel :
  forall retrying,
    Counts (isOtherVisit products) 0 (checkout customerInformation fuel retrying).
Proof.
  induction fuel as [| fuel IH]; intros retrying; cbn [checkout]; [counts_walk|].
  pose proof (visits_shippingLoop (S fuel) 1). pose proof (IH true).
  unfold checkoutPass, isCartEmpty, changeZipCode, clickCheckoutButton. counts_walk.
Qed.

Lemma visits_submitGuestOrder :
  Counts (isOtherVisit products) 0
    (submitGuestOrder customerInformation paymentInformation autoCheckout).
Proof.
  unfold submitGuestOrder, completeOrderInformation, completeShippingInformation,
    completeContactInformation, completePaymentInformation, readTotal, validateTotal,
    placeOrder.
  counts_walk.
Qed.

Lemma visits_purchaseFlow fuel product :
  In product products ->
  Counts (isOtherVisit products) 0
    (purchaseFlow customerInformation paymentInformation autoCheckout fuel product).
Proof.
  intros Hin.
  assert (Hpage : isOtherVisit products (Goto (bestBuyUrl ++ productPage product))
                  = false).
  { unfold isOtherVisit.
    assert (Hex : existsb (fun product' =>
                             String.eqb (bestBuyUrl ++ productPage product)
                               (bestBuyUrl ++ productPage product'))
                    products = true).
    { apply existsb_exists. exists product. split; [exact Hin | apply String.eqb_refl]. }
    rewrite Hex, Bool.orb_true_r. reflexivity. }
  pose proof (visits_checkout fuel false). pose proof visits_submitGuestOrder.
  unfold purchaseFlow, goToProductPage, validateProductMatch, addToCart, isInStock,
    hasItemBeenAddedToCart, continueAsGuest.
  counts_walk; assumption.
Qed.

Lemma visits_purchaseLoop fuel candidates :
  (forall product, In product candidates -> In product products) ->
  Counts (isOtherVisit products) 0
    (purchaseLoop customerInformation paymentInformation autoCheckout fuel candidates).
Proof.
  induction candidates as [| product rest IH]; intros Hin; cbn [purchaseLoop];
    [counts_walk|].
  pose proof (visits_purchaseFlow fuel product (Hin product (or_introl eq_refl))).
  pose proof (IH (fun p Hp => Hin p (or_intror Hp))).
  counts_walk.
Qed.

Lemma visits_pollLoop fuel :
  Counts (isOtherVisit products) 0
    (pollLoop customerInformation paymentInformation autoCheckout products fuel).
Proof.
  induction fuel as [| fuel IH]; cbn [pollLoop]; [counts_walk|].
  pose proof (visits_purchaseLoop (S fuel) products (fun p Hp => Hp)).
  unfold purchaseProduct, backoff. counts_walk.
Qed.

Lemma visits_supervisor fuel :
  Counts (isOtherVisit products) 0
    (supervisor customerInformation paymentInformation autoCheckout products fuel).
Proof.
  assert (Hmain : forall n,
            Counts (isOtherVisit products) 0
              (main customerInformation paymentInformation autoCheckout products n)).
  { intros n. pose proof (visits_pollLoop n).
    unfold main, shutdown, open, close. counts_walk. }
  assert (Hloop : forall n,
            Counts (isOtherVisit products) 0
              (superviseLoop customerInformation paymentInformation autoCheckout
                 products n)).
  { induction n as [| n IH]; cbn [superviseLoop]; [counts_walk|].
    pose proof (Hmain (S n)). counts_walk. }
  pose proof (Hloop fuel). unfold supervisor. counts_walk.
Qed.

End Visits.

(** X16.  The process takes the page nowhere but to the store page, to the
    cart and to the page of a product of the list. *)
Theorem X16_navigation_stays_on_the_listed_pages
    customerInformation paymentInformation autoCheckout products fuel env w :
  exists evs,
    trace (snd (supervisor customerInformation paymentInformation autoCheckout
                  products fuel env w)) = (trace w ++ evs)%list /\
    count (isOtherVisit products) evs = O.
Proof.
  destruct (visits_supervisor customerInformation paymentInformation autoCheckout
              products fuel env w) as (evs & Ht & Hc).
  exists evs. split; [exact Ht | lia].
Qed.

(* ================================================================== *)
(** ** The title of the cart *)

Section CartTitle.

Lemma isWhiteSpace_lowerChar c :
  JsString.isWhiteSpace (JsString.lowerChar c) = JsString.isWhiteSpace c.
Proof. destruct c as [[] [] [] [] [] [] [] []]; reflexivity. Qed.

Lemma toLowerCase_app a b :
  JsString.toLowerCase (a ++ b) = JsString.toLowerCase a ++ JsString.toLowerCase b.
Proof. induction a as [| c a IH]; cbn; [reflexivity | rewrite IH; reflexivity]. Qed.

Lemma toLowerCase_rev s :
  JsString.toLowerCase (JsString.rev s) = JsString.rev (JsString.toLowerCase s).
Proof.
  induction s as [| c s IH]; [reflexivity|].
  cbn [JsString.toLowerCase]. rewrite !rev_cons, toLowerCase_app, IH. reflexivity.
Qed.

Lemma startsWhite_toLowerCase s :
  startsWhite (JsString.toLowerCase s) = startsWhite s.
Proof. destruct s as [| c s]; [reflexivity | apply isWhiteSpace_lowerChar]. Qed.

(** A title that reads [your cart is empty], in whatever case and with
    whatever white space around it, is that of an empty cart. *)
Lemma cartEmptyText_loose pad1 t pad2 :
  allWhite pad1 = true -> allWhite pad2 = true ->
  JsString.toLowerCase t = "your cart is empty" ->
  cartEmptyText (Some (pad1 ++ t ++ pad2)) = true.
Proof.
  intros H1 H2 Ht.
  assert (Hs : startsWhite t = false)
    by (rewrite <- startsWhite_toLowerCase, Ht; reflexivity).
  assert (He : endsWhite t = false).
  { unfold endsWhite. rewrite <- startsWhite_toLowerCase, toLowerCase_rev, Ht.
    reflexivity. }
  unfold cartEmptyText. rewrite (trim_padded _ _ _ H1 H2 Hs He), Ht.
  destruct t as [| c t]; [discriminate|].
  destruct pad1; reflexivity.
Qed.

End CartTitle.

(** X17.  [isCartEmpty] reads the title of the cart loosely: the cart is
    taken as empty when the title says [your cart is empty] in whatever
    case and with whatever white space around it.  Without a title on the
    page the cart is taken as not empty, and no text is asked for. *)
Theorem X17_cart_title_is_read_loosely env w :
  (forall pad1 t pad2,
     let w1 := record (Query cartTitle) None w in
     rejects env (trace w) (Query cartTitle) = None ->
     element env (trace w) cartTitle = true ->
     rejects env (trace w1) (TextContent cartTitle) = None ->
     textOf env (trace w1) cartTitle = Some (pad1 ++ t ++ pad2) ->
     allWhite pad1 = true -> allWhite pad2 = true ->
     JsString.toLowerCase t = "your cart is empty" ->
     isCartEmpty env w = (Ok true, record (TextContent cartTitle) None w1))
  /\ (rejects env (trace w) (Query cartTitle) = None ->
      element env (trace w) cartTitle = false ->
      isCartEmpty env w = (Ok false, record (Query cartTitle) None w)).
Proof.
  split.
  - intros pad1 t pad2 w1 Hquery Hfound Hread Htext H1 H2 Ht. unfold isCartEmpty.
    rewrite (bind_ok (query cartTitle) _ env w true w1)
      by (unfold query; rewrite Hquery, Hfound; reflexivity).
    rewrite (bind_ok (textContent cartTitle) _ env w1 (Some (pad1 ++ t ++ pad2))
               (record (TextContent cartTitle) None w1))
      by (unfold textContent; rewrite Hread, Htext; reflexivity).
    unfold ret. rewrite (cartEmptyText_loose _ _ _ H1 H2 Ht). reflexivity.
  - intros Hquery Hfound. unfold isCartEmpty.
    rewrite (bind_ok (query cartTitle) _ env w false (record (Query cartTitle) None w))
      by (unfold query; rewrite Hquery, Hfound; reflexivity).
    reflexivity.
Qed.

(** X17 on the page whose cart title is [ Your cart is EMPTY ], and on the
    page without a cart title. *)
Lemma X17_cart_title_is_read_loosely_witness :
  let shouted := Scenario.withCartTitle " Your cart is EMPTY " in
  isCartEmpty shouted Scenario.start
    = (Ok true, record (TextContent cartTitle) None
                  (record (Query cartTitle) None Scenario.start))
  /\ isCartEmpty untitled Scenario.start
       = (Ok false, record (Query cartTitle) None Scenario.start).
Proof.
  intros shouted.
  exact (conj
           (proj1 (X17_cart_title_is_read_loosely shouted Scenario.start)
              " " "Your cart is EMPTY" " "
              eq_refl eq_refl eq_refl eq_refl eq_refl eq_refl eq_refl)
           (proj2 (X17_cart_title_is_read_loosely untitled Scenario.start)
              eq_refl eq_refl)).
Defined.

(* ================================================================== *)
(** ** The guest prompt *)

Section Delivery.

Variable mark : Call -> bool.

Lemma delivers_perform c : mark c = true -> Delivers mark (perform c).
Proof.
  intros Hc env w u w'. unfold perform.
  destruct (rejects env (trace w) c); [discriminate|].
  intros H. injection H as _ <-. eexists. split; [reflexivity|].
  cbn. rewrite Hc. cbn. lia.
Qed.

(** The call that went well is one of the first part, or one of what
    follows it. *)
Lemma delivers_bind_l {A B} (m : M A) (k : A -> M B) :
  Delivers mark m -> (forall a, Counts noCall 0 (k a)) -> Delivers mark (bind m k).
Proof.
  intros Hm Hk env w b w'. specialize (Hm env w). unfold bind.
  destruct (m env w) as [[a | e | c | ] w1]; try discriminate.
  destruct (Hm a w1 eq_refl) as (evs1 & Ht1 & Hc1).
  destruct (Hk a env w1) as (evs2 & Ht2 & _).
  intros Hrun. rewrite Hrun in Ht2. cbn [snd] in Ht2.
  exists (evs1 ++ evs2)%list. rewrite Ht2, Ht1, app_assoc, countDelivered_app.
  split; [reflexivity | lia].
Qed.

Lemma delivers_bind_r {A B} (m : M A) (k : A -> M B) :
  Counts noCall 0 m -> (forall a, Delivers mark (k a)) -> Delivers mark (bind m k).
Proof.
  intros Hm Hk env w b w'. destruct (Hm env w) as (evs1 & Ht1 & _). unfold bind.
  destruct (m env w) as [[a | e | c | ] w1]; try discriminate. cbn [snd] in Ht1.
  intros Hrun. destruct (Hk a env w1 b w' Hrun) as (evs2 & Ht2 & Hc2).
  exists (evs1 ++ evs2)%list. rewrite Ht2, Ht1, app_assoc, countDelivered_app.
  split; [reflexivity | lia].
Qed.

Lemma delivers_tryCatch {A} (body : M A) (handler : string -> M A) :
  Counts noCall 0 body -> Delivers mark body ->
  (forall e, Delivers mark (handler e)) ->
  Delivers mark (tryCatch body handler).
Proof.
  intros Hext Hm Hk env w b w'. destruct (Hext env w) as (evs1 & Ht1 & _).
  specialize (Hm env w). unfold tryCatch.
  destruct (body env w) as [[a | e | c | ] w1]; try discriminate; cbn [snd] in Ht1.
  - intros H. injection H as <- <-. apply (Hm a w1 eq_refl).
  - intros Hrun. destruct (Hk e env w1 b w' Hrun) as (evs2 & Ht2 & Hc2).
    exists (evs1 ++ evs2)%list. rewrite Ht2, Ht1, app_assoc, countDelivered_app.
    split; [reflexivity | lia].
Qed.

End Delivery.

Section GuestPrompt.

Variable customerInformation : CustomerInformation.
Variable paymentInformation : PaymentInformation.
Variable autoCheckout : bool.

Lemma grows_shippingLoop fuel : forall attempt, Counts noCall 0 (shippingLoop fuel attempt).
Proof.
  induction fuel as [| fuel IH]; intros attempt; cbn [shippingLoop]; [counts_walk|].
  unfold selectShipping. counts_walk.
Qed.

Lemma grows_checkoutPass fuel retrying :
  Counts noCall 0 (checkoutPass customerInformation fuel retrying).
Proof.
  pose proof (grows_shippingLoop fuel 1).
  unfold checkoutPass, isCartEmpty, changeZipCode, clickCheckoutButton. counts_walk.
Qed.

(** [checkout] returns only once a wait for the guest prompt went well. *)
Lemma checkout_delivers fuel :
  forall retrying, Delivers isGuestWait (checkout customerInformation fuel retrying).
Proof.
  induction fuel as [| fuel IH]; intros retrying; cbn [checkout].
  - intros env w u w' H. discriminate.
  - apply delivers_bind_r; [apply grows_checkoutPass | intros _].
    apply delivers_tryCatch.
    + counts_walk.
    + apply delivers_bind_l; [apply delivers_perform; reflexivity | intros _].
      counts_walk.
    + intros e. do 3 (apply delivers_bind_r; [counts_walk | intros _]). apply IH.
Qed.

Lemma guestClick_shippingLoop fuel :
  forall attempt, Counts isGuestClick 0 (shippingLoop fuel attempt).
Proof.
  induction fuel as [| fuel IH]; intros attempt; cbn [shippingLoop]; [counts_walk|].
  unfold selectShipping. counts_walk.
Qed.

Lemma guestClick_checkout fuel :
  forall retrying, Counts isGuestClick 0 (checkout customerInformation fuel retrying).
Proof.
  induction fuel as [| fuel IH]; intros retrying; cbn [checkout]; [counts_walk|].
  pose proof (guestClick_shippingLoop (S fuel) 1). pose proof (IH true).
  unfold checkoutPass, isCartEmpty, changeZipCode, clickCheckoutButton. counts_walk.
Qed.

Lemma purchaseFlow_announced fuel product :
  Announced isGuestWait isGuestClick
    (purchaseFlow customerInformation paymentInformation autoCheckout fuel product).
Proof.
  unfold purchaseFlow.
  do 3 (apply announced_bind;
        [ unfold goToProductPage, validateProductMatch, addToCart, isInStock,
            hasItemBeenAddedToCart; counts_walk
        | intros ]).
  apply (announced_after _ _ 1);
    [apply guestClick_checkout | apply checkout_delivers | intros _].
  apply counts_bind_r.
  - unfold continueAsGuest.
    apply counts_bind_l; [counts_walk | intros _].
    apply counts_bind_r;
      [eapply counts_one; apply records_single, records_perform | intros _].
    counts_walk.
  - intros _.
    unfold submitGuestOrder, completeOrderInformation, completeShippingInformation,
      completeContactInformation, completePaymentInformation, readTotal,
      validateTotal, placeOrder.
    counts_walk.
Qed.

End GuestPrompt.

(** X18.  [checkout] returns only once one of its waits for the
    guest-checkout prompt went well, on the first pass or on a retry; so in
    the flow of a product the guest-checkout button is clicked only after
    the prompt was found. *)
Theorem X18_guest_button_clicked_after_prompt
    customerInformation paymentInformation autoCheckout fuel :
  (forall retrying env w w',
     checkout customerInformation fuel retrying env w = (Ok tt, w') ->
     exists evs,
       trace w' = (trace w ++ evs)%list /\
       (0 < countDelivered isGuestWait evs)%nat)
  /\ (forall product env w,
        exists evs,
          trace (snd (purchaseFlow customerInformation paymentInformation
                        autoCheckout fuel product env w)) = (trace w ++ evs)%list /\
          precededBy isGuestWait isGuestClick false evs = true).
Proof.
  split.
  - intros retrying env w w' Hrun.
    exact (checkout_delivers customerInformation fuel retrying env w tt w' Hrun).
  - intros product env w.
    exact (purchaseFlow_announced customerInformation paymentInformation
             autoCheckout fuel product env w false).
Qed.

(** X18 on the page where the prompt times out twice. *)
Lemma X18_guest_button_clicked_after_prompt_witness :
  let w' := snd (checkout Scenario.customer 5 false (slowPrompt 2) Scenario.start) in
  checkout Scenario.customer 5 false (slowPrompt 2) Scenario.start = (Ok tt, w') /\
  exists evs,
    trace w' = (trace Scenario.start ++ evs)%list /\
    (0 < countDelivered isGuestWait evs)%nat.
Proof.
  intros w'.
  assert (Hrun : checkout Scenario.customer 5 false (slowPrompt 2) Scenario.start
                 = (Ok tt, w')) by (vm_compute; reflexivity).
  exact (conj Hrun
           (proj1 (X18_guest_button_clicked_after_prompt Scenario.customer
                     Scenario.payment false 5%nat)
              false (slowPrompt 2) Scenario.start w' Hrun)).
Defined.

(* ================================================================== *)
(** ** The browser of [src/driver] *)

Section Loop.

(** A kind of call that the loop does not make. *)
Variable p : Call -> bool.
Hypothesis p_loop : forall c, isLoopCall c = true -> p c = false.

Variable customerInformation : CustomerInformation.
Variable paymentInformation : PaymentInformation.
Variable autoCheckout : bool.
Variable products : list ProductInformation.

Ltac loop_walk := counts_walk; apply p_loop; reflexivity.

Lemma loop_shippingLoop fuel : forall attempt, Counts p 0 (shippingLoop fuel attempt).
Proof.
  induction fuel as [| fuel IH]; intros attempt; cbn [shippingLoop]; [loop_walk|].
  unfold selectShipping. loop_walk.
Qed.

Lemma loop_checkout fuel :
  forall retrying, Counts p 0 (checkout customerInformation fuel retrying).
Proof.
  induction fuel as [| fuel IH]; intros retrying; cbn [checkout]; [loop_walk|].
  pose proof (loop_shippingLoop (S fuel) 1). pose proof (IH true).
  unfold checkoutPass, isCartEmpty, changeZipCode, clickCheckoutButton. loop_walk.
Qed.

Lemma loop_submitGuestOrder :
  Counts p 0 (submitGuestOrder customerInformation paymentInformation autoCheckout).
Proof.
  unfold submitGuestOrder, completeOrderInformation, completeShippingInformation,
    completeContactInformation, completePaymentInformation, readTotal, validateTotal,
    placeOrder.
  loop_walk.
Qed.

Lemma loop_purchaseLoop fuel candidates :
  Counts p 0
    (purchaseLoop customerInformation paymentInformation autoCheckout fuel candidates).
Proof.
  induction candidates as [| product rest IH]; cbn [purchaseLoop]; [loop_walk|].
  pose proof (loop_checkout fuel false). pose proof loop_submitGuestOrder.
  unfold purchaseFlow, goToProductPage, validateProductMatch, addToCart, isInStock,
    hasItemBeenAddedToCart, continueAsGuest.
  loop_walk.
Qed.

Lemma loop_pollLoop fuel :
  Counts p 0
    (pollLoop customerInformation paymentInformation autoCheckout products fuel).
Proof.
  induction fuel as [| fuel IH]; cbn [pollLoop]; [loop_walk|].
  pose proof (loop_purchaseLoop (S fuel) products).
  unfold purchaseProduct, backoff. loop_walk.
Qed.

Lemma loop_superviseLoop fuel :
  Counts p 0
    (superviseLoop customerInformation paymentInformation autoCheckout products fuel).
Proof.
  induction fuel as [| fuel IH]; cbn [superviseLoop]; [loop_walk|].
  pose proof (loop_pollLoop (S fuel)).
  unfold main, shutdown, open, close. loop_walk.
Qed.

End Loop.

Lemma announced_then mark target {A B} (m : M A) (k : A -> M B) :
  Counts target 0 m -> Delivers mark m -> (forall a, Counts noCall 0 (k a)) ->
  Announced mark target (bind m k).
Proof.
  intros Hm Hd Hk env w seen. destruct (Hm env w) as (evs1 & Ht1 & Hc1).
  specialize (Hd env w). unfold bind.
  destruct (m env w) as [[a | e | c | ] w1]; cbn [snd] in *;
    try (exists evs1; split; [exact Ht1 | apply precededBy_none; lia]).
  destruct (Hd a w1 eq_refl) as (evs1' & Ht1' & Hmark). rewrite Ht1 in Ht1'.
  apply app_inv_head in Ht1'. subst evs1'.
  destruct (Hk a env w1) as (evs2 & Ht2 & _).
  exists (evs1 ++ evs2)%list. rewrite Ht2, Ht1, app_assoc. split; [reflexivity|].
  apply precededBy_marked; [lia | exact Hmark].
Qed.

Section Browser.

Variable customerInformation : CustomerInformation.
Variable paymentInformation : PaymentInformation.
Variable autoCheckout : bool.
Variable products : list ProductInformation.

Lemma supervisor_announced target fuel :
  target Pm2Connect = false -> target FirefoxLaunch = false ->
  (forall e, target (Log Error e) = false) -> target (ProcessExit 2) = false ->
  Announced isLaunch target
    (supervisor customerInformation paymentInformation autoCheckout products fuel).
Proof.
  intros H1 H2 H3 H4. unfold supervisor.
  apply announced_bind; [counts_walk; auto | intros _].
  apply announced_then.
  - eapply counts_single; [apply records_single, records_perform | exact H2].
  - apply delivers_perform. reflexivity.
  - intros _.
    pose proof (loop_superviseLoop noCall (fun _ _ => eq_refl) customerInformation
                  paymentInformation autoCheckout products fuel).
    counts_walk.
Qed.

Lemma supervisor_launches_once fuel :
  Counts isLaunch 1
    (supervisor customerInformation paymentInformation autoCheckout products fuel).
Proof.
  unfold supervisor.
  apply counts_bind_l; [counts_walk | intros _].
  apply counts_bind_r;
    [eapply counts_one; apply records_single, records_perform | intros _].
  pose proof (loop_superviseLoop isLaunch
                ltac:(intros c Hc; destruct c; try reflexivity; discriminate)
                customerInformation paymentInformation autoCheckout products fuel).
  counts_walk.
Qed.

Lemma supervisor_closes_once fuel :
  Counts isBrowserClose 1
    (supervisor customerInformation paymentInformation autoCheckout products fuel).
Proof.
  unfold supervisor.
  apply counts_bind_l; [counts_walk | intros _].
  apply counts_bind_l; [counts_walk | intros _].
  apply counts_bind_l.
  { apply (loop_superviseLoop isBrowserClose
             ltac:(intros c Hc; destruct c; try reflexivity; discriminate)). }
  intros _.
  apply counts_bind_r;
    [eapply counts_one; apply records_single, records_perform | intros _].
  counts_walk.
Qed.

End Browser.

(** X19.  The browser of [src/driver] is launched once at most in a run of
    the process, and closed once at most.  A browser context is opened, and
    the browser is closed, only after the launch went well: [getBrowser] is
    not used before [createBrowser] has given the browser. *)
Theorem X19_browser_launched_before_use
    customerInformation paymentInformation autoCheckout products fuel env w :
  exists evs,
    trace (snd (supervisor customerInformation paymentInformation autoCheckout
                  products fuel env w)) = (trace w ++ evs)%list /\
    (count isLaunch evs <= 1)%nat /\
    (count isBrowserClose evs <= 1)%nat /\
    precededBy isLaunch isContextOpen false evs = true /\
    precededBy isLaunch isBrowserClose false evs = true.
Proof.
  destruct (supervisor_launches_once customerInformation paymentInformation
              autoCheckout products fuel env w) as (evs & Ht & Hlaunch).
  exists evs. split; [exact Ht|]. split; [exact Hlaunch|].
  destruct (supervisor_closes_once customerInformation paymentInformation
              autoCheckout products fuel env w) as (evs' & Ht' & Hclose).
  rewrite Ht in Ht'. apply app_inv_head in Ht'. subst evs'.
  split; [exact Hclose|]. split.
  - destruct (supervisor_announced customerInformation paymentInformation
                autoCheckout products isContextOpen fuel eq_refl eq_refl
                (fun _ => eq_refl) eq_refl env w false) as (evs' & Ht' & Hp).
    rewrite Ht in Ht'. apply app_inv_head in Ht'. subst evs'. exact Hp.
  - destruct (supervisor_announced customerInformation paymentInformation
                autoCheckout products isBrowserClose fuel eq_refl eq_refl
                (fun _ => eq_refl) eq_refl env w false) as (evs' & Ht' & Hp).
    rewrite Ht in Ht'. apply app_inv_head in Ht'. subst evs'. exact Hp.
Qed.

(** The browser on the calm page: one launch, one context, one closing. *)
Example browser_on_the_calm_page :
  let evs := trace (snd (supervisor Scenario.customer Scenario.payment false
                           [Scenario.gpu] 3 Scenario.calm Scenario.start)) in
  count isLaunch evs = 1%nat /\ count isContextOpen evs = 1%nat /\
  count isBrowserClose evs = 1%nat.
Proof. vm_compute. repeat split; reflexivity. Qed.

(* ================================================================== *)
(** ** The second line of the address *)

Section SecondLine.

Variable customerInformation : CustomerInformation.

Lemma secondLine_left_out :
  match addressSecondLine customerInformation with
  | Some line => JsString.truthy line = false
  | None => True
  end ->
  Counts isSecondLineCall 0 (completeShippingInformation customerInformation).
Proof.
  intros Hline. unfold completeShippingInformation.
  destruct (addressSecondLine customerInformation) as [line | ];
    [rewrite Hline|]; counts_walk.
Qed.

Lemma secondLine_entered line :
  addressSecondLine customerInformation = Some line ->
  JsString.truthy line = true ->
  Delivers (isSecondLineEntry line) (completeShippingInformation customerInformation).
Proof.
  intros Hline Htruthy. unfold completeShippingInformation. rewrite Hline, Htruthy.
  do 7 (apply delivers_bind_r; [counts_walk | intros]).
  apply delivers_bind_l; [|intros; counts_walk].
  apply delivers_bind_r; [counts_walk | intros _].
  apply delivers_perform. cbn. rewrite String.eqb_refl. reflexivity.
Qed.

End SecondLine.

(** X20.  The second line of the address is optional.  When the customer
    information has none, or an empty one, [completeShippingInformation]
    neither shows its field nor types in it; when it has one, the step
    returns only once the line was typed in its field. *)
Theorem X20_second_address_line_is_optional customerInformation :
  (match addressSecondLine customerInformation with
   | Some line => JsString.truthy line = false
   | None => True
   end ->
   forall env w,
     exists evs,
       trace (snd (completeShippingInformation customerInformation env w))
         = (trace w ++ evs)%list /\
       count isSecondLineCall evs = O)
  /\ (forall line env w w',
        addressSecondLine customerInformation = Some line ->
        JsString.truthy line = true ->
        completeShippingInformation customerInformation env w = (Ok tt, w') ->
        exists evs,
          trace w' = (trace w ++ evs)%list /\
          (0 < countDelivered (isSecondLineEntry line) evs)%nat).
Proof.
  split.
  - intros Hline env w.
    destruct (secondLine_left_out customerInformation Hline env w) as (evs & Ht & Hc).
    exists evs. split; [exact Ht | lia].
  - intros line env w w' Hline Htruthy Hrun.
    exact (secondLine_entered customerInformation line Hline Htruthy env w tt w' Hrun).
Qed.

(** X20 on the calm page, for the customer without a second line and for
    the one who lives in an apartment. *)
Lemma X20_second_address_line_is_optional_witness :
  let w' := snd (completeShippingInformation apartment Scenario.calm Scenario.start) in
  (exists evs,
     trace (snd (completeShippingInformation Scenario.customer Scenario.calm
                   Scenario.start)) = (trace Scenario.start ++ evs)%list /\
     count isSecondLineCall evs = O)
  /\ (addressSecondLine apartment = Some "Apt 4" /\
      completeShippingInformation apartment Scenario.calm Scenario.start = (Ok tt, w') /\
      exists evs,
        trace w' = (trace Scenario.start ++ evs)%list /\
        (0 < countDelivered (isSecondLineEntry "Apt 4") evs)%nat).
Proof.
  intros w'.
  assert (Hrun : completeShippingInformation apartment Scenario.calm Scenario.start
                 = (Ok tt, w')) by (vm_compute; reflexivity).
  exact (conj
           (proj1 (X20_second_address_line_is_optional Scenario.customer) Logic.I
              Scenario.calm Scenario.start)
           (conj eq_refl
              (conj Hrun
                 (proj2 (X20_second_address_line_is_optional apartment)
                    "Apt 4" Scenario.calm Scenario.start w' eq_refl eq_refl Hrun)))).
Defined.

(* ================================================================== *)
(** ** The product added to the cart *)

Lemma eqb_append_l a x y : String.eqb (a ++ x) (a ++ y) = String.eqb x y.
Proof.
  induction a as [| c a IH]; cbn; [reflexivity|].
  rewrite Ascii.eqb_refl. exact IH.
Qed.

Lemma inStock_is_not_added product :
  String.eqb (inStockMessage product) (addedMessage product) = false.
Proof.
  unfold inStockMessage, addedMessage. rewrite !eqb_append_l. reflexivity.
Qed.

(** X21.  In every run of [addToCart], the sends that tell that the product
    was added to the cart come after the response of the store to the
    add-to-cart request was seen. *)
Theorem X21_added_is_told_after_the_response product env w :
  exists evs,
    trace (snd (addToCart product env w)) = (trace w ++ evs)%list /\
    precededBy isAddResponse (isAddedSend product) false evs = true.
Proof.
  assert (H1 : isAddedSend product (HookSend (inStockMessage product)) = false)
    by apply inStock_is_not_added.
  assert (H2 : isAddedSend product (TelegramSendMessage (inStockMessage product))
               = false) by apply inStock_is_not_added.
  assert (Hall : Announced isAddResponse (isAddedSend product) (addToCart product)).
  { unfold addToCart, isInStock.
    do 10 (apply announced_bind; [counts_walk; assumption | intros]).
    apply announced_then.
    - unfold hasItemBeenAddedToCart. counts_walk.
    - unfold hasItemBeenAddedToCart.
      apply delivers_bind_l; [apply delivers_perform; reflexivity | intros; counts_walk].
    - intros result. counts_walk. }
  exact (Hall env w false).
Qed.
